(** * Pointer-chasing memory-latency benchmark: chain builder and harness

    A shallow embedding of [memory_latency::generate_random_pointer_chasing]
    (with its helpers in namespace [detail]), of
    [memory_latency::run_benchmark] and of [main], together with the
    properties that the specification states about them.

    Conventions.  The target is an LP64 Linux machine: [std::size_t],
    [std::uintptr_t] and [std::uint64_t] are 64-bit unsigned integers, an
    [int] has 32 bits, a [MemoryAddress] (a [void*]) is 8 bytes wide and
    8-byte aligned, and memory is byte addressed and little endian.
    Unsigned integers are values of [Z] whose wrap-around is written out
    with [wrap64]; an operation whose behaviour C++ leaves undefined (a
    division by zero, a signed overflow) ends a run as [Undefined].  The
    standard library is the libstdc++ of GCC 12. *)

From Stdlib Require Import ZArith String Lia.
From stdpp Require Import base tactics option list list_numbers functions numbers.

Local Open Scope Z_scope.

(** ** Machine integers *)

Definition wrap64 (x : Z) : Z := x mod 2 ^ 64.

Definition UINT64_MAX : Z := 2 ^ 64 - 1.

(** [sizeof(MemoryAddress)] and [alignof(MemoryAddress)]. *)
Definition sizeof_MemoryAddress : Z := 8.
Definition alignof_MemoryAddress : Z := 8.

(** [nullptr]. *)
Definition nullptr : Z := 0.

(** [sizeof(std::size_t)], and the largest value of an [int]. *)
Definition sizeof_size_t : Z := 8.
Definition INT_MAX : Z := 2 ^ 31 - 1.

(** ** The parts of the C++ standard library that the chain builder uses *)

(** [std::mt19937_64], the 64-bit Mersenne Twister, with the parameters
    that the C++ standard fixes for it. *)
Module mt19937_64.

Definition state_size : nat := 312.
Definition shift_size : nat := 156.
Definition xor_mask : Z := 0xB5026F5AA96619E9.
Definition upper_mask : Z := 0xFFFFFFFF80000000.
Definition lower_mask : Z := 0x7FFFFFFF.
Definition initialization_multiplier : Z := 6364136223846793005.

Record engine : Type := Engine { words : list Z; position : nat }.

(** Seeding: [x(i) = f * (x(i-1) xor (x(i-1) >> 62)) + i  mod 2^64]. *)
Fixpoint seed_words (count : nat) (i prev : Z) : list Z :=
  match count with
  | O => []
  | S count' =>
      let x := wrap64 (initialization_multiplier
                       * Z.lxor prev (Z.shiftr prev 62) + i) in
      x :: seed_words count' (i + 1) x
  end.

Definition seed (value : Z) : engine :=
  let x0 := wrap64 value in
  Engine (x0 :: seed_words (state_size - 1) 1 x0) state_size.

(** One step of the in-place regeneration of the state. *)
Definition twist_at (mt : list Z) (i : nat) : list Z :=
  let x := Z.lor (Z.land (mt !!! i) upper_mask)
                 (Z.land (mt !!! ((i + 1) mod state_size)%nat) lower_mask) in
  let xA := Z.shiftr x 1 in
  let xA := if Z.odd x then Z.lxor xA xor_mask else xA in
  <[i := Z.lxor (mt !!! ((i + shift_size) mod state_size)%nat) xA]> mt.

Definition twist (mt : list Z) : list Z :=
  fold_left twist_at (seq 0 state_size) mt.

Definition temper (y : Z) : Z :=
  let y := Z.lxor y (Z.land (Z.shiftr y 29) 0x5555555555555555) in
  let y := Z.lxor y (Z.land (Z.shiftl y 17) 0x71D67FFFEDA60000) in
  let y := Z.lxor y (Z.land (Z.shiftl y 37) 0xFFF7EEE000000000) in
  Z.lxor y (Z.shiftr y 43).

(** [operator()]: the next 64-bit output and the advanced engine. *)
Definition next (g : engine) : Z * engine :=
  let g := if (state_size <=? position g)%nat
           then Engine (twist (words g)) 0 else g in
  (temper (words g !!! position g), Engine (words g) (S (position g))).

Fixpoint discard (count : nat) (g : engine) : engine :=
  match count with
  | O => g
  | S count' => discard count' (snd (next g))
  end.

End mt19937_64.

(** [std::shuffle(first, last, g)] on a [std::vector<std::size_t>] with a
    [std::mt19937_64].  The standard fixes its effect (the range is
    permuted) but leaves the algorithm to the implementation, so the
    function is an interface whose law is that effect; the properties of
    the chain builder are proved for every implementation of it. *)
Class StdShuffle : Type := {
  shuffle : list Z → mt19937_64.engine → list Z * mt19937_64.engine;
  shuffle_permutes : ∀ v g, (shuffle v g).1 ≡ₚ v
}.

(** [std::iter_swap(first + i, first + j)].  Both positions are inside the
    vector wherever the shuffle below calls it; outside (undefined
    behaviour in C++) the vector is left as it is. *)
Definition iter_swap (v : list Z) (i j : nat) : list Z :=
  match v !! i, v !! j with
  | Some x, Some y => <[j := x]> (<[i := y]> v)
  | _, _ => v
  end.

(** The implementation of that interface in the C++ library of GCC 12
    ([bits/stl_algo.h] and [bits/uniform_int_dist.h] of libstdc++), for a
    vector of [std::size_t] and the engine [std::mt19937_64], whose outputs
    range over all 64-bit values. *)
Module libstdcxx.

(** The loop [while (low < threshold)] of [_S_nd] draws again until a
    product is accepted.  A draw is rejected with a probability below
    [range / 2^64]; the model draws again at most [redraws] times and then
    takes the last product. *)
Definition redraws : nat := 64.

Fixpoint S_nd_redraw (fuel : nat) (g : mt19937_64.engine)
    (range threshold product : Z) : Z * mt19937_64.engine :=
  match fuel with
  | O => (product, g)
  | S fuel' =>
      if wrap64 product <? threshold then
        let '(r, g') := mt19937_64.next g in
        S_nd_redraw fuel' g' range threshold (r * range)
      else (product, g)
  end.

(** [uniform_int_distribution::_S_nd<unsigned __int128>(g, range)]:
    Lemire's method, a number below [range] from the upper half of the
    128-bit product of a draw and [range]. *)
Definition S_nd (g : mt19937_64.engine) (range : Z)
    : Z * mt19937_64.engine :=
  let '(r, g) := mt19937_64.next g in
  let product := r * range in
  let low := wrap64 product in
  let '(product, g) :=
    if low <? range then
      let threshold := wrap64 (- range) mod range in
      S_nd_redraw redraws g range threshold product
    else (product, g) in
  (Z.shiftr product 64, g).

(** [uniform_int_distribution<std::size_t>{a, b}(g)]. *)
Definition uniform_int (g : mt19937_64.engine) (a b : Z)
    : Z * mt19937_64.engine :=
  let urngrange := UINT64_MAX in
  let urange := wrap64 (b - a) in
  let '(ret, g) :=
    if urange <? urngrange then S_nd g (wrap64 (urange + 1))
    else mt19937_64.next g in
  (wrap64 (ret + a), g).

(** [__gen_two_uniform_ints(b0, b1, g)]: two positions from one draw. *)
Definition gen_two_uniform_ints (b0 b1 : Z) (g : mt19937_64.engine)
    : (Z * Z) * mt19937_64.engine :=
  let '(x, g) := uniform_int g 0 (wrap64 (wrap64 (b0 * b1) - 1)) in
  ((x / b1, x mod b1), g).

(** The loop [while (i != last)] that swaps two elements per draw, with
    [pairs] iterations left. *)
Fixpoint shuffle_pairs (pairs i : nat) (v : list Z) (g : mt19937_64.engine)
    : list Z * mt19937_64.engine :=
  match pairs with
  | O => (v, g)
  | S pairs' =>
      let swap_range := Z.of_nat i + 1 in
      let '((pos1, pos2), g) :=
        gen_two_uniform_ints swap_range (swap_range + 1) g in
      let v := iter_swap v i (Z.to_nat pos1) in
      let v := iter_swap v (S i) (Z.to_nat pos2) in
      shuffle_pairs pairs' (S (S i)) v g
  end.

(** The loop [for (i = first + 1; i != last; ++i)] that swaps one element
    per draw, with [remaining] iterations left. *)
Fixpoint shuffle_singles (remaining i : nat) (v : list Z)
    (g : mt19937_64.engine) : list Z * mt19937_64.engine :=
  match remaining with
  | O => (v, g)
  | S remaining' =>
      let '(pos, g) := uniform_int g 0 (Z.of_nat i) in
      shuffle_singles remaining' (S i) (iter_swap v i (Z.to_nat pos)) g
  end.

Definition shuffle (v : list Z) (g : mt19937_64.engine)
    : list Z * mt19937_64.engine :=
  match v with
  | [] => (v, g)
  | _ =>
      let urngrange := UINT64_MAX in
      let urange := Z.of_nat (length v) in
      if urange <=? urngrange / urange then
        let '(v, g, i) :=
          if urange mod 2 =? 0 then
            let '(pos, g) := uniform_int g 0 1 in
            (iter_swap v 1 (Z.to_nat pos), g, 2%nat)
          else (v, g, 1%nat) in
        shuffle_pairs ((length v - i) / 2) i v g
      else shuffle_singles (length v - 1) 1 v g
  end.

End libstdcxx.

(** [std::iota(first, last, 0)] on the elements of a
    [std::vector<std::size_t>].  The standard gives its effect as
    [*i = value; ++value] for each element in turn.  The initial value [0]
    is an [int], so [value] is an [int]: an element receives the value
    converted to [std::size_t], and incrementing [INT_MAX] is a signed
    overflow, which is undefined behaviour ([None]). *)
Fixpoint iota (indices : list Z) (value : Z) : option (list Z) :=
  match indices with
  | [] => Some []
  | _ :: rest =>
      if value <? INT_MAX then
        (λ rest', wrap64 value :: rest') <$> iota rest (value + 1)
      else None
  end.

(** [std::to_string] on an unsigned value. *)
Fixpoint to_string_digits (fuel : nat) (x : Z) (acc : string) : string :=
  match fuel with
  | O => acc
  | S fuel' =>
      let acc := String (Ascii.ascii_of_nat (Z.to_nat (48 + x mod 10))) acc in
      if x / 10 =? 0 then acc else to_string_digits fuel' (x / 10) acc
  end.

Definition to_string (x : Z) : string := to_string_digits 20 x EmptyString.

(** ** Machine state and effects *)

(** C++ exceptions that the program throws. *)
Inductive exn : Type :=
  | invalid_argument (what : string)
  | runtime_error (what : string)
  | length_error (what : string)
  | bad_alloc.

(** The five hardware counters of one measurement, by the variable of
    [run_benchmark] that holds the handle. *)
Inductive counter : Type :=
  | cycle_counter
  | l1d_miss_counter
  | l2_miss_counter
  | l3_miss_counter
  | tlb_miss_counter.

(** Modelled from the spec: [perf_counter.h] is not among the sources.  A
    counter handle is "an opaque reference to one hardware performance
    counter, tagged valid/invalid at open time"; the code reads its field
    [fd] and asks [perf_counter_is_valid]. *)
Record perf_counter : Type := PerfCounter { fd : Z; is_valid : bool }.

Record BenchmarkResult : Type := mkBenchmarkResult {
  buffer_size : Z;
  padded_element_size : Z;
  page_size : Z;
  num_logical_loads : Z;
  cycle_count : Z;
  l1d_miss_count : Z;
  l2_miss_count : Z;
  l3_miss_count : Z;
  tlb_miss_count : Z
}.

(** What the program does to the outside, in order. *)
Inductive event : Type :=
  | EWrite (address value : Z)
  | EStderr (text : string)
  | EAlloc (alignment size address : Z)
  | EFree (address : Z)
  | EMadvise (address size : Z) (hugepage : bool) (status : Z)
  | EOpen (c : counter) (name : string) (group_fd : Z) (handle : perf_counter)
  | EClose (c : counter)
  | EEnable (c : counter)
  | EDisable (c : counter)
  | ERead (c : counter) (value : Z)
  | EKernel (start_ptr : Z)
  | ECsvRow (result : BenchmarkResult).

(** Byte-addressed memory, the number of counter reads done so far, and the
    trace of events. *)
Record world : Type := World {
  mem : Z → Z;
  reads : nat;
  trace : list event
}.

(** A call returns a value, throws, or has undefined behaviour. *)
Inductive outcome (A : Type) : Type :=
  | Ret (a : A)
  | Throw (e : exn)
  | Undefined.
Arguments Ret {A} a.
Arguments Throw {A} e.
Arguments Undefined {A}.

Definition M (A : Type) : Type := world → outcome A * world.

#[global] Instance M_ret : MRet M := λ A a w, (Ret a, w).

#[global] Instance M_bind : MBind M := λ A B k c w,
  match c w with
  | (Ret a, w') => k a w'
  | (Throw e, w') => (Throw e, w')
  | (Undefined, w') => (Undefined, w')
  end.

Definition throw {A : Type} (e : exn) : M A := λ w, (Throw e, w).

Definition undefined {A : Type} : M A := λ w, (Undefined, w).

Definition emit (e : event) : M unit :=
  λ w, (Ret (), World (mem w) (reads w) (trace w ++ [e])).

(** ** Memory: loads and stores of a [MemoryAddress] *)

Fixpoint store_bytes (count : nat) (address value : Z) (m : Z → Z) : Z → Z :=
  match count with
  | O => m
  | S count' =>
      store_bytes count' (address + 1) (value / 256)
                  (<[address := value mod 256]> m)
  end.

Fixpoint load_bytes (count : nat) (address : Z) (m : Z → Z) : Z :=
  match count with
  | O => 0
  | S count' => m address + 256 * load_bytes count' (address + 1) m
  end.

(** [*p] for [MemoryAddress* p]. *)
Definition load_ptr (m : Z → Z) (p : Z) : Z :=
  load_bytes (Z.to_nat sizeof_MemoryAddress) p m.

(** [*p = value] for [MemoryAddress* p]. *)
Definition store_ptr (p value : Z) : M unit :=
  λ w, (Ret (),
        World (store_bytes (Z.to_nat sizeof_MemoryAddress) p value (mem w))
              (reads w) (trace w ++ [EWrite p value])).

(** ** The environment of the program *)

(** What reading [/proc/meminfo] for the line [Hugepagesize:] yields. *)
Inductive meminfo : Type :=
  | MeminfoNotOpened
  | MeminfoNoEntry
  | MeminfoEntry (value : Z) (unit : string).

(** The answers of the operating system, of the allocator and of the
    performance-counter library to the calls of the program.  A counter is
    opened once per variable, so the variable tells the calls of
    [perf_counter_open_by_name] apart; a read is told apart by the number
    of reads before it.  [operator_new bytes] tells whether the request of
    [std::allocator] for [bytes] bytes is served ([::operator new] throws
    [std::bad_alloc] when it is not). *)
Record environment : Type := Environment {
  znver2 : bool;
  sysconf_SC_PAGESIZE : Z;
  proc_meminfo : meminfo;
  aligned_alloc : Z → Z → Z;
  madvise : Z → Z → bool → Z;
  strerror_errno : string;
  perf_counter_open_by_name : counter → string → Z → perf_counter;
  perf_counter_read_value : nat → counter → Z;
  operator_new : Z → bool
}.

Definition newline : string := String (Ascii.ascii_of_nat 10) EmptyString.

(** ** The chain builder *)

(** [std::vector<std::size_t>(num_elements)], as libstdc++ builds it: a
    vector of more than [max_size()] elements
    ([PTRDIFF_MAX / sizeof(std::size_t)]) is refused with
    [std::length_error]; the storage of a vector that is not empty comes
    from [::operator new], which may throw [std::bad_alloc]; the elements
    are zero. *)
Definition vector_max_size : Z := (2 ^ 63 - 1) / sizeof_size_t.

Definition VectorLengthError : exn :=
  length_error "cannot create std::vector larger than max_size()".

Definition new_vector (env : environment) (num_elements : Z) : M (list Z) :=
  if vector_max_size <? num_elements then throw VectorLengthError
  else if (num_elements =? 0)
          || operator_new env (num_elements * sizeof_size_t) then
    mret (replicate (Z.to_nat num_elements) 0)
  else throw bad_alloc.

Module detail.

Definition generate_random_permutation `{StdShuffle} (env : environment)
    (num_elements seed : Z) : M (list Z) :=
  indices ← new_vector env num_elements;
  match iota indices 0 with
  | None => undefined
  | Some indices =>
      let rng := mt19937_64.seed seed in
      mret (shuffle indices rng).1
  end.

Definition get_element_location (buffer index padded_bytes_per_element : Z)
    : Z :=
  wrap64 (buffer + wrap64 (index * padded_bytes_per_element)).

End detail.

(** The three contract violations, each a [std::invalid_argument] with a
    message of its own. *)
Definition AlignmentError : exn :=
  invalid_argument
    ("`buffer` must be aligned to " ++ to_string alignof_MemoryAddress
     ++ " bytes.").

Definition StrideAlignmentError : exn :=
  invalid_argument
    ("`padded_bytes_per_element` must be a multiple of "
     ++ to_string alignof_MemoryAddress ++ ".").

Definition StrideTooSmallError : exn :=
  invalid_argument
    ("`padded_bytes_per_element` must be at least "
     ++ to_string sizeof_MemoryAddress ++ ".").

(** The loop [for (i = 0; i < num_elements - 1; ++i)] that links
    [indices[i]] to [indices[i + 1]]; [remaining] counts the iterations
    that are left. *)
Fixpoint link_elements (remaining i : nat)
    (buffer padded_bytes_per_element : Z) (indices : list Z) : M unit :=
  match remaining with
  | O => mret ()
  | S remaining' =>
      let current_ptr :=
        detail.get_element_location buffer (indices !!! i)
                                    padded_bytes_per_element in
      let next_ptr :=
        detail.get_element_location buffer (indices !!! (i + 1)%nat)
                                    padded_bytes_per_element in
      store_ptr current_ptr next_ptr ;;
      link_elements remaining' (S i) buffer padded_bytes_per_element indices
  end.

Definition generate_random_pointer_chasing `{StdShuffle} (env : environment)
    (buffer num_elements padded_bytes_per_element seed : Z) : M Z :=
  if (buffer =? nullptr) || (num_elements =? 0) then mret nullptr
  else if negb (buffer mod alignof_MemoryAddress =? 0) then
    throw AlignmentError
  else if negb (padded_bytes_per_element mod alignof_MemoryAddress =? 0) then
    throw StrideAlignmentError
  else if padded_bytes_per_element <? sizeof_MemoryAddress then
    throw StrideTooSmallError
  else
    indices ← detail.generate_random_permutation env num_elements seed;
    let last := Z.to_nat (wrap64 (num_elements - 1)) in
    link_elements last 0 buffer padded_bytes_per_element indices ;;
    let last_ptr :=
      detail.get_element_location buffer (indices !!! last)
                                  padded_bytes_per_element in
    let first_ptr :=
      detail.get_element_location buffer (indices !!! 0%nat)
                                  padded_bytes_per_element in
    store_ptr last_ptr first_ptr ;;
    mret first_ptr.

(** Following the chain: [p = *p], [steps] times (what the traversal
    kernel does with the entry address). *)
Fixpoint follow (m : Z → Z) (p : Z) (steps : nat) : Z :=
  match steps with
  | O => p
  | S steps' => follow m (load_ptr m p) steps'
  end.

(** ** The page size and the buffer *)

Module common.

Definition get_page_size (env : environment) : M Z :=
  let page_size := sysconf_SC_PAGESIZE env in
  if page_size <? 1 then
    throw (runtime_error "Failed to get the page size.")
  else mret (wrap64 page_size).

Definition get_hugepage_size (env : environment) : M Z :=
  match proc_meminfo env with
  | MeminfoNotOpened =>
      throw (runtime_error
               "Failed to open /proc/meminfo to get the hugepage size.")
  | MeminfoEntry value unit =>
      if String.eqb unit "kB" then mret (wrap64 (value * 1024))
      else if String.eqb unit "MB" then mret (wrap64 (value * (1024 * 1024)))
      else throw (runtime_error
                    ("Unknown unit for Hugepagesize in /proc/meminfo: "
                     ++ unit))
  | MeminfoNoEntry =>
      throw (runtime_error
               "Could not find 'Hugepagesize' entry in /proc/meminfo.")
  end.

(** Returns the address of the allocation; the [unique_ptr] that owns it
    is the scope of [run_benchmark] (see [with_buffer]). *)
Definition allocate_aligned_buffer (env : environment)
    (size_bytes alignment_bytes : Z) : M Z :=
  if (alignment_bytes =? 0)
     || negb (Z.land alignment_bytes (wrap64 (alignment_bytes - 1)) =? 0)
  then throw (invalid_argument "`alignment_bytes` must be a power of 2.")
  else if negb (alignment_bytes mod sizeof_MemoryAddress =? 0) then
    throw (invalid_argument
             ("`alignment_bytes` must be a multiple of "
              ++ to_string sizeof_MemoryAddress ++ "."))
  else
    let alignment_mask := wrap64 (Z.lnot (wrap64 (alignment_bytes - 1))) in
    let size :=
      Z.land (wrap64 (size_bytes + wrap64 (alignment_bytes - 1)))
             alignment_mask in
    let ptr := wrap64 (aligned_alloc env alignment_bytes size) in
    if ptr =? nullptr then throw bad_alloc
    else emit (EAlloc alignment_bytes size ptr) ;; mret ptr.

End common.

(** The lifetime of the [unique_ptr] returned by [allocate_aligned_buffer]:
    the buffer is freed when [run_benchmark] is left, by a [return] or by an
    exception. *)
Definition with_buffer {A : Type} (buffer : Z) (body : M A) : M A :=
  λ w,
    match body w with
    | (Ret a, w') => (Ret a, World (mem w') (reads w') (trace w' ++ [EFree buffer]))
    | (Throw e, w') => (Throw e, World (mem w') (reads w') (trace w' ++ [EFree buffer]))
    | (Undefined, w') => (Undefined, w')
    end.

(** ** The measurement harness *)

Definition CYCLES_EVENT : string := "CYCLES".
Definition TLB_MISS_EVENT : string := "DTLB-LOAD-MISSES".

Definition L1D_MISS_EVENT (env : environment) : string :=
  if znver2 env then
    "amd64_fam17h_zen2::DATA_CACHE_REFILLS_FROM_SYSTEM:MABRESP_LCL_L2:LS_MABRESP_LCL_CACHE:LS_MABRESP_LCL_DRAM:LS_MABRESP_RMT_CACHE:LS_MABRESP_RMT_DRAM"
  else "L1-DCACHE-LOAD-MISSES".

Definition L2_MISS_EVENT (env : environment) : string :=
  if znver2 env then
    "amd64_fam17h_zen2::DATA_CACHE_REFILLS_FROM_SYSTEM:LS_MABRESP_LCL_CACHE:LS_MABRESP_LCL_DRAM:LS_MABRESP_RMT_CACHE:LS_MABRESP_RMT_DRAM"
  else "LLC-LOAD-MISSES".

Definition L3_MISS_EVENT (env : environment) : string :=
  if znver2 env then
    "amd64_fam17h_zen2::DATA_CACHE_REFILLS_FROM_SYSTEM:LS_MABRESP_LCL_DRAM:LS_MABRESP_RMT_DRAM"
  else "LLC-LOAD-MISSES".

Definition NUM_LOGICAL_LOADS : Z := 1000000.
Definition NUM_TRIALS : Z := 10.
Definition NUM_WARMUPS : Z := 3.
Definition RAND_SEED : Z := 12345.

(** [perf_counter_read(&c)]: an unsigned 64-bit reading. *)
Definition perf_counter_read (env : environment) (c : counter) : M Z :=
  λ w,
    let value := wrap64 (perf_counter_read_value env (reads w) c) in
    (Ret value, World (mem w) (S (reads w)) (trace w ++ [ERead c value])).

(** The lambda [open_counter] of [run_benchmark]. *)
Definition open_counter (env : environment) (c : counter) (name : string)
    (group_fd : Z) : M perf_counter :=
  let handle := perf_counter_open_by_name env c name group_fd in
  emit (EOpen c name group_fd handle) ;;
  (if negb (is_valid handle) then
     emit (EStderr ("Error: Failed to open performance counter for event '"
                    ++ name ++ "'." ++ newline))
   else mret ()) ;;
  mret handle.

(** The lambda [close_counter] of [run_benchmark]. *)
Definition close_counter (c : counter) (handle : perf_counter) : M unit :=
  if is_valid handle then emit (EClose c) else mret ().

(** The [madvise] call of either branch, with its warning. *)
Definition advise_hugepage (env : environment) (buffer size : Z)
    (use_hugepage : bool) : M unit :=
  let status := madvise env buffer size use_hugepage in
  emit (EMadvise buffer size use_hugepage status) ;;
  if negb (status =? 0) then
    emit (EStderr ((if use_hugepage
                    then "Warning: madvise(MADV_HUGEPAGE) failed: "
                    else "Warning: madvise(MADV_NOHUGEPAGE) failed: ")
                   ++ strerror_errno env ++ newline))
  else mret ().

(** [print_csv_row(result)]: one record on the standard output. *)
Definition print_csv_row (result : BenchmarkResult) : M unit :=
  emit (ECsvRow result).

(** The body of the trial loop for the trial of index [i]. *)
Definition trial (env : environment) (start_ptr i : Z)
    (result : BenchmarkResult) : M BenchmarkResult :=
  start_l1d_misses ← perf_counter_read env l1d_miss_counter;
  start_l2_misses ← perf_counter_read env l2_miss_counter;
  start_l3_misses ← perf_counter_read env l3_miss_counter;
  start_tlb_misses ← perf_counter_read env tlb_miss_counter;
  start_cycles ← perf_counter_read env cycle_counter;
  emit (EKernel start_ptr) ;;
  end_cycles ← perf_counter_read env cycle_counter;
  end_tlb_misses ← perf_counter_read env tlb_miss_counter;
  end_l3_misses ← perf_counter_read env l3_miss_counter;
  end_l2_misses ← perf_counter_read env l2_miss_counter;
  end_l1d_misses ← perf_counter_read env l1d_miss_counter;
  let latency_cycles := wrap64 (end_cycles - start_cycles) in
  if (NUM_WARMUPS <=? i) && (latency_cycles <? cycle_count result) then
    mret (mkBenchmarkResult
            (buffer_size result) (padded_element_size result)
            (page_size result) (num_logical_loads result)
            latency_cycles
            (wrap64 (end_l1d_misses - start_l1d_misses))
            (wrap64 (end_l2_misses - start_l2_misses))
            (wrap64 (end_l3_misses - start_l3_misses))
            (wrap64 (end_tlb_misses - start_tlb_misses)))
  else mret result.

(** The loop [for (i = 0; i < NUM_WARMUPS + NUM_TRIALS; ++i)], from index
    [i] on, with [remaining] iterations left. *)
Fixpoint trials (env : environment) (remaining : nat) (start_ptr i : Z)
    (result : BenchmarkResult) : M BenchmarkResult :=
  match remaining with
  | O => mret result
  | S remaining' =>
      result' ← trial env start_ptr i result;
      trials env remaining' start_ptr (i + 1) result'
  end.

Definition run_benchmark `{StdShuffle} (env : environment)
    (buffer_size_in_bytes padded_bytes_per_element : Z) (use_hugepage : bool)
    : M unit :=
  if padded_bytes_per_element =? 0 then undefined
  else if negb (buffer_size_in_bytes mod padded_bytes_per_element =? 0) then
    emit (EStderr ("Error: `buffer_size_in_bytes` must be a multiple of `padded_bytes_per_element`"
                   ++ newline))
  else
    let num_elements := buffer_size_in_bytes / padded_bytes_per_element in
    page_size ← (if use_hugepage then common.get_hugepage_size env
                 else common.get_page_size env);
    buffer ← common.allocate_aligned_buffer env buffer_size_in_bytes page_size;
    with_buffer buffer (
      advise_hugepage env buffer buffer_size_in_bytes use_hugepage ;;
      start_ptr ← generate_random_pointer_chasing
                    env buffer num_elements padded_bytes_per_element RAND_SEED;
      cycle ← open_counter env cycle_counter CYCLES_EVENT (-1);
      if negb (is_valid cycle) then mret ()
      else
        let group_fd := fd cycle in
        l1d_miss ← open_counter env l1d_miss_counter (L1D_MISS_EVENT env) group_fd;
        l2_miss ← open_counter env l2_miss_counter (L2_MISS_EVENT env) group_fd;
        l3_miss ← open_counter env l3_miss_counter (L3_MISS_EVENT env) group_fd;
        tlb_miss ← open_counter env tlb_miss_counter TLB_MISS_EVENT group_fd;
        if negb (is_valid l1d_miss) || negb (is_valid l2_miss)
           || negb (is_valid l3_miss) || negb (is_valid tlb_miss)
        then
          close_counter l1d_miss_counter l1d_miss ;;
          close_counter l2_miss_counter l2_miss ;;
          close_counter l3_miss_counter l3_miss ;;
          close_counter tlb_miss_counter tlb_miss ;;
          close_counter cycle_counter cycle
        else
          emit (EEnable cycle_counter) ;;
          result ← trials env (Z.to_nat (NUM_WARMUPS + NUM_TRIALS)) start_ptr 0
                     (mkBenchmarkResult buffer_size_in_bytes
                        padded_bytes_per_element page_size NUM_LOGICAL_LOADS
                        UINT64_MAX 0 0 0 0);
          emit (EDisable cycle_counter) ;;
          emit (EClose tlb_miss_counter) ;;
          emit (EClose l3_miss_counter) ;;
          emit (EClose l2_miss_counter) ;;
          emit (EClose l1d_miss_counter) ;;
          emit (EClose cycle_counter) ;;
          print_csv_row result).

(** ** Notions that the properties are stated with *)

(** The address of the slot of index [index], as the specification writes
    it: [buffer + index * padded_bytes_per_element]. *)
Definition slot (buffer padded_bytes_per_element index : Z) : Z :=
  buffer + index * padded_bytes_per_element.

(** The index of the slot that starts at address [p]. *)
Definition slot_index (buffer padded_bytes_per_element p : Z) : Z :=
  (p - buffer) / padded_bytes_per_element.

(** Arguments that meet the contract of the chain builder: a non-null,
    pointer-aligned buffer, at least one element, a stride that is a
    multiple of the pointer alignment and at least the pointer width; the
    buffer is a region of memory, so its [num_elements] slots lie inside
    the 64-bit address space. *)
Definition valid_chain_arguments
    (buffer num_elements padded_bytes_per_element : Z) : Prop :=
  0 < buffer
  ∧ buffer mod alignof_MemoryAddress = 0
  ∧ 1 ≤ num_elements
  ∧ padded_bytes_per_element mod alignof_MemoryAddress = 0
  ∧ sizeof_MemoryAddress ≤ padded_bytes_per_element
  ∧ buffer + num_elements * padded_bytes_per_element ≤ 2 ^ 64.

(** The stores of a chain over the slot addresses [slots]: each slot
    receives the address of its successor, the last one that of the first. *)
Definition chain_links (slots : list Z) : list (Z * Z) :=
  (λ k, (slots !!! k, slots !!! ((k + 1) mod length slots)%nat))
    <$> seq 0 (length slots).

(** Memory after a list of pointer stores, done from left to right. *)
Definition apply_stores (stores : list (Z * Z)) (m : Z → Z) : Z → Z :=
  fold_left (λ m s, store_bytes (Z.to_nat sizeof_MemoryAddress) s.1 s.2 m)
            stores m.

(** Two pointer-sized fields that do not overlap. *)
Definition apart (a a' : Z) : Prop :=
  a' + sizeof_MemoryAddress ≤ a ∨ a + sizeof_MemoryAddress ≤ a'.

(** The stores of [generate_random_pointer_chasing] when it builds a chain,
    in program order: those of the loop, then the one that closes the
    cycle. *)
Definition loop_stores (remaining i : nat)
    (buffer padded_bytes_per_element : Z) (indices : list Z) : list (Z * Z) :=
  (λ k, (detail.get_element_location buffer (indices !!! k)
                                     padded_bytes_per_element,
         detail.get_element_location buffer (indices !!! (k + 1)%nat)
                                     padded_bytes_per_element))
    <$> seq i remaining.

(** The vector that [generate_random_permutation] returns when it
    returns: the indices [0, ..., num_elements - 1], shuffled with the
    engine that is seeded with [seed]. *)
Definition shuffled_indices `{StdShuffle} (num_elements seed : Z) : list Z :=
  (shuffle (seqZ 0 num_elements) (mt19937_64.seed seed)).1.

Definition builder_stores `{StdShuffle}
    (buffer num_elements padded_bytes_per_element seed : Z) : list (Z * Z) :=
  let indices := shuffled_indices num_elements seed in
  let last := Z.to_nat (wrap64 (num_elements - 1)) in
  loop_stores last 0 buffer padded_bytes_per_element indices
  ++ [(detail.get_element_location buffer (indices !!! last)
                                   padded_bytes_per_element,
       detail.get_element_location buffer (indices !!! 0%nat)
                                   padded_bytes_per_element)].

(** The world after a list of stores. *)
Definition after_stores (stores : list (Z * Z)) (w : world) : world :=
  World (apply_stores stores (mem w)) (reads w)
        (trace w ++ ((λ s, EWrite s.1 s.2) <$> stores)).

(** A world to run examples in: zeroed memory, nothing read, no events. *)
Definition empty_world : world := World (λ _, 0) 0 [].

(** The world with further events in its trace. *)
Definition record (events : list event) (w : world) : world :=
  World (mem w) (reads w) (trace w ++ events).

(** The events that the call of [run_benchmark] from world [w] to world
    [w'] added to the trace. *)
Definition new_events (w w' : world) : list event :=
  drop (length (trace w)) (trace w').

(** The [k]-th reading (from 0) of a trial that begins when [first] reads
    have been done. *)
Definition reading (env : environment) (first k : nat) (c : counter) : Z :=
  wrap64 (perf_counter_read_value env (k + first) c).

(** End minus start of each counter over that trial, in the order in which
    [trial] reads them: the misses (L1D, L2, L3, TLB) and the cycles before
    the traversal, the cycles and the misses (TLB, L3, L2, L1D) after. *)
Definition elapsed_cycles (env : environment) (first : nat) : Z :=
  wrap64 (reading env first 5 cycle_counter - reading env first 4 cycle_counter).
Definition l1d_misses (env : environment) (first : nat) : Z :=
  wrap64 (reading env first 9 l1d_miss_counter
          - reading env first 0 l1d_miss_counter).
Definition l2_misses (env : environment) (first : nat) : Z :=
  wrap64 (reading env first 8 l2_miss_counter
          - reading env first 1 l2_miss_counter).
Definition l3_misses (env : environment) (first : nat) : Z :=
  wrap64 (reading env first 7 l3_miss_counter
          - reading env first 2 l3_miss_counter).
Definition tlb_misses (env : environment) (first : nat) : Z :=
  wrap64 (reading env first 6 tlb_miss_counter
          - reading env first 3 tlb_miss_counter).

(** The number of reads done when trial [i] of a loop begins that began
    after [first] reads: every trial reads ten times. *)
Definition trial_start (first i : nat) : nat := (10 * i + first)%nat.

(** The events of the trial that begins after [first] reads. *)
Definition trial_events (env : environment) (first : nat) (start_ptr : Z)
    : list event :=
  [ERead l1d_miss_counter (reading env first 0 l1d_miss_counter);
   ERead l2_miss_counter (reading env first 1 l2_miss_counter);
   ERead l3_miss_counter (reading env first 2 l3_miss_counter);
   ERead tlb_miss_counter (reading env first 3 tlb_miss_counter);
   ERead cycle_counter (reading env first 4 cycle_counter);
   EKernel start_ptr;
   ERead cycle_counter (reading env first 5 cycle_counter);
   ERead tlb_miss_counter (reading env first 6 tlb_miss_counter);
   ERead l3_miss_counter (reading env first 7 l3_miss_counter);
   ERead l2_miss_counter (reading env first 8 l2_miss_counter);
   ERead l1d_miss_counter (reading env first 9 l1d_miss_counter)].

(** What the trial of index [i] that begins after [first] reads leaves in
    the result. *)
Definition retain (env : environment) (first : nat) (i : Z)
    (result : BenchmarkResult) : BenchmarkResult :=
  if (NUM_WARMUPS <=? i) && (elapsed_cycles env first <? cycle_count result)
  then mkBenchmarkResult
         (buffer_size result) (padded_element_size result)
         (page_size result) (num_logical_loads result)
         (elapsed_cycles env first) (l1d_misses env first)
         (l2_misses env first) (l3_misses env first) (tlb_misses env first)
  else result.

(** The result after the trials of the given indices, in order. *)
Definition retained (env : environment) (first : nat) (trial_indices : list nat)
    (result : BenchmarkResult) : BenchmarkResult :=
  fold_left (λ r i, retain env (trial_start first i) (Z.of_nat i) r)
            trial_indices result.

(** The result that [run_benchmark] starts the trials with. *)
Definition initial_result (buffer_size_in_bytes padded_bytes_per_element
    page_size : Z) : BenchmarkResult :=
  mkBenchmarkResult buffer_size_in_bytes padded_bytes_per_element page_size
                    NUM_LOGICAL_LOADS UINT64_MAX 0 0 0 0.

(** The indices of the measured trials: 3, ..., 12. *)
Definition measured_trials : list nat :=
  seq (Z.to_nat NUM_WARMUPS) (Z.to_nat NUM_TRIALS).

(** The four miss counts of a result are those of the trial that begins
    after [first] reads. *)
Definition misses_of_trial (env : environment) (first : nat)
    (result : BenchmarkResult) : Prop :=
  l1d_miss_count result = l1d_misses env first
  ∧ l2_miss_count result = l2_misses env first
  ∧ l3_miss_count result = l3_misses env first
  ∧ tlb_miss_count result = tlb_misses env first.

(** Modelled from the spec: [perf_counter.h] is not among the sources; the
    specification gives the read as [read(handle) -> monotonic_u64].  The
    unsigned 64-bit readings of counter [c] never decrease from one read to
    a later one. *)
Definition monotonic_readings (env : environment) (c : counter) : Prop :=
  ∀ k k' : nat, (k ≤ k')%nat → reading env 0 k c ≤ reading env 0 k' c.

(** The handles that the five calls of [open_counter] in [run_benchmark]
    get from the environment. *)
Definition cycle_handle (env : environment) : perf_counter :=
  perf_counter_open_by_name env cycle_counter CYCLES_EVENT (-1).

Definition follower_name (env : environment) (c : counter) : string :=
  match c with
  | cycle_counter => CYCLES_EVENT
  | l1d_miss_counter => L1D_MISS_EVENT env
  | l2_miss_counter => L2_MISS_EVENT env
  | l3_miss_counter => L3_MISS_EVENT env
  | tlb_miss_counter => TLB_MISS_EVENT
  end.

Definition follower_handle (env : environment) (c : counter) : perf_counter :=
  perf_counter_open_by_name env c (follower_name env c) (fd (cycle_handle env)).

(** The events of [open_counter] and of [close_counter]. *)
Definition open_events (env : environment) (c : counter) (name : string)
    (group_fd : Z) : list event :=
  let handle := perf_counter_open_by_name env c name group_fd in
  EOpen c name group_fd handle
  :: (if is_valid handle then []
      else [EStderr ("Error: Failed to open performance counter for event '"
                     ++ name ++ "'." ++ newline)]).

Definition close_events (c : counter) (handle : perf_counter) : list event :=
  if is_valid handle then [EClose c] else [].

Definition follower_open_events (env : environment) : list event :=
  open_events env l1d_miss_counter (L1D_MISS_EVENT env) (fd (cycle_handle env))
  ++ open_events env l2_miss_counter (L2_MISS_EVENT env) (fd (cycle_handle env))
  ++ open_events env l3_miss_counter (L3_MISS_EVENT env) (fd (cycle_handle env))
  ++ open_events env tlb_miss_counter TLB_MISS_EVENT (fd (cycle_handle env)).

Definition failure_close_events (env : environment) : list event :=
  close_events l1d_miss_counter (follower_handle env l1d_miss_counter)
  ++ close_events l2_miss_counter (follower_handle env l2_miss_counter)
  ++ close_events l3_miss_counter (follower_handle env l3_miss_counter)
  ++ close_events tlb_miss_counter (follower_handle env tlb_miss_counter)
  ++ close_events cycle_counter (cycle_handle env).

Definition followers_valid (env : environment) : bool :=
  is_valid (follower_handle env l1d_miss_counter)
  && is_valid (follower_handle env l2_miss_counter)
  && is_valid (follower_handle env l3_miss_counter)
  && is_valid (follower_handle env tlb_miss_counter).

(** Events that concern the buffer and the diagnostic stream. *)
Definition is_buffer_event (e : event) : Prop :=
  match e with
  | EAlloc _ _ _ | EFree _ | EMadvise _ _ _ _ | EStderr _ | EWrite _ _ => True
  | _ => False
  end.

(** Events of the trial loop. *)
Definition is_trial_event (e : event) : Prop :=
  match e with
  | ERead _ _ | EKernel _ => True
  | _ => False
  end.

(** The ways in which a call of [run_benchmark] can go, by the events that
    it adds to the trace: it ends before a counter is opened; the leader
    does not open; a follower does not open; the measurement is made. *)
Inductive run_shape (env : environment) (first : nat)
    (buffer_size_in_bytes padded_bytes_per_element : Z)
    : outcome unit → list event → Prop :=
  | shape_no_counter out events :
      Forall is_buffer_event events →
      run_shape env first buffer_size_in_bytes padded_bytes_per_element
                out events
  | shape_leader_failed setup buffer :
      Forall is_buffer_event setup →
      is_valid (cycle_handle env) = false →
      run_shape env first buffer_size_in_bytes padded_bytes_per_element
        (Ret ())
        (setup ++ open_events env cycle_counter CYCLES_EVENT (-1)
         ++ [EFree buffer])
  | shape_follower_failed setup buffer :
      Forall is_buffer_event setup →
      is_valid (cycle_handle env) = true →
      followers_valid env = false →
      run_shape env first buffer_size_in_bytes padded_bytes_per_element
        (Ret ())
        (setup ++ open_events env cycle_counter CYCLES_EVENT (-1)
         ++ follower_open_events env ++ failure_close_events env
         ++ [EFree buffer])
  | shape_measured setup buffer page_size trial_events :
      Forall is_buffer_event setup →
      is_valid (cycle_handle env) = true →
      followers_valid env = true →
      Forall is_trial_event trial_events →
      run_shape env first buffer_size_in_bytes padded_bytes_per_element
        (Ret ())
        (setup ++ open_events env cycle_counter CYCLES_EVENT (-1)
         ++ follower_open_events env ++ [EEnable cycle_counter]
         ++ trial_events
         ++ [EDisable cycle_counter; EClose tlb_miss_counter;
             EClose l3_miss_counter; EClose l2_miss_counter;
             EClose l1d_miss_counter; EClose cycle_counter;
             ECsvRow (retained env first measured_trials
                        (initial_result buffer_size_in_bytes
                           padded_bytes_per_element page_size));
             EFree buffer]).

(** Events of opening and closing counters, with their diagnostics. *)
Definition is_counter_event (e : event) : Prop :=
  match e with
  | EOpen _ _ _ _ | EClose _ | EStderr _ => True
  | _ => False
  end.

(** The handle that [run_benchmark] gets for each counter. *)
Definition opened_handle (env : environment) (c : counter) : perf_counter :=
  match c with
  | cycle_counter => cycle_handle env
  | _ => follower_handle env c
  end.

(** An environment for examples: 4 KiB pages, 2 MiB huge pages, a buffer
    at 65536, every counter opens, the miss counters count the reads, and
    the cycle counter advances by 1000 per read and, over the traversal of
    trial [i], by the [i]-th entry of the table besides. *)
Definition example_cycles (k : nat) : Z :=
  Z.of_nat k * 1000
  + (if (5 <=? k mod 10)%nat
     then nth (k / 10) [90; 80; 70; 50; 30; 45; 28; 60; 55; 40; 35; 61; 52] 0
     else 0).

Definition example_environment : environment :=
  Environment false 4096 (MeminfoEntry 2048 "kB")
    (λ _ _, 65536) (λ _ _ _, 0) "Invalid argument"
    (λ c _ _, PerfCounter (3 + match c with
                               | cycle_counter => 0
                               | l1d_miss_counter => 1
                               | l2_miss_counter => 2
                               | l3_miss_counter => 3
                               | tlb_miss_counter => 4
                               end) true)
    (λ k c, Z.min UINT64_MAX
              match c with
              | cycle_counter => example_cycles k
              | _ => Z.of_nat k
              end)
    (λ _, true).

(** The same environment, but the event of the L2 misses does not open. *)
Definition example_environment_without_l2 : environment :=
  Environment false 4096 (MeminfoEntry 2048 "kB")
    (λ _ _, 65536) (λ _ _ _, 0) "Invalid argument"
    (λ c _ _, PerfCounter 3 match c with
                            | l2_miss_counter => false
                            | _ => true
                            end)
    (perf_counter_read_value example_environment)
    (λ _, true).

(** The same environment, but [::operator new] serves no request. *)
Definition example_environment_without_heap : environment :=
  Environment false 4096 (MeminfoEntry 2048 "kB")
    (λ _ _, 65536) (λ _ _ _, 0) "Invalid argument"
    (perf_counter_open_by_name example_environment)
    (perf_counter_read_value example_environment)
    (λ _, false).

(** The same environment, but [aligned_alloc] returns a null pointer. *)
Definition example_environment_without_buffer : environment :=
  Environment false 4096 (MeminfoEntry 2048 "kB")
    (λ _ _, nullptr) (λ _ _ _, 0) "Invalid argument"
    (perf_counter_open_by_name example_environment)
    (perf_counter_read_value example_environment)
    (λ _, true).

(** The environments of a run of [main] that makes one measurement: the
    first call of [run_benchmark] runs in the example environment, and
    from the second call on no buffer can be allocated. *)
Definition example_sweep (call : nat) : environment :=
  match call with
  | O => example_environment
  | S _ => example_environment_without_buffer
  end.

(** The row of [run_benchmark] for a buffer of 1024 bytes in slots of 64
    bytes, without huge pages, in the example environment. *)
Definition example_result : BenchmarkResult :=
  mkBenchmarkResult 1024 64 4096 1000000 1028 9 7 5 3.

(** ** Notions for the further properties of the harness *)

(** The page size that [run_benchmark] works with. *)
Definition resolve_page_size (env : environment) (use_hugepage : bool) : M Z :=
  if use_hugepage then common.get_hugepage_size env
  else common.get_page_size env.

(** The events of the [madvise] call with its warning. *)
Definition advise_events (env : environment) (buffer size : Z)
    (use_hugepage : bool) : list event :=
  EMadvise buffer size use_hugepage (madvise env buffer size use_hugepage)
  :: (if negb (madvise env buffer size use_hugepage =? 0) then
        [EStderr ((if use_hugepage
                   then "Warning: madvise(MADV_HUGEPAGE) failed: "
                   else "Warning: madvise(MADV_NOHUGEPAGE) failed: ")
                  ++ strerror_errno env ++ newline)]
      else []).

(** The events of the trials of the given indices of a loop that begins
    after [first] reads. *)
Definition trials_events (env : environment) (first : nat) (start_ptr : Z)
    (trial_indices : list nat) : list event :=
  concat ((λ i, trial_events env (trial_start first i) start_ptr)
            <$> trial_indices).

(** The events of the five calls of [open_counter]. *)
Definition all_open_events (env : environment) : list event :=
  open_events env cycle_counter CYCLES_EVENT (-1) ++ follower_open_events env.

(** The events with which a measurement ends. *)
Definition closing_events (result : BenchmarkResult) (buffer : Z)
    : list event :=
  [EDisable cycle_counter; EClose tlb_miss_counter; EClose l3_miss_counter;
   EClose l2_miss_counter; EClose l1d_miss_counter; EClose cycle_counter;
   ECsvRow result; EFree buffer].

(** Every way in which a call of [run_benchmark] from the world [w] can
    go, with the outcome and all the events that it adds. *)
Inductive run_detail `{StdShuffle} (env : environment) (w : world)
    (buffer_size_in_bytes padded_bytes_per_element : Z) (use_hugepage : bool)
    : outcome unit → list event → Prop :=
  | detail_division_by_zero :
      padded_bytes_per_element = 0 →
      run_detail env w buffer_size_in_bytes padded_bytes_per_element
                 use_hugepage Undefined []
  | detail_not_a_multiple :
      padded_bytes_per_element ≠ 0 →
      buffer_size_in_bytes mod padded_bytes_per_element ≠ 0 →
      run_detail env w buffer_size_in_bytes padded_bytes_per_element
        use_hugepage (Ret ())
        [EStderr ("Error: `buffer_size_in_bytes` must be a multiple of `padded_bytes_per_element`"
                  ++ newline)]
  | detail_query_failed e :
      padded_bytes_per_element ≠ 0 →
      buffer_size_in_bytes mod padded_bytes_per_element = 0 →
      resolve_page_size env use_hugepage w = (Throw e, w) →
      run_detail env w buffer_size_in_bytes padded_bytes_per_element
                 use_hugepage (Throw e) []
  | detail_allocation_failed page_size e :
      padded_bytes_per_element ≠ 0 →
      buffer_size_in_bytes mod padded_bytes_per_element = 0 →
      resolve_page_size env use_hugepage w = (Ret page_size, w) →
      common.allocate_aligned_buffer env buffer_size_in_bytes page_size w
      = (Throw e, w) →
      run_detail env w buffer_size_in_bytes padded_bytes_per_element
                 use_hugepage (Throw e) []
  | detail_builder_failed page_size buffer alignment size e :
      padded_bytes_per_element ≠ 0 →
      buffer_size_in_bytes mod padded_bytes_per_element = 0 →
      resolve_page_size env use_hugepage w = (Ret page_size, w) →
      common.allocate_aligned_buffer env buffer_size_in_bytes page_size w
      = (Ret buffer, record [EAlloc alignment size buffer] w) →
      (∀ w1, generate_random_pointer_chasing env buffer
               (buffer_size_in_bytes / padded_bytes_per_element)
               padded_bytes_per_element RAND_SEED w1 = (Throw e, w1)) →
      run_detail env w buffer_size_in_bytes padded_bytes_per_element
        use_hugepage (Throw e)
        ([EAlloc alignment size buffer]
         ++ advise_events env buffer buffer_size_in_bytes use_hugepage
         ++ [EFree buffer])
  | detail_builder_undefined page_size buffer alignment size :
      padded_bytes_per_element ≠ 0 →
      buffer_size_in_bytes mod padded_bytes_per_element = 0 →
      resolve_page_size env use_hugepage w = (Ret page_size, w) →
      common.allocate_aligned_buffer env buffer_size_in_bytes page_size w
      = (Ret buffer, record [EAlloc alignment size buffer] w) →
      2 ^ 31 ≤ buffer_size_in_bytes / padded_bytes_per_element →
      (∀ w1, generate_random_pointer_chasing env buffer
               (buffer_size_in_bytes / padded_bytes_per_element)
               padded_bytes_per_element RAND_SEED w1 = (Undefined, w1)) →
      run_detail env w buffer_size_in_bytes padded_bytes_per_element
        use_hugepage Undefined
        ([EAlloc alignment size buffer]
         ++ advise_events env buffer buffer_size_in_bytes use_hugepage)
  | detail_leader_failed page_size buffer alignment size start_ptr stores :
      padded_bytes_per_element ≠ 0 →
      buffer_size_in_bytes mod padded_bytes_per_element = 0 →
      resolve_page_size env use_hugepage w = (Ret page_size, w) →
      common.allocate_aligned_buffer env buffer_size_in_bytes page_size w
      = (Ret buffer, record [EAlloc alignment size buffer] w) →
      (∀ w1, generate_random_pointer_chasing env buffer
               (buffer_size_in_bytes / padded_bytes_per_element)
               padded_bytes_per_element RAND_SEED w1
             = (Ret start_ptr, after_stores stores w1)) →
      is_valid (cycle_handle env) = false →
      run_detail env w buffer_size_in_bytes padded_bytes_per_element
        use_hugepage (Ret ())
        ([EAlloc alignment size buffer]
         ++ advise_events env buffer buffer_size_in_bytes use_hugepage
         ++ ((λ s, EWrite s.1 s.2) <$> stores)
         ++ open_events env cycle_counter CYCLES_EVENT (-1)
         ++ [EFree buffer])
  | detail_follower_failed page_size buffer alignment size start_ptr stores :
      padded_bytes_per_element ≠ 0 →
      buffer_size_in_bytes mod padded_bytes_per_element = 0 →
      resolve_page_size env use_hugepage w = (Ret page_size, w) →
      common.allocate_aligned_buffer env buffer_size_in_bytes page_size w
      = (Ret buffer, record [EAlloc alignment size buffer] w) →
      (∀ w1, generate_random_pointer_chasing env buffer
               (buffer_size_in_bytes / padded_bytes_per_element)
               padded_bytes_per_element RAND_SEED w1
             = (Ret start_ptr, after_stores stores w1)) →
      is_valid (cycle_handle env) = true →
      followers_valid env = false →
      run_detail env w buffer_size_in_bytes padded_bytes_per_element
        use_hugepage (Ret ())
        ([EAlloc alignment size buffer]
         ++ advise_events env buffer buffer_size_in_bytes use_hugepage
         ++ ((λ s, EWrite s.1 s.2) <$> stores)
         ++ all_open_events env ++ failure_close_events env
         ++ [EFree buffer])
  | detail_measured page_size buffer alignment size start_ptr stores :
      padded_bytes_per_element ≠ 0 →
      buffer_size_in_bytes mod padded_bytes_per_element = 0 →
      resolve_page_size env use_hugepage w = (Ret page_size, w) →
      common.allocate_aligned_buffer env buffer_size_in_bytes page_size w
      = (Ret buffer, record [EAlloc alignment size buffer] w) →
      (∀ w1, generate_random_pointer_chasing env buffer
               (buffer_size_in_bytes / padded_bytes_per_element)
               padded_bytes_per_element RAND_SEED w1
             = (Ret start_ptr, after_stores stores w1)) →
      is_valid (cycle_handle env) = true →
      followers_valid env = true →
      run_detail env w buffer_size_in_bytes padded_bytes_per_element
        use_hugepage (Ret ())
        ([EAlloc alignment size buffer]
         ++ advise_events env buffer buffer_size_in_bytes use_hugepage
         ++ ((λ s, EWrite s.1 s.2) <$> stores)
         ++ all_open_events env ++ [EEnable cycle_counter]
         ++ trials_events env (reads w) start_ptr
              (seq 0 (Z.to_nat (NUM_WARMUPS + NUM_TRIALS)))
         ++ closing_events
              (retained env (reads w) measured_trials
                 (initial_result buffer_size_in_bytes
                    padded_bytes_per_element page_size))
              buffer).

(** Events other than the allocation and the release of the buffer. *)
Definition is_inner_event (e : event) : Prop :=
  match e with
  | EAlloc _ _ _ | EFree _ => False
  | _ => True
  end.

(** Events other than counter reads and runs of the traversal. *)
Definition is_untimed_event (e : event) : Prop :=
  match e with
  | ERead _ _ | EKernel _ => False
  | _ => True
  end.

(** Events other than the one of [print_csv_row]. *)
Definition is_no_row (e : event) : Prop :=
  match e with
  | ECsvRow _ => False
  | _ => True
  end.

(** Events other than opening a counter. *)
Definition is_no_open (e : event) : Prop :=
  match e with
  | EOpen _ _ _ _ => False
  | _ => True
  end.

(** ** The entry point *)

(** [common::get_cache_line_bytes], given what
    [sysconf(_SC_LEVEL1_DCACHE_LINESIZE)] returns. *)
Definition get_cache_line_bytes (sysconf_SC_LEVEL1_DCACHE_LINESIZE : Z) : M Z :=
  let cache_line_bytes := sysconf_SC_LEVEL1_DCACHE_LINESIZE in
  if cache_line_bytes <? 1 then
    throw (runtime_error "Failed to get the cache line size.")
  else mret (wrap64 cache_line_bytes).

(** Modelled from the spec: [common::KiB] and [common::GiB] are not among
    the sources; the sweep is "from 16 KiB to 1 GiB (doubling)".  They are
    taken to be of type [std::size_t], the type of the sizes that
    [run_benchmark] receives, so that the variable [size] of the loop is
    an unsigned 64-bit integer. *)
Definition KiB : Z := 1024.
Definition GiB : Z := 1024 * 1024 * 1024.

(** [e.what()]. *)
Definition what (e : exn) : string :=
  match e with
  | invalid_argument message => message
  | runtime_error message => message
  | length_error message => message
  | bad_alloc => "std::bad_alloc"
  end.

(** The text of [print_csv_header]. *)
Definition csv_header : string :=
  "BufferSize,PaddedElementSize,PageSize,NumLogicalLoads,Cycles,L1DMisses,L2Misses,L3Misses,TLBMisses"
  ++ newline.

(** The text that [print_csv_row] writes for a result (all fields are
    unsigned but [num_logical_loads], which [run_benchmark] sets to a
    positive constant). *)
Definition csv_row (result : BenchmarkResult) : string :=
  to_string (buffer_size result) ++ "," ++
  to_string (padded_element_size result) ++ "," ++
  to_string (page_size result) ++ "," ++
  to_string (num_logical_loads result) ++ "," ++
  to_string (cycle_count result) ++ "," ++
  to_string (l1d_miss_count result) ++ "," ++
  to_string (l2_miss_count result) ++ "," ++
  to_string (l3_miss_count result) ++ "," ++
  to_string (tlb_miss_count result) ++ newline.

(** The three calls of [run_benchmark] in the body of the loop of [main].
    The answers of the operating system may change from call to call:
    the call of number [call] runs in the environment [env_at call]. *)
Definition sweep_body `{StdShuffle} (env_at : nat → environment) (call : nat)
    (size cache_line_bytes page_size : Z) : M unit :=
  run_benchmark (env_at call) size cache_line_bytes true ;;
  run_benchmark (env_at (call + 1)%nat) size page_size true ;;
  run_benchmark (env_at (call + 2)%nat) size page_size false.

(** The loop [for (size = 16 * KiB; size <= 1 * GiB; size *= 2)] from the
    current [size] on; [None] when the fuel does not suffice. *)
Fixpoint sweep `{StdShuffle} (fuel : nat) (env_at : nat → environment)
    (call : nat) (size cache_line_bytes page_size : Z) (w : world)
    : option (outcome unit * world) :=
  match fuel with
  | O => None
  | S fuel' =>
      if size <=? 1 * GiB then
        match sweep_body env_at call size cache_line_bytes page_size w with
        | (Ret _, w') =>
            sweep fuel' env_at (call + 3) (wrap64 (size * 2))
                  cache_line_bytes page_size w'
        | (Throw e, w') => Some (Throw e, w')
        | (Undefined, w') => Some (Undefined, w')
        end
      else Some (Ret (), w)
  end.

(** The [try] block of [main]. *)
Definition main_try `{StdShuffle} (fuel : nat)
    (sysconf_SC_LEVEL1_DCACHE_LINESIZE : Z) (startup : environment)
    (env_at : nat → environment) (w : world)
    : option (outcome unit * world) :=
  match get_cache_line_bytes sysconf_SC_LEVEL1_DCACHE_LINESIZE w with
  | (Ret cache_line_bytes, w1) =>
      match common.get_page_size startup w1 with
      | (Ret page_size, w2) =>
          sweep fuel env_at 0 (wrap64 (16 * KiB)) cache_line_bytes page_size w2
      | (Throw e, w2) => Some (Throw e, w2)
      | (Undefined, w2) => Some (Undefined, w2)
      end
  | (Throw e, w1) => Some (Throw e, w1)
  | (Undefined, w1) => Some (Undefined, w1)
  end.

(** [main]: the header that it prints first on the standard output, and
    then its exit status and the world that it leaves.  The two queries of
    [main] are answered by [sysconf_SC_LEVEL1_DCACHE_LINESIZE] and by the
    environment [startup]. *)
Definition main `{StdShuffle} (fuel : nat)
    (sysconf_SC_LEVEL1_DCACHE_LINESIZE : Z) (startup : environment)
    (env_at : nat → environment) (w : world)
    : string * option (outcome Z * world) :=
  (csv_header,
   match main_try fuel sysconf_SC_LEVEL1_DCACHE_LINESIZE startup env_at w with
   | None => None
   | Some (Ret _, w') => Some (Ret 0, w')
   | Some (Throw e, w') =>
       Some (Ret 1, record [EStderr ("Error: " ++ what e ++ newline)] w')
   | Some (Undefined, w') => Some (Undefined, w')
   end).

(** The discipline of the buffers in a trace: [held] is the buffer that is
    allocated and not yet freed, if any.  The result is the buffer held
    at the end, or [None] when a buffer is allocated while another is
    held, or one is freed that is not held. *)
Fixpoint buffers_held (held : option Z) (events : list event)
    : option (option Z) :=
  match events with
  | [] => Some held
  | EAlloc _ _ buffer :: rest =>
      match held with
      | None => buffers_held (Some buffer) rest
      | Some _ => None
      end
  | EFree buffer :: rest =>
      match held with
      | Some held_buffer =>
          if buffer =? held_buffer then buffers_held None rest else None
      | None => None
      end
  | _ :: rest => buffers_held held rest
  end.

(** A value that a C [long] can hold. *)
Definition is_long (x : Z) : Prop := - 2 ^ 63 ≤ x < 2 ^ 63.

(** The loop from [size] on ends within [fuel] iterations, and its
    behaviour is defined. *)
Definition sweep_ends `{StdShuffle} (env_at : nat → environment)
    (cache_line_bytes page_size size : Z) (fuel : nat) : Prop :=
  ∀ call w, ∃ out w',
    sweep fuel env_at call size cache_line_bytes page_size w = Some (out, w')
    ∧ out ≠ Undefined.

(** The comma (the character of code 44) and the number of occurrences of
    a character in a text. *)
Definition comma : Ascii.ascii := Ascii.ascii_of_nat 44.

Fixpoint count_char (c : Ascii.ascii) (s : string) : nat :=
  match s with
  | EmptyString => 0%nat
  | String c' rest =>
      ((if Ascii.eqb c c' then 1 else 0) + count_char c rest)%nat
  end.

(** An environment whose cycle counter runs backwards over the traversal:
    it reads 1 at the start of the traversal and 0 after it, so that every
    trial takes [0 - 1 = UINT64_MAX] cycles in 64-bit arithmetic; the miss
    counters count their reads. *)
Definition example_environment_backwards : environment :=
  Environment false 4096 (MeminfoEntry 2048 "kB")
    (λ _ _, 65536) (λ _ _ _, 0) "Invalid argument"
    (perf_counter_open_by_name example_environment)
    (λ k c, match c with
            | cycle_counter => if (k mod 10 =? 4)%nat then 1 else 0
            | _ => Z.of_nat k
            end)
    (λ _, true).

(** * Properties *)

(** ** The standard-library model *)

(** The engine is the one the standard describes: "the 10000th consecutive
    invocation of a default-constructed object of type [mt19937_64]
    produces the value 9981545732273789042" (the default seed is 5489). *)
Example mt19937_64_first_output :
  (mt19937_64.next (mt19937_64.seed 5489)).1 = 14514284786278117030.
Proof. vm_compute. reflexivity. Qed.

Example mt19937_64_10000th_output :
  (mt19937_64.next
     (mt19937_64.discard (Z.to_nat 9999) (mt19937_64.seed 5489))).1
  = 9981545732273789042.
Proof. vm_compute. reflexivity. Qed.

Lemma iter_swap_permutes (v : list Z) (i j : nat) : iter_swap v i j ≡ₚ v.
Proof.
  unfold iter_swap.
  destruct (v !! i) as [x|] eqn:Hi; [|reflexivity].
  destruct (v !! j) as [y|] eqn:Hj; [|reflexivity].
  by apply Permutation_insert_swap.
Qed.

Lemma shuffle_pairs_permutes (pairs i : nat) (v : list Z)
    (g : mt19937_64.engine) :
  (libstdcxx.shuffle_pairs pairs i v g).1 ≡ₚ v.
Proof.
  revert i v g. induction pairs as [|pairs IH]; intros i v g.
  - reflexivity.
  - cbn [libstdcxx.shuffle_pairs].
    destruct (libstdcxx.gen_two_uniform_ints _ _ g) as [[pos1 pos2] g'].
    by rewrite IH, !iter_swap_permutes.
Qed.

Lemma shuffle_singles_permutes (remaining i : nat) (v : list Z)
    (g : mt19937_64.engine) :
  (libstdcxx.shuffle_singles remaining i v g).1 ≡ₚ v.
Proof.
  revert i v g. induction remaining as [|remaining IH]; intros i v g.
  - reflexivity.
  - cbn [libstdcxx.shuffle_singles].
    destruct (libstdcxx.uniform_int g 0 (Z.of_nat i)) as [pos g'].
    by rewrite IH, iter_swap_permutes.
Qed.

Lemma libstdcxx_shuffle_permutes (v : list Z) (g : mt19937_64.engine) :
  (libstdcxx.shuffle v g).1 ≡ₚ v.
Proof.
  unfold libstdcxx.shuffle. destruct v as [|x v]; [reflexivity|].
  destruct (_ <=? _); [|apply shuffle_singles_permutes].
  destruct (_ mod 2 =? 0).
  - destruct (libstdcxx.uniform_int g 0 1) as [pos g'].
    by rewrite shuffle_pairs_permutes, iter_swap_permutes.
  - apply shuffle_pairs_permutes.
Qed.

(** The shuffle of libstdcxx is a [std::shuffle]. *)
#[global] Instance libstdcxx_shuffle : StdShuffle := {
  shuffle := libstdcxx.shuffle;
  shuffle_permutes := libstdcxx_shuffle_permutes
}.

(** What a program that is compiled with GCC 12 computes: the indices
    [0, ..., 7] shuffled with the engine of seed 42 and its next output,
    and [0, ..., 6] with the engine of seed 12345. *)
Example libstdcxx_shuffle_8_42 :
  let shuffled := libstdcxx.shuffle (seqZ 0 8) (mt19937_64.seed 42) in
  shuffled.1 = [6; 2; 1; 4; 5; 3; 0; 7]
  ∧ (mt19937_64.next shuffled.2).1 = 16662371453428439381.
Proof. vm_compute. split; reflexivity. Qed.

Example libstdcxx_shuffle_7_12345 :
  (libstdcxx.shuffle (seqZ 0 7) (mt19937_64.seed 12345)).1
  = [6; 3; 2; 4; 5; 0; 1].
Proof. vm_compute. reflexivity. Qed.

(** [std::iota] fills the vector with [value, value + 1, ...] as long as
    its [int] does not overflow: up to [INT_MAX] elements from 0 on. *)
Lemma iota_Some (indices : list Z) (value : Z) :
  0 ≤ value →
  value + Z.of_nat (length indices) ≤ INT_MAX →
  iota indices value = Some (seqZ value (Z.of_nat (length indices))).
Proof.
  revert value. induction indices as [|x indices IH]; intros value Hv Hfit.
  - reflexivity.
  - cbn [iota length] in *.
    replace (value <? INT_MAX) with true by (symmetry; apply Z.ltb_lt; lia).
    rewrite IH by lia. cbn [fmap option_fmap option_map].
    rewrite (seqZ_cons value) by lia. do 2 f_equal.
    + unfold wrap64, INT_MAX in *. apply Z.mod_small. lia.
    + f_equal; lia.
Qed.

Lemma iota_None (indices : list Z) (value : Z) :
  value ≤ INT_MAX →
  INT_MAX < value + Z.of_nat (length indices) →
  iota indices value = None.
Proof.
  revert value. induction indices as [|x indices IH]; intros value Hv Hover.
  - cbn [length] in Hover. lia.
  - cbn [iota length] in *.
    destruct (value <? INT_MAX) eqn:Hlt; [|reflexivity].
    apply Z.ltb_lt in Hlt. by rewrite IH by lia.
Qed.

(** ** The permutation *)

Lemma seqZ_to_nat (m len : Z) : seqZ m (Z.of_nat (Z.to_nat len)) = seqZ m len.
Proof. unfold seqZ. by rewrite Nat2Z.id. Qed.

Lemma vector_max_size_value : vector_max_size = 2 ^ 60 - 1.
Proof. reflexivity. Qed.

Lemma new_vector_run (env : environment) (num_elements : Z) (w : world) :
  new_vector env num_elements w
  = if decide (vector_max_size < num_elements) then
      (Throw VectorLengthError, w)
    else if decide (num_elements ≠ 0
                    ∧ operator_new env (num_elements * sizeof_size_t) = false)
    then (Throw bad_alloc, w)
    else (Ret (replicate (Z.to_nat num_elements) 0), w).
Proof.
  unfold new_vector.
  destruct (decide (vector_max_size < num_elements)) as [Hmax|Hmax].
  { apply Z.ltb_lt in Hmax. by rewrite Hmax. }
  apply Z.ltb_nlt in Hmax. rewrite Hmax.
  destruct (num_elements =? 0) eqn:Hzero.
  { apply Z.eqb_eq in Hzero. rewrite decide_False by tauto. reflexivity. }
  apply Z.eqb_neq in Hzero. cbn [orb].
  destruct (operator_new env (num_elements * sizeof_size_t)).
  - rewrite decide_False; [reflexivity|]. intros [_ Habsurd]. discriminate.
  - by rewrite decide_True.
Qed.

Section permutation.
Context `{StdShuffle}.

(** The ways in which [generate_random_permutation] ends: the vector is
    too long, its storage is not allocated, the [int] of [std::iota]
    overflows, or the shuffled indices are returned. *)
Lemma generate_random_permutation_run (env : environment)
    (num_elements seed : Z) (w : world) :
  detail.generate_random_permutation env num_elements seed w
  = if decide (vector_max_size < num_elements) then
      (Throw VectorLengthError, w)
    else if decide (num_elements ≠ 0
                    ∧ operator_new env (num_elements * sizeof_size_t) = false)
    then (Throw bad_alloc, w)
    else if decide (INT_MAX < num_elements) then (Undefined, w)
    else (Ret (shuffled_indices num_elements seed), w).
Proof.
  unfold detail.generate_random_permutation, mbind, M_bind.
  rewrite new_vector_run.
  destruct (decide (vector_max_size < num_elements)); [reflexivity|].
  destruct (decide (num_elements ≠ 0 ∧ _)); [reflexivity|].
  destruct (decide (INT_MAX < num_elements)) as [Hover|Hfit].
  - rewrite iota_None; [reflexivity|unfold INT_MAX; lia|].
    rewrite length_replicate. lia.
  - rewrite iota_Some;
      [|lia|rewrite length_replicate; unfold INT_MAX in *; lia].
    rewrite length_replicate, seqZ_to_nat. reflexivity.
Qed.

Lemma shuffled_indices_permutes (num_elements seed : Z) :
  shuffled_indices num_elements seed ≡ₚ seqZ 0 num_elements.
Proof. apply shuffle_permutes. Qed.

Lemma shuffled_indices_length (num_elements seed : Z) :
  length (shuffled_indices num_elements seed) = Z.to_nat num_elements.
Proof. by rewrite shuffled_indices_permutes, length_seqZ. Qed.

Lemma shuffled_indices_NoDup (num_elements seed : Z) :
  NoDup (shuffled_indices num_elements seed).
Proof. rewrite shuffled_indices_permutes. apply NoDup_seqZ. Qed.

Lemma shuffled_indices_elem_of (num_elements seed x : Z) :
  x ∈ shuffled_indices num_elements seed ↔ 0 ≤ x < num_elements.
Proof. rewrite shuffled_indices_permutes, elem_of_seqZ. lia. Qed.

Lemma shuffled_indices_lookup (num_elements seed : Z) (k : nat) :
  (k < Z.to_nat num_elements)%nat →
  ∃ x, shuffled_indices num_elements seed !! k = Some x
       ∧ shuffled_indices num_elements seed !!! k = x
       ∧ 0 ≤ x < num_elements.
Proof.
  intros Hk.
  destruct (lookup_lt_is_Some_2
              (shuffled_indices num_elements seed) k)
    as [x Hx].
  { rewrite shuffled_indices_length. exact Hk. }
  exists x. split; [exact Hx|]. split.
  - by apply list_lookup_total_correct.
  - apply (shuffled_indices_elem_of num_elements seed).
    by eapply list_elem_of_lookup_2.
Qed.

Lemma shuffled_indices_inj (num_elements seed : Z) (j k : nat) :
  (j < Z.to_nat num_elements)%nat →
  (k < Z.to_nat num_elements)%nat →
  shuffled_indices num_elements seed !!! j
  = shuffled_indices num_elements seed !!! k →
  j = k.
Proof.
  intros Hj Hk Heq.
  destruct (shuffled_indices_lookup num_elements seed j Hj)
    as (x & Hx & Hx' & _).
  destruct (shuffled_indices_lookup num_elements seed k Hk)
    as (y & Hy & Hy' & _).
  eapply NoDup_lookup; [apply shuffled_indices_NoDup|..]; eauto.
  congruence.
Qed.


End permutation.

(** ** Memory *)

Lemma store_bytes_other (count : nat) (address value : Z) (m : Z → Z) (x : Z) :
  x < address ∨ address + Z.of_nat count ≤ x →
  store_bytes count address value m x = m x.
Proof.
  revert address value m.
  induction count as [|count IH]; intros address value m Hx; simpl.
  - reflexivity.
  - rewrite IH by lia. apply fn_lookup_insert_ne. lia.
Qed.

Lemma load_bytes_ext (count : nat) (address : Z) (m m' : Z → Z) :
  (∀ x, address ≤ x < address + Z.of_nat count → m x = m' x) →
  load_bytes count address m = load_bytes count address m'.
Proof.
  revert address. induction count as [|count IH]; intros address Hm; simpl.
  - reflexivity.
  - rewrite (Hm address) by lia. rewrite (IH (address + 1)); [reflexivity|].
    intros x Hx. apply Hm. lia.
Qed.

Lemma load_store_bytes (count : nat) (address value : Z) (m : Z → Z) :
  0 ≤ value < 256 ^ Z.of_nat count →
  load_bytes count address (store_bytes count address value m) = value.
Proof.
  revert address value m.
  induction count as [|count IH]; intros address value m Hv; simpl.
  - change (256 ^ Z.of_nat 0) with 1 in Hv. lia.
  - rewrite Nat2Z.inj_succ, Z.pow_succ_r in Hv by lia.
    rewrite store_bytes_other by lia. rewrite fn_lookup_insert.
    rewrite IH.
    + pose proof (Z.div_mod value 256). lia.
    + split; [apply Z.div_pos; lia|]. apply Z.div_lt_upper_bound; lia.
Qed.

Lemma load_store_bytes_other (count : nat) (a a' value : Z) (m : Z → Z) :
  a' + Z.of_nat count ≤ a ∨ a + Z.of_nat count ≤ a' →
  load_bytes count a' (store_bytes count a value m) = load_bytes count a' m.
Proof.
  intros Hd. apply load_bytes_ext. intros x Hx.
  apply store_bytes_other. lia.
Qed.

Lemma apply_stores_cons (a v : Z) (stores : list (Z * Z)) (m : Z → Z) :
  apply_stores ((a, v) :: stores) m
  = apply_stores stores (store_bytes (Z.to_nat sizeof_MemoryAddress) a v m).
Proof. reflexivity. Qed.

Lemma apply_stores_app (stores stores' : list (Z * Z)) (m : Z → Z) :
  apply_stores (stores ++ stores') m
  = apply_stores stores' (apply_stores stores m).
Proof. apply fold_left_app. Qed.

Lemma load_apply_stores_apart (stores : list (Z * Z)) (m : Z → Z) (p : Z) :
  Forall (λ s, apart s.1 p) stores →
  load_ptr (apply_stores stores m) p = load_ptr m p.
Proof.
  revert m. induction stores as [|[a v] stores IH]; intros m Hall.
  - reflexivity.
  - inversion Hall as [|? ? Ha Hrest]; subst.
    rewrite apply_stores_cons, IH by assumption.
    unfold load_ptr. apply load_store_bytes_other.
    unfold apart, sizeof_MemoryAddress in *. cbn [fst] in Ha.
    change (Z.of_nat (Z.to_nat 8)) with 8. lia.
Qed.

(** After stores to fields that are pairwise apart, each field holds the
    value stored to it. *)
Lemma load_apply_stores (stores : list (Z * Z)) (m : Z → Z) (k : nat) (a v : Z) :
  (∀ i j s t, i ≠ j → stores !! i = Some s → stores !! j = Some t →
              apart s.1 t.1) →
  stores !! k = Some (a, v) →
  0 ≤ v < 2 ^ 64 →
  load_ptr (apply_stores stores m) a = v.
Proof.
  revert m k.
  induction stores as [|[a0 v0] stores IH]; intros m k Hapart Hk Hv.
  - discriminate.
  - rewrite apply_stores_cons. destruct k as [|k]; simpl in Hk.
    + injection Hk as -> ->.
      rewrite load_apply_stores_apart.
      * unfold load_ptr. apply load_store_bytes.
        change (256 ^ Z.of_nat (Z.to_nat sizeof_MemoryAddress)) with (2 ^ 64).
        exact Hv.
      * apply Forall_lookup. intros i s Hs.
        apply (Hapart (S i) 0%nat s (a, v)); [lia|exact Hs|reflexivity].
    + apply (IH _ k); [|exact Hk|exact Hv].
      intros i j s t Hij Hs Ht.
      apply (Hapart (S i) (S j) s t); [lia|exact Hs|exact Ht].
Qed.

(** ** What the chain builder does to the world *)

Lemma after_stores_nil (w : world) : after_stores [] w = w.
Proof. destruct w. unfold after_stores. simpl. by rewrite app_nil_r. Qed.

Lemma after_stores_app (stores stores' : list (Z * Z)) (w : world) :
  after_stores stores' (after_stores stores w) = after_stores (stores ++ stores') w.
Proof.
  unfold after_stores. simpl.
  by rewrite apply_stores_app, fmap_app, app_assoc.
Qed.

Lemma store_ptr_run (p value : Z) (w : world) :
  store_ptr p value w = (Ret (), after_stores [(p, value)] w).
Proof. reflexivity. Qed.

Lemma link_elements_run (remaining i : nat) (buffer padded : Z)
    (indices : list Z) (w : world) :
  link_elements remaining i buffer padded indices w
  = (Ret (), after_stores (loop_stores remaining i buffer padded indices) w).
Proof.
  revert i w. induction remaining as [|remaining IH]; intros i w.
  - simpl. by rewrite after_stores_nil.
  - cbn [link_elements]. unfold mbind, M_bind.
    rewrite store_ptr_run, IH, after_stores_app. reflexivity.
Qed.

Section builder.
Context `{StdShuffle}.

(** The guards of [generate_random_pointer_chasing] in terms of its
    arguments. *)
Lemma generate_random_pointer_chasing_null (env : environment)
    (buffer num_elements padded seed : Z) (w : world) :
  buffer = nullptr ∨ num_elements = 0 →
  generate_random_pointer_chasing env buffer num_elements padded seed w
  = (Ret nullptr, w).
Proof.
  intros Hnull. unfold generate_random_pointer_chasing.
  replace ((buffer =? nullptr) || (num_elements =? 0)) with true; [reflexivity|].
  symmetry. apply orb_true_iff. lia.
Qed.

Lemma generate_random_pointer_chasing_checked (env : environment)
    (buffer num_elements padded seed : Z) (w : world) :
  buffer ≠ nullptr → num_elements ≠ 0 →
  generate_random_pointer_chasing env buffer num_elements padded seed w
  = if decide (buffer mod alignof_MemoryAddress ≠ 0) then
      (Throw AlignmentError, w)
    else if decide (padded mod alignof_MemoryAddress ≠ 0) then
      (Throw StrideAlignmentError, w)
    else if decide (padded < sizeof_MemoryAddress) then
      (Throw StrideTooSmallError, w)
    else if decide (vector_max_size < num_elements) then
      (Throw VectorLengthError, w)
    else if decide (operator_new env (num_elements * sizeof_size_t) = false)
    then (Throw bad_alloc, w)
    else if decide (INT_MAX < num_elements) then (Undefined, w)
    else
      (Ret (detail.get_element_location buffer
              (shuffled_indices num_elements seed !!! 0%nat) padded),
       after_stores (builder_stores buffer num_elements padded seed) w).
Proof.
  intros Hb Hn. unfold generate_random_pointer_chasing.
  replace ((buffer =? nullptr) || (num_elements =? 0)) with false
    by (symmetry; apply orb_false_iff; lia).
  destruct (decide (buffer mod alignof_MemoryAddress ≠ 0)) as [Ha|Ha].
  { apply Z.eqb_neq in Ha. rewrite Ha. reflexivity. }
  apply dec_stable in Ha. rewrite Ha. cbn [Z.eqb negb].
  destruct (decide (padded mod alignof_MemoryAddress ≠ 0)) as [Hs|Hs].
  { apply Z.eqb_neq in Hs. rewrite Hs. reflexivity. }
  apply dec_stable in Hs. rewrite Hs. cbn [Z.eqb negb].
  destruct (decide (padded < sizeof_MemoryAddress)) as [Hw|Hw].
  { apply Z.ltb_lt in Hw. rewrite Hw. reflexivity. }
  apply Z.ltb_nlt in Hw. rewrite Hw.
  unfold mbind at 1, M_bind at 1. rewrite generate_random_permutation_run.
  destruct (decide (vector_max_size < num_elements)); [reflexivity|].
  destruct (decide (operator_new env (num_elements * sizeof_size_t) = false))
    as [Hnew|Hnew].
  { by rewrite decide_True. }
  rewrite decide_False by tauto.
  destruct (decide (INT_MAX < num_elements)); [reflexivity|].
  cbv zeta. unfold mbind, M_bind.
  rewrite link_elements_run, store_ptr_run, after_stores_app.
  reflexivity.
Qed.

End builder.

(** ** The chain in memory *)

Lemma chain_links_lookup (slots : list Z) (k : nat) :
  (k < length slots)%nat →
  chain_links slots !! k
  = Some (slots !!! k, slots !!! ((k + 1) mod length slots)%nat).
Proof.
  intros Hk. unfold chain_links.
  rewrite list_lookup_fmap, lookup_seq_lt by exact Hk. reflexivity.
Qed.

Lemma chain_links_lookup_inv (slots : list Z) (k : nat) (s : Z * Z) :
  chain_links slots !! k = Some s →
  (k < length slots)%nat ∧ slots !! k = Some s.1.
Proof.
  intros Hs.
  assert (k < length slots)%nat as Hk.
  { apply lookup_lt_Some in Hs. unfold chain_links in Hs.
    by rewrite length_fmap, length_seq in Hs. }
  split; [exact Hk|].
  rewrite chain_links_lookup in Hs by exact Hk. injection Hs as <-.
  cbn [fst]. apply list_lookup_lookup_total_lt, Hk.
Qed.

Section chain.
Variable slots : list Z.
Variable m : Z → Z.
Hypothesis slots_apart :
  ∀ i j a a', i ≠ j → slots !! i = Some a → slots !! j = Some a' → apart a a'.
Hypothesis slots_in_range : ∀ k a, slots !! k = Some a → 0 ≤ a < 2 ^ 64.

Lemma chain_links_load (k : nat) :
  (k < length slots)%nat →
  load_ptr (apply_stores (chain_links slots) m) (slots !!! k)
  = slots !!! ((k + 1) mod length slots)%nat.
Proof.
  intros Hk. apply (load_apply_stores _ _ k).
  - intros i j s t Hij Hs Ht.
    apply chain_links_lookup_inv in Hs as [_ Hs].
    apply chain_links_lookup_inv in Ht as [_ Ht].
    by apply (slots_apart i j).
  - by apply chain_links_lookup.
  - apply (slots_in_range ((k + 1) mod length slots)%nat).
    apply list_lookup_lookup_total_lt, Nat.mod_upper_bound. lia.
Qed.

Lemma chain_links_follow (steps k : nat) :
  (k < length slots)%nat →
  follow (apply_stores (chain_links slots) m) (slots !!! k) steps
  = slots !!! ((k + steps) mod length slots)%nat.
Proof.
  revert k. induction steps as [|steps IH]; intros k Hk.
  - simpl. by rewrite Nat.add_0_r, Nat.mod_small.
  - cbn [follow]. rewrite chain_links_load by exact Hk.
    rewrite IH by (apply Nat.mod_upper_bound; lia).
    rewrite Nat.Div0.add_mod_idemp_l. f_equal. f_equal. lia.
Qed.

End chain.

Section valid_chain.
Context `{StdShuffle}.
Variables buffer num_elements padded seed : Z.
Hypothesis valid : valid_chain_arguments buffer num_elements padded.

Let indices := shuffled_indices num_elements seed.
Let slots := slot buffer padded <$> indices.

Lemma valid_length_indices : length indices = Z.to_nat num_elements.
Proof. apply shuffled_indices_length. Qed.

Lemma valid_length_slots : length slots = Z.to_nat num_elements.
Proof. unfold slots. rewrite length_fmap. apply valid_length_indices. Qed.

Lemma valid_last : Z.to_nat (wrap64 (num_elements - 1)) = (Z.to_nat num_elements - 1)%nat.
Proof.
  destruct valid as (Hb & _ & Hn & _ & Hs & Hfit).
  unfold sizeof_MemoryAddress in Hs.
  unfold wrap64. rewrite Z.mod_small by nia. lia.
Qed.

(** Inside a buffer that fits the address space the address computation
    of the code does not wrap. *)
Lemma valid_get_element_location (index : Z) :
  0 ≤ index < num_elements →
  detail.get_element_location buffer index padded = slot buffer padded index.
Proof.
  intros Hi. destruct valid as (Hb & _ & Hn & _ & Hs & Hfit).
  unfold sizeof_MemoryAddress in Hs.
  unfold detail.get_element_location, slot, wrap64.
  rewrite (Z.mod_small (index * padded)) by nia.
  apply Z.mod_small. nia.
Qed.

Lemma valid_slot_lookup (k : nat) :
  (k < Z.to_nat num_elements)%nat →
  slots !! k = Some (slots !!! k)
  ∧ slots !!! k = slot buffer padded (indices !!! k)
  ∧ detail.get_element_location buffer (indices !!! k) padded = slots !!! k
  ∧ 0 ≤ indices !!! k < num_elements.
Proof.
  intros Hk.
  destruct (shuffled_indices_lookup num_elements seed k Hk)
    as (x & Hx & Hx' & Hrange).
  fold indices in Hx, Hx'.
  assert (slots !! k = Some (slot buffer padded x)) as Hs.
  { unfold slots. by rewrite list_lookup_fmap, Hx. }
  rewrite (list_lookup_total_correct _ _ _ Hs), Hx'.
  repeat split; try tauto. by apply valid_get_element_location.
Qed.

Lemma valid_slots_in_range (k : nat) (a : Z) :
  slots !! k = Some a → 0 ≤ a < 2 ^ 64.
Proof.
  intros Ha.
  assert (k < Z.to_nat num_elements)%nat as Hk.
  { rewrite <- valid_length_slots. by eapply lookup_lt_Some. }
  destruct (valid_slot_lookup k Hk) as (Hs & Hs' & _ & Hrange).
  rewrite Hs in Ha. injection Ha as <-. rewrite Hs'.
  destruct valid as (Hb & _ & Hn & _ & Hw & Hfit).
  unfold sizeof_MemoryAddress in Hw. unfold slot. nia.
Qed.

Lemma valid_slots_apart (i j : nat) (a a' : Z) :
  i ≠ j → slots !! i = Some a → slots !! j = Some a' → apart a a'.
Proof.
  intros Hij Ha Ha'.
  assert (i < Z.to_nat num_elements)%nat as Hi.
  { rewrite <- valid_length_slots. by eapply lookup_lt_Some. }
  assert (j < Z.to_nat num_elements)%nat as Hj.
  { rewrite <- valid_length_slots. by eapply lookup_lt_Some. }
  destruct (valid_slot_lookup i Hi) as (Hs & Hs' & _ & _).
  destruct (valid_slot_lookup j Hj) as (Ht & Ht' & _ & _).
  rewrite Hs in Ha. injection Ha as <-.
  rewrite Ht in Ha'. injection Ha' as <-.
  rewrite Hs', Ht'.
  assert (indices !!! i ≠ indices !!! j) as Hne.
  { intros Heq. apply Hij.
    by apply (shuffled_indices_inj num_elements seed). }
  destruct valid as (_ & _ & _ & _ & Hw & _).
  unfold apart, slot. nia.
Qed.

(** The stores of the code are the links of the chain over the slots in
    the order of the permutation. *)
Lemma valid_builder_stores :
  builder_stores buffer num_elements padded seed = chain_links slots.
Proof.
  assert (1 ≤ Z.to_nat num_elements)%nat as Hn
    by (destruct valid as (_ & _ & ? & _); lia).
  unfold builder_stores, loop_stores, chain_links. fold indices.
  rewrite valid_last, valid_length_slots.
  replace (Z.to_nat num_elements) with (S (Z.to_nat num_elements - 1)) at 3 by lia.
  rewrite seq_S, fmap_app. cbn [fmap list_fmap Nat.add]. f_equal.
  - apply list_fmap_ext. intros i k Hk.
    apply lookup_seq in Hk as [-> Hi]. cbn [Nat.add].
    destruct (valid_slot_lookup i) as (_ & _ & -> & _); [lia|].
    destruct (valid_slot_lookup (i + 1)) as (_ & _ & -> & _); [lia|].
    rewrite (Nat.mod_small (i + 1)) by lia. reflexivity.
  - destruct (valid_slot_lookup (Z.to_nat num_elements - 1))
      as (_ & _ & -> & _); [lia|].
    destruct (valid_slot_lookup 0) as (_ & _ & -> & _); [lia|].
    replace (Z.to_nat num_elements - 1 + 1)%nat with (Z.to_nat num_elements) by lia.
    rewrite Nat.Div0.mod_same. reflexivity.
Qed.

(** With valid arguments the builder runs into none of its three checks:
    it ends as the making of the index vector ends. *)
Lemma valid_generate_random_pointer_chasing_cases (env : environment)
    (w : world) :
  generate_random_pointer_chasing env buffer num_elements padded seed w
  = if decide (vector_max_size < num_elements) then
      (Throw VectorLengthError, w)
    else if decide (operator_new env (num_elements * sizeof_size_t) = false)
    then (Throw bad_alloc, w)
    else if decide (INT_MAX < num_elements) then (Undefined, w)
    else (Ret (slots !!! 0%nat), after_stores (chain_links slots) w).
Proof.
  pose proof valid as (Hb & Ha & Hn & Hs & Hw & Hfit).
  rewrite generate_random_pointer_chasing_checked
    by (unfold nullptr; lia).
  rewrite decide_False by tauto.
  rewrite decide_False by tauto.
  rewrite decide_False by lia.
  rewrite valid_builder_stores. fold indices.
  destruct (valid_slot_lookup 0) as (_ & _ & -> & _); [lia|]. reflexivity.
Qed.

(** With valid arguments, fewer than [2^31] elements and an index vector
    that is allocated, the builder returns the slot of [permutation[0]]
    and leaves the chain in memory. *)
Lemma valid_generate_random_pointer_chasing (env : environment) (w : world) :
  num_elements < 2 ^ 31 →
  operator_new env (num_elements * sizeof_size_t) = true →
  generate_random_pointer_chasing env buffer num_elements padded seed w
  = (Ret (slots !!! 0%nat), after_stores (chain_links slots) w).
Proof.
  intros Hsmall Hnew. rewrite valid_generate_random_pointer_chasing_cases.
  rewrite decide_False by (rewrite vector_max_size_value; lia).
  rewrite decide_False by congruence.
  rewrite decide_False by (unfold INT_MAX; lia). reflexivity.
Qed.

End valid_chain.

(** ** The chain builder: the permutation *)




(** ** The chain builder: the chain *)


Lemma valid_chain_arguments_4096_8_64 : valid_chain_arguments 4096 8 64.
Proof.
  unfold valid_chain_arguments, alignof_MemoryAddress, sizeof_MemoryAddress.
  repeat split; try reflexivity; lia.
Qed.





(** The chain of eight 64-byte slots at address 4096 for seed 42, with the
    shuffle of libstdcxx: the entry is the slot of index 6, and the walk
    visits the slots in the order of the permutation. *)
Example chain_8_42 :
  let run :=
    generate_random_pointer_chasing example_environment 4096 8 64 42
      empty_world in
  run.1 = Ret (4096 + 6 * 64)
  ∧ (λ steps, slot_index 4096 64 (follow (mem run.2) (4096 + 6 * 64) steps))
      <$> seq 0 9
    = [6; 2; 1; 4; 5; 3; 0; 7; 6].
Proof. vm_compute. split; reflexivity. Qed.

Section valid_chain_stores.
Context `{StdShuffle}.
Variables buffer num_elements padded seed : Z.
Hypothesis valid : valid_chain_arguments buffer num_elements padded.
Variable env : environment.
Hypothesis small : num_elements < 2 ^ 31.
Hypothesis allocated : operator_new env (num_elements * sizeof_size_t) = true.




End valid_chain_stores.










(** ** The chain builder: null, empty and contract violations *)

(** C6: with a null buffer or with [num_elements = 0], whatever the stride
    and the seed, [generate_random_pointer_chasing] returns a null entry
    address; it does not throw, and it leaves the machine as it found it:
    no store, no event. *)
Theorem null_or_empty_builds_nothing `{StdShuffle} (env : environment)
    (buffer num_elements padded seed : Z) (w : world) :
  buffer = nullptr ∨ num_elements = 0 →
  generate_random_pointer_chasing env buffer num_elements padded seed w
  = (Ret nullptr, w).
Proof. apply generate_random_pointer_chasing_null. Qed.

Lemma null_or_empty_builds_nothing_witness :
  (4096 = nullptr ∨ 0 = 0)
  ∧ generate_random_pointer_chasing example_environment 4096 0 64 42
      empty_world
    = (Ret nullptr, empty_world).
Proof.
  assert (4096 = nullptr ∨ 0 = 0) as Hnull by (right; reflexivity).
  split; [exact Hnull|].
  exact (null_or_empty_builds_nothing example_environment 4096 0 64 42
           empty_world Hnull).
Defined.

Lemma Throw_inj {A : Type} (e e' : exn) :
  @Throw A e = Throw e' → e = e'.
Proof. intros Heq. by injection Heq. Qed.




(** C10: the null/empty check comes before the contract checks: with a
    null buffer or [num_elements = 0] the call returns a null entry
    address and throws nothing, also when the buffer is misaligned, or the
    stride is not a multiple of the pointer alignment, or the stride is
    below the pointer width. *)
Theorem null_check_precedes_contract_checks `{StdShuffle}
    (env : environment) (buffer num_elements padded seed : Z) (w : world) :
  buffer = nullptr ∨ num_elements = 0 →
  buffer mod alignof_MemoryAddress ≠ 0
  ∨ padded mod alignof_MemoryAddress ≠ 0
  ∨ padded < sizeof_MemoryAddress →
  (generate_random_pointer_chasing env buffer num_elements padded seed w).1
  = Ret nullptr
  ∧ ∀ e,
      (generate_random_pointer_chasing env buffer num_elements padded seed w).1
      ≠ Throw e.
Proof.
  intros Hnull _.
  rewrite generate_random_pointer_chasing_null by exact Hnull.
  split; [reflexivity|]. intros e. discriminate.
Qed.

Lemma null_check_precedes_contract_checks_witness :
  (nullptr = nullptr ∨ 8 = 0)
  ∧ (nullptr mod alignof_MemoryAddress ≠ 0
     ∨ 4 mod alignof_MemoryAddress ≠ 0
     ∨ 4 < sizeof_MemoryAddress)
  ∧ (generate_random_pointer_chasing example_environment nullptr 8 4 42
       empty_world).1
    = Ret nullptr.
Proof.
  assert (nullptr = nullptr ∨ 8 = 0) as Hnull by (left; reflexivity).
  assert (nullptr mod alignof_MemoryAddress ≠ 0
          ∨ 4 mod alignof_MemoryAddress ≠ 0
          ∨ 4 < sizeof_MemoryAddress) as Hbad.
  { right. right. unfold sizeof_MemoryAddress. lia. }
  split; [exact Hnull|]. split; [exact Hbad|].
  exact (proj1 (null_check_precedes_contract_checks example_environment
                  nullptr 8 4 42 empty_world Hnull Hbad)).
Defined.

(** ** The harness: the trial loop *)

Lemma emit_run (e : event) (w : world) : emit e w = (Ret (), record [e] w).
Proof. reflexivity. Qed.

Lemma perf_counter_read_run (env : environment) (c : counter) (first k : nat)
    (m : Z → Z) (events : list event) :
  perf_counter_read env c (World m (k + first) events)
  = (Ret (reading env first k c),
     World m (S k + first) (events ++ [ERead c (reading env first k c)])).
Proof. reflexivity. Qed.

Lemma trial_run (env : environment) (start_ptr i : Z)
    (result : BenchmarkResult) (w : world) :
  trial env start_ptr i result w
  = (Ret (retain env (reads w) i result),
     World (mem w) (10 + reads w)
           (trace w ++ trial_events env (reads w) start_ptr)).
Proof.
  destruct w as [m first events]. cbn [mem reads trace].
  unfold trial.
  change first with (0 + first)%nat at 1.
  do 5 (unfold mbind at 1, M_bind at 1; rewrite perf_counter_read_run).
  unfold mbind at 1, M_bind at 1. rewrite emit_run.
  unfold record. cbn [mem reads trace].
  do 5 (unfold mbind at 1, M_bind at 1; rewrite perf_counter_read_run).
  fold (elapsed_cycles env first). fold (l1d_misses env first).
  fold (l2_misses env first). fold (l3_misses env first).
  fold (tlb_misses env first). unfold retain.
  destruct ((NUM_WARMUPS <=? i)
            && (elapsed_cycles env first <? cycle_count result));
    unfold mret, M_ret, trial_events; rewrite <- !app_assoc; reflexivity.
Qed.

Lemma trials_run (env : environment) (start_ptr : Z) (first : nat)
    (remaining i : nat) (result : BenchmarkResult) (w : world) :
  reads w = trial_start first i →
  ∃ events,
    trials env remaining start_ptr (Z.of_nat i) result w
    = (Ret (retained env first (seq i remaining) result),
       World (mem w) (trial_start first (i + remaining)) (trace w ++ events))
    ∧ Forall is_trial_event events.
Proof.
  revert i result w.
  induction remaining as [|remaining IH]; intros i result w Hreads.
  - exists []. split; [|constructor].
    simpl. rewrite Nat.add_0_r, app_nil_r, <- Hreads. by destruct w.
  - cbn [trials]. unfold mbind, M_bind. rewrite trial_run.
    replace (Z.of_nat i + 1) with (Z.of_nat (S i)) by lia.
    edestruct (IH (S i)) as (events & -> & Hevents).
    { cbn [reads]. rewrite Hreads. unfold trial_start. lia. }
    exists (trial_events env (reads w) start_ptr ++ events).
    split.
    + cbn [mem trace seq retained fold_left]. unfold retained.
      rewrite Hreads, app_assoc. do 3 f_equal. lia.
    + apply Forall_app. split; [|exact Hevents].
      unfold trial_events. repeat constructor.
Qed.

Lemma wrap64_range (x : Z) : 0 ≤ wrap64 x ≤ UINT64_MAX.
Proof.
  unfold wrap64, UINT64_MAX. pose proof (Z.mod_pos_bound x (2 ^ 64)). lia.
Qed.

Lemma retain_warmup (env : environment) (first : nat) (i : Z)
    (result : BenchmarkResult) :
  i < NUM_WARMUPS → retain env first i result = result.
Proof.
  intros Hi. unfold retain.
  replace (NUM_WARMUPS <=? i) with false by (symmetry; apply Z.leb_gt; lia).
  reflexivity.
Qed.

(** The warmup trials leave the result as it was. *)
Lemma retained_warmups (env : environment) (first : nat)
    (result : BenchmarkResult) :
  retained env first (seq 0 (Z.to_nat (NUM_WARMUPS + NUM_TRIALS))) result
  = retained env first measured_trials result.
Proof.
  unfold measured_trials.
  change (seq 0 (Z.to_nat (NUM_WARMUPS + NUM_TRIALS)))
    with ([0; 1; 2]%nat ++ seq (Z.to_nat NUM_WARMUPS) (Z.to_nat NUM_TRIALS)).
  unfold retained. rewrite fold_left_app. cbn [fold_left].
  rewrite !retain_warmup by (unfold NUM_WARMUPS; lia). reflexivity.
Qed.

(** The result of the measured trials depends on the readings of these
    trials only. *)
Lemma retained_ext (env env' : environment) (first : nat)
    (trial_indices : list nat) (result : BenchmarkResult) :
  (∀ i k c, i ∈ trial_indices → (k < 10)%nat →
            reading env' (trial_start first i) k c
            = reading env (trial_start first i) k c) →
  retained env' first trial_indices result
  = retained env first trial_indices result.
Proof.
  revert result.
  induction trial_indices as [|i l IH]; intros result Hsame; [reflexivity|].
  unfold retained in *. cbn [fold_left].
  rewrite IH by (intros; apply Hsame; [by right|done]).
  f_equal. unfold retain, elapsed_cycles, l1d_misses, l2_misses, l3_misses,
    tlb_misses.
  rewrite !(Hsame i) by (first [by left | lia]). reflexivity.
Qed.

Section selection.
Variable env : environment.
Variable first : nat.

Let cycles (i : nat) : Z := elapsed_cycles env (trial_start first i).

(** The loop invariant of the selection: the result is the one before the
    trials, or it is that of the first trial with the fewest cycles, which
    are fewer than the cycles before. *)
Lemma retained_selects (trial_indices : list nat) (result : BenchmarkResult) :
  (∀ i, i ∈ trial_indices → NUM_WARMUPS ≤ Z.of_nat i) →
  let result' := retained env first trial_indices result in
  buffer_size result' = buffer_size result
  ∧ padded_element_size result' = padded_element_size result
  ∧ page_size result' = page_size result
  ∧ num_logical_loads result' = num_logical_loads result
  ∧ cycle_count result' ≤ cycle_count result
  ∧ (∀ i, i ∈ trial_indices → cycle_count result' ≤ cycles i)
  ∧ (result' = result
     ∨ ∃ earlier j later,
         trial_indices = earlier ++ j :: later
         ∧ cycle_count result' = cycles j
         ∧ cycles j < cycle_count result
         ∧ misses_of_trial env (trial_start first j) result'
         ∧ ∀ i, i ∈ earlier → cycles j < cycles i).
Proof.
  revert result.
  induction trial_indices as [|i l IH]; intros result Hmeasured result'.
  - repeat split; try reflexivity; try lia.
    + intros i Hi. by apply elem_of_nil in Hi.
    + by left.
  - unfold result', retained. cbn [fold_left].
    set (r1 := retain env (trial_start first i) (Z.of_nat i) result).
    fold (retained env first l r1).
    destruct (IH r1) as (Hbs & Hpes & Hps & Hnl & Hle & Hmin & Hsel).
    { intros i' Hi'. apply Hmeasured. by right. }
    assert (buffer_size r1 = buffer_size result
            ∧ padded_element_size r1 = padded_element_size result
            ∧ page_size r1 = page_size result
            ∧ num_logical_loads r1 = num_logical_loads result
            ∧ cycle_count r1 ≤ cycle_count result
            ∧ cycle_count r1 ≤ cycles i
            ∧ (r1 = result
               ∨ cycle_count r1 = cycles i
                 ∧ cycles i < cycle_count result
                 ∧ misses_of_trial env (trial_start first i) r1))
      as (Hbs1 & Hpes1 & Hps1 & Hnl1 & Hle1 & Hlei & Hsel1).
    { unfold r1, retain.
      replace (NUM_WARMUPS <=? Z.of_nat i) with true
        by (symmetry; apply Z.leb_le, Hmeasured; by left).
      cbn [andb]. fold (cycles i).
      destruct (cycles i <? cycle_count result) eqn:Hlt.
      - apply Z.ltb_lt in Hlt. cbn. unfold misses_of_trial. cbn.
        repeat split; try reflexivity; try lia.
      - apply Z.ltb_ge in Hlt.
        repeat split; try reflexivity; try lia. all: by left. }
    repeat split; try congruence; try lia.
    + intros i' [->|Hi']%elem_of_cons; [lia|by apply Hmin].
    + destruct Hsel as [Heq|(earlier & j & later & -> & Hj & Hlt & Hmiss & Hfirst)].
      * rewrite Heq. destruct Hsel1 as [->|(Hc & Hlt & Hmiss)]; [by left|].
        right. exists [], i, l.
        split; [done|]. split; [done|]. split; [done|]. split; [done|].
        intros i' Hi'. by apply elem_of_nil in Hi'.
      * right. exists (i :: earlier), j, later.
        split; [done|]. split; [done|]. split; [lia|]. split; [done|].
        intros i' [->|Hi']%elem_of_cons; [lia|by apply Hfirst].
Qed.

End selection.

(** ** The harness: one call of [run_benchmark] *)

Lemma record_nil (w : world) : record [] w = w.
Proof. destruct w. unfold record. simpl. by rewrite app_nil_r. Qed.

Lemma open_counter_run (env : environment) (c : counter) (name : string)
    (group_fd : Z) (w : world) :
  open_counter env c name group_fd w
  = (Ret (perf_counter_open_by_name env c name group_fd),
     record (open_events env c name group_fd) w).
Proof.
  unfold open_counter, open_events, mbind, M_bind. rewrite emit_run.
  destruct (is_valid (perf_counter_open_by_name env c name group_fd));
    cbn [negb]; unfold mret, M_ret, emit, record; cbn [mem reads trace];
    by rewrite <- ?app_assoc.
Qed.

Lemma close_counter_run (c : counter) (handle : perf_counter) (w : world) :
  close_counter c handle w = (Ret (), record (close_events c handle) w).
Proof.
  unfold close_counter, close_events.
  destruct (is_valid handle); [reflexivity|].
  by rewrite record_nil.
Qed.

Lemma advise_hugepage_run (env : environment) (buffer size : Z)
    (use_hugepage : bool) (w : world) :
  ∃ events,
    advise_hugepage env buffer size use_hugepage w = (Ret (), record events w)
    ∧ Forall is_buffer_event events.
Proof.
  unfold advise_hugepage, mbind, M_bind. rewrite emit_run.
  destruct (madvise env buffer size use_hugepage =? 0); cbn [negb].
  - eexists [_]. split; [reflexivity|]. by repeat constructor.
  - eexists [_; _]. split.
    + unfold emit, record. cbn [mem reads trace]. by rewrite <- app_assoc.
    + by repeat constructor.
Qed.

Lemma page_size_run (env : environment) (use_hugepage : bool) (w : world) :
  (∃ page_size,
     (if use_hugepage then common.get_hugepage_size env
      else common.get_page_size env) w = (Ret page_size, w))
  ∨ (∃ e,
       (if use_hugepage then common.get_hugepage_size env
        else common.get_page_size env) w = (Throw e, w)).
Proof.
  destruct use_hugepage.
  - unfold common.get_hugepage_size.
    destruct (proc_meminfo env) as [| |value unit]; [right|right|]; eauto.
    destruct (String.eqb unit "kB"); [left; eauto|].
    destruct (String.eqb unit "MB"); [left; eauto|right; eauto].
  - unfold common.get_page_size.
    destruct (sysconf_SC_PAGESIZE env <? 1); [right|left]; eauto.
Qed.

Lemma allocate_aligned_buffer_run (env : environment)
    (size_bytes alignment_bytes : Z) (w : world) :
  (∃ buffer alignment size,
     common.allocate_aligned_buffer env size_bytes alignment_bytes w
     = (Ret buffer, record [EAlloc alignment size buffer] w))
  ∨ (∃ e,
       common.allocate_aligned_buffer env size_bytes alignment_bytes w
       = (Throw e, w)).
Proof.
  unfold common.allocate_aligned_buffer.
  destruct ((alignment_bytes =? 0) || _); [right; eauto|].
  destruct (negb _); [right; eauto|].
  destruct (_ =? nullptr); [right; eauto|].
  left. eexists _, _, _. reflexivity.
Qed.

Lemma generate_random_pointer_chasing_run `{StdShuffle} (env : environment)
    (buffer num_elements padded seed : Z) (w : world) :
  (∃ start_ptr stores,
     generate_random_pointer_chasing env buffer num_elements padded seed w
     = (Ret start_ptr, after_stores stores w))
  ∨ (∃ e,
       generate_random_pointer_chasing env buffer num_elements padded seed w
       = (Throw e, w))
  ∨ generate_random_pointer_chasing env buffer num_elements padded seed w
    = (Undefined, w).
Proof.
  destruct (decide (buffer = nullptr ∨ num_elements = 0)) as [Hnull|Hchecked].
  - left. exists nullptr, [].
    rewrite after_stores_nil. by apply generate_random_pointer_chasing_null.
  - rewrite generate_random_pointer_chasing_checked by tauto.
    repeat case_decide; eauto.
Qed.

Lemma Forall_is_buffer_event_stores (stores : list (Z * Z)) :
  Forall is_buffer_event ((λ s, EWrite s.1 s.2) <$> stores).
Proof. apply Forall_fmap, Forall_true. intros s. exact I. Qed.

(** States the events of the goal as a setup followed by the rest. *)
Ltac shape_with setup rest :=
  lazymatch goal with
  | |- run_shape _ _ _ _ _ ?events =>
      replace events with (setup ++ rest)
        by (unfold follower_open_events, failure_close_events;
            repeat rewrite <- app_assoc; reflexivity)
  end.

Lemma run_benchmark_shape `{StdShuffle} (env : environment)
    (buffer_size_in_bytes padded_bytes_per_element : Z) (use_hugepage : bool)
    (w : world) :
  ∃ out w' events,
    run_benchmark env buffer_size_in_bytes padded_bytes_per_element
                  use_hugepage w = (out, w')
    ∧ trace w' = trace w ++ events
    ∧ run_shape env (reads w) buffer_size_in_bytes padded_bytes_per_element
                out events.
Proof.
  unfold run_benchmark.
  destruct (padded_bytes_per_element =? 0).
  { exists Undefined, w, []. split; [reflexivity|]. rewrite app_nil_r.
    split; [reflexivity|]. by constructor. }
  destruct (buffer_size_in_bytes mod padded_bytes_per_element =? 0);
    cbn [negb].
  2:{ eexists _, _, [_]. split; [apply emit_run|]. split; [reflexivity|].
      constructor. by repeat constructor. }
  unfold mbind at 1, M_bind at 1.
  destruct (page_size_run env use_hugepage w) as [[page_size ->]|[e ->]].
  2:{ exists (Throw e), w, []. split; [reflexivity|]. rewrite app_nil_r.
      split; [reflexivity|]. by constructor. }
  unfold mbind at 1, M_bind at 1.
  destruct (allocate_aligned_buffer_run env buffer_size_in_bytes page_size w)
    as [(buffer & alignment & size & ->)|[e ->]].
  2:{ exists (Throw e), w, []. split; [reflexivity|]. rewrite app_nil_r.
      split; [reflexivity|]. by constructor. }
  unfold with_buffer.
  unfold mbind at 1, M_bind at 1.
  destruct (advise_hugepage_run env buffer buffer_size_in_bytes use_hugepage
              (record [EAlloc alignment size buffer] w))
    as (advice & -> & Hadvice).
  unfold mbind at 1, M_bind at 1.
  destruct (generate_random_pointer_chasing_run env buffer
              (buffer_size_in_bytes `div` padded_bytes_per_element)
              padded_bytes_per_element RAND_SEED
              (record advice (record [EAlloc alignment size buffer] w)))
    as [(start_ptr & stores & ->)|[[e ->]| ->]].
  2:{ eexists _, _, _. split; [reflexivity|].
      cbn [trace record]. rewrite <- !app_assoc. split; [reflexivity|].
      constructor. rewrite !Forall_app. repeat split; try done.
      all: by repeat constructor. }
  2:{ eexists _, _, _. split; [reflexivity|].
      cbn [trace record]. rewrite <- !app_assoc. split; [reflexivity|].
      constructor. rewrite !Forall_app. split; [|done].
      by repeat constructor. }
  assert (Forall is_buffer_event
            ([EAlloc alignment size buffer] ++ advice
             ++ ((λ s, EWrite s.1 s.2) <$> stores))) as Hsetup.
  { rewrite !Forall_app. repeat split; try done.
    - by repeat constructor.
    - apply Forall_is_buffer_event_stores. }
  unfold mbind at 1, M_bind at 1. rewrite open_counter_run.
  fold (cycle_handle env).
  destruct (is_valid (cycle_handle env)) eqn:Hcycle; cbn [negb].
  2:{ eexists _, _, _. split; [reflexivity|].
      cbn [trace record after_stores mem reads]. rewrite <- !app_assoc.
      split; [reflexivity|].
      shape_with ([EAlloc alignment size buffer] ++ advice
                  ++ ((λ s, EWrite s.1 s.2) <$> stores))
                 (open_events env cycle_counter CYCLES_EVENT (-1)
                  ++ [EFree buffer]).
      by apply shape_leader_failed. }
  do 4 (unfold mbind at 1, M_bind at 1; rewrite open_counter_run).
  change (perf_counter_open_by_name env l1d_miss_counter (L1D_MISS_EVENT env)
            (fd (cycle_handle env)))
    with (follower_handle env l1d_miss_counter).
  change (perf_counter_open_by_name env l2_miss_counter (L2_MISS_EVENT env)
            (fd (cycle_handle env)))
    with (follower_handle env l2_miss_counter).
  change (perf_counter_open_by_name env l3_miss_counter (L3_MISS_EVENT env)
            (fd (cycle_handle env)))
    with (follower_handle env l3_miss_counter).
  change (perf_counter_open_by_name env tlb_miss_counter TLB_MISS_EVENT
            (fd (cycle_handle env)))
    with (follower_handle env tlb_miss_counter).
  replace (negb (is_valid (follower_handle env l1d_miss_counter))
           || negb (is_valid (follower_handle env l2_miss_counter))
           || negb (is_valid (follower_handle env l3_miss_counter))
           || negb (is_valid (follower_handle env tlb_miss_counter)))
    with (negb (followers_valid env))
    by (unfold followers_valid;
        destruct (is_valid (follower_handle env l1d_miss_counter)),
          (is_valid (follower_handle env l2_miss_counter)),
          (is_valid (follower_handle env l3_miss_counter)),
          (is_valid (follower_handle env tlb_miss_counter)); reflexivity).
  destruct (followers_valid env) eqn:Hfollowers; cbn [negb].
  - unfold mbind at 1, M_bind at 1. rewrite emit_run.
    unfold mbind at 1, M_bind at 1.
    change (mkBenchmarkResult buffer_size_in_bytes padded_bytes_per_element
              page_size NUM_LOGICAL_LOADS UINT64_MAX 0 0 0 0)
      with (initial_result buffer_size_in_bytes padded_bytes_per_element
              page_size).
    match goal with
    | |- context [trials env ?n start_ptr 0 ?r ?w0] =>
        destruct (trials_run env start_ptr (reads w) n 0 r w0 eq_refl)
          as (trial_events & Htrials & Htrial_events)
    end.
    change (Z.of_nat 0) with 0 in Htrials. rewrite Htrials.
    do 6 (unfold mbind at 1, M_bind at 1; rewrite emit_run).
    unfold print_csv_row. rewrite emit_run. rewrite retained_warmups.
    eexists _, _, _. split; [reflexivity|].
    cbn [trace record after_stores mem reads]. rewrite <- !app_assoc.
    split; [reflexivity|].
    match goal with
    | |- context [ECsvRow ?result] =>
        shape_with ([EAlloc alignment size buffer] ++ advice
                    ++ ((λ s, EWrite s.1 s.2) <$> stores))
                   (open_events env cycle_counter CYCLES_EVENT (-1)
                    ++ follower_open_events env ++ [EEnable cycle_counter]
                    ++ trial_events
                    ++ [EDisable cycle_counter; EClose tlb_miss_counter;
                        EClose l3_miss_counter; EClose l2_miss_counter;
                        EClose l1d_miss_counter; EClose cycle_counter;
                        ECsvRow result; EFree buffer])
    end.
    by apply shape_measured.
  - do 4 (unfold mbind at 1, M_bind at 1; rewrite close_counter_run).
    rewrite close_counter_run.
    eexists _, _, _. split; [reflexivity|].
    cbn [trace record after_stores mem reads]. rewrite <- !app_assoc.
    split; [reflexivity|].
    shape_with ([EAlloc alignment size buffer] ++ advice
                ++ ((λ s, EWrite s.1 s.2) <$> stores))
               (open_events env cycle_counter CYCLES_EVENT (-1)
                ++ follower_open_events env ++ failure_close_events env
                ++ [EFree buffer]).
    by apply shape_follower_failed.
Qed.

Lemma new_events_app (w w' : world) (events : list event) :
  trace w' = trace w ++ events → new_events w w' = events.
Proof. intros Htrace. unfold new_events. by rewrite Htrace, drop_app_length. Qed.

Lemma open_events_counter (env : environment) (c : counter) (name : string)
    (group_fd : Z) :
  Forall is_counter_event (open_events env c name group_fd).
Proof.
  unfold open_events.
  destruct (is_valid (perf_counter_open_by_name env c name group_fd));
    by repeat constructor.
Qed.

Lemma close_events_counter (c : counter) (handle : perf_counter) :
  Forall is_counter_event (close_events c handle).
Proof. unfold close_events. destruct (is_valid handle); by repeat constructor. Qed.

Lemma follower_open_events_counter (env : environment) :
  Forall is_counter_event (follower_open_events env).
Proof.
  unfold follower_open_events. rewrite !Forall_app.
  repeat split; apply open_events_counter.
Qed.

Lemma failure_close_events_counter (env : environment) :
  Forall is_counter_event (failure_close_events env).
Proof.
  unfold failure_close_events. rewrite !Forall_app.
  repeat split; apply close_events_counter.
Qed.

(** An [EOpen] among the events of [open_counter] is the one of its call. *)
Lemma open_events_open (env : environment) (c c' : counter)
    (name name' : string) (group_fd group_fd' : Z) (handle : perf_counter) :
  EOpen c' name' group_fd' handle ∈ open_events env c name group_fd →
  c' = c ∧ handle = perf_counter_open_by_name env c name group_fd.
Proof.
  unfold open_events. intros [Heq|Hin]%elem_of_cons.
  - by injection Heq as -> _ _ ->.
  - destruct (is_valid _).
    + by apply elem_of_nil in Hin.
    + apply list_elem_of_singleton in Hin. discriminate Hin.
Qed.

Lemma not_row_of_buffer_events (events : list event) (result : BenchmarkResult) :
  Forall is_buffer_event events → ECsvRow result ∉ events.
Proof. intros Hall Hin. by apply (proj1 (list.Forall_forall _ _) Hall) in Hin. Qed.

Lemma not_row_of_counter_events (events : list event) (result : BenchmarkResult) :
  Forall is_counter_event events → ECsvRow result ∉ events.
Proof. intros Hall Hin. by apply (proj1 (list.Forall_forall _ _) Hall) in Hin. Qed.

Lemma not_row_of_trial_events (events : list event) (result : BenchmarkResult) :
  Forall is_trial_event events → ECsvRow result ∉ events.
Proof. intros Hall Hin. by apply (proj1 (list.Forall_forall _ _) Hall) in Hin. Qed.

Lemma not_open_of_buffer_events (events : list event) (c : counter)
    (name : string) (group_fd : Z) (handle : perf_counter) :
  Forall is_buffer_event events → EOpen c name group_fd handle ∉ events.
Proof. intros Hall Hin. by apply (proj1 (list.Forall_forall _ _) Hall) in Hin. Qed.

Lemma not_open_of_trial_events (events : list event) (c : counter)
    (name : string) (group_fd : Z) (handle : perf_counter) :
  Forall is_trial_event events → EOpen c name group_fd handle ∉ events.
Proof. intros Hall Hin. by apply (proj1 (list.Forall_forall _ _) Hall) in Hin. Qed.

(** The row of a call of [run_benchmark], if there is one, is the result
    of the measured trials, and the five counters were opened. *)
Lemma run_shape_row (env : environment) (first : nat)
    (buffer_size_in_bytes padded_bytes_per_element : Z) (out : outcome unit)
    (events : list event) (result : BenchmarkResult) :
  run_shape env first buffer_size_in_bytes padded_bytes_per_element out events →
  ECsvRow result ∈ events →
  is_valid (cycle_handle env) = true
  ∧ followers_valid env = true
  ∧ ∃ page_size,
      result = retained env first measured_trials
                 (initial_result buffer_size_in_bytes padded_bytes_per_element
                    page_size).
Proof.
  intros Hshape Hrow.
  destruct Hshape as [out events Hall
                     |setup buffer Hsetup Hcycle
                     |setup buffer Hsetup Hcycle Hfollowers
                     |setup buffer page_size trial_events Hsetup Hcycle
                        Hfollowers Htrials].
  - by apply not_row_of_buffer_events in Hrow.
  - rewrite !elem_of_app in Hrow. destruct Hrow as [Hrow|[Hrow|Hrow]].
    + by apply not_row_of_buffer_events in Hrow.
    + by apply not_row_of_counter_events in Hrow;
        [|apply open_events_counter].
    + apply list_elem_of_singleton in Hrow. discriminate Hrow.
  - rewrite !elem_of_app in Hrow.
    destruct Hrow as [Hrow|[Hrow|[Hrow|[Hrow|Hrow]]]].
    + by apply not_row_of_buffer_events in Hrow.
    + by apply not_row_of_counter_events in Hrow;
        [|apply open_events_counter].
    + by apply not_row_of_counter_events in Hrow;
        [|apply follower_open_events_counter].
    + by apply not_row_of_counter_events in Hrow;
        [|apply failure_close_events_counter].
    + apply list_elem_of_singleton in Hrow. discriminate Hrow.
  - split; [exact Hcycle|]. split; [exact Hfollowers|].
    exists page_size. rewrite !elem_of_app in Hrow.
    destruct Hrow as [Hrow|[Hrow|[Hrow|[Hrow|[Hrow|Hrow]]]]].
    + by apply not_row_of_buffer_events in Hrow.
    + by apply not_row_of_counter_events in Hrow;
        [|apply open_events_counter].
    + by apply not_row_of_counter_events in Hrow;
        [|apply follower_open_events_counter].
    + apply list_elem_of_singleton in Hrow. discriminate Hrow.
    + by apply not_row_of_trial_events in Hrow.
    + rewrite !elem_of_cons in Hrow.
      destruct Hrow as [Hrow|[Hrow|[Hrow|[Hrow|[Hrow|[Hrow|[Hrow|[Hrow|Hrow]]]]]]]];
        try discriminate Hrow.
      * by injection Hrow.
      * by apply elem_of_nil in Hrow.
Qed.

(** ** The harness: the retained trial *)

Lemma reading_from_start (env : environment) (first k : nat) (c : counter) :
  reading env first k c = reading env 0 (k + first) c.
Proof. unfold reading. by rewrite Nat.add_0_r. Qed.

Lemma elapsed_cycles_monotonic (env : environment) (first : nat) :
  monotonic_readings env cycle_counter →
  elapsed_cycles env first
  = reading env first 5 cycle_counter - reading env first 4 cycle_counter.
Proof.
  intros Hmono. unfold elapsed_cycles.
  pose proof (Hmono (4 + first) (5 + first))%nat as Hle.
  rewrite <- !reading_from_start in Hle.
  pose proof (wrap64_range (perf_counter_read_value env (5 + first) cycle_counter)).
  pose proof (wrap64_range (perf_counter_read_value env (4 + first) cycle_counter)).
  fold (reading env first 5 cycle_counter) in *.
  fold (reading env first 4 cycle_counter) in *.
  unfold wrap64 at 1. unfold UINT64_MAX in *.
  apply Z.mod_small. lia.
Qed.

(** A counter that never decreases cannot advance by [2^64 - 1] in each of
    two trials. *)
Lemma monotonic_cycles_not_both_max (env : environment) (first : nat) :
  monotonic_readings env cycle_counter →
  elapsed_cycles env (trial_start first 3) = UINT64_MAX →
  elapsed_cycles env (trial_start first 4) < UINT64_MAX.
Proof.
  intros Hmono.
  rewrite !elapsed_cycles_monotonic by exact Hmono.
  rewrite (reading_from_start env (trial_start first 3) 5),
    (reading_from_start env (trial_start first 3) 4),
    (reading_from_start env (trial_start first 4) 5),
    (reading_from_start env (trial_start first 4) 4).
  pose proof (Hmono (5 + trial_start first 3) (4 + trial_start first 4))%nat
    as H34.
  pose proof (Hmono (4 + trial_start first 4) (5 + trial_start first 4))%nat
    as H44.
  unfold reading in *.
  pose proof (wrap64_range
                (perf_counter_read_value env (4 + trial_start first 3 + 0)
                   cycle_counter)).
  pose proof (wrap64_range
                (perf_counter_read_value env (5 + trial_start first 4 + 0)
                   cycle_counter)).
  unfold trial_start, UINT64_MAX in *.
  specialize (H34 ltac:(lia)). specialize (H44 ltac:(lia)). lia.
Qed.

Lemma seq_split_before (a n : nat) (earlier later : list nat) (j i : nat) :
  seq a n = earlier ++ j :: later →
  i ∈ seq a n → (i < j)%nat → i ∈ earlier.
Proof.
  revert a n. induction earlier as [|x earlier IH]; intros a n Hsplit Hi Hlt.
  - destruct n as [|n]; [discriminate Hsplit|].
    injection Hsplit as <- _. apply elem_of_seq in Hi. lia.
  - destruct n as [|n]; [discriminate Hsplit|].
    injection Hsplit as <- Hsplit.
    apply elem_of_seq in Hi.
    destruct (decide (i = a)) as [->|Hne]; [by left|].
    right. apply (IH (S a) n Hsplit); [|exact Hlt].
    apply elem_of_seq. lia.
Qed.

(** The result of the measured trials is that of the first trial with the
    fewest elapsed cycles. *)
Lemma retained_measured (env : environment) (first : nat)
    (buffer_size_in_bytes padded_bytes_per_element page_size : Z) :
  monotonic_readings env cycle_counter →
  let cycles := λ i, elapsed_cycles env (trial_start first i) in
  let result :=
    retained env first measured_trials
      (initial_result buffer_size_in_bytes padded_bytes_per_element page_size)
  in
  ∃ j, j ∈ measured_trials
       ∧ cycle_count result = cycles j
       ∧ (∀ i, i ∈ measured_trials → cycles j ≤ cycles i)
       ∧ (∀ i, i ∈ measured_trials → (i < j)%nat → cycles j < cycles i)
       ∧ misses_of_trial env (trial_start first j) result.
Proof.
  intros Hmono cycles result.
  destruct (retained_selects env first measured_trials
              (initial_result buffer_size_in_bytes padded_bytes_per_element
                 page_size))
    as (_ & _ & _ & _ & _ & Hmin & Hsel).
  { intros i Hi. apply elem_of_seq in Hi. unfold NUM_WARMUPS in *. lia. }
  fold result in Hmin, Hsel. fold cycles in Hmin, Hsel.
  destruct Hsel as [Hkept|(earlier & j & later & Hsplit & Hj & _ & Hmiss & Hfirst)].
  - exfalso.
    assert (cycle_count result = UINT64_MAX) as Hmax by (by rewrite Hkept).
    pose proof (Hmin 3%nat) as H3. pose proof (Hmin 4%nat) as H4.
    rewrite Hmax in H3, H4.
    pose proof (wrap64_range
                  (reading env (trial_start first 3) 5 cycle_counter
                   - reading env (trial_start first 3) 4 cycle_counter)) as R3.
    fold (elapsed_cycles env (trial_start first 3)) in R3.
    pose proof (monotonic_cycles_not_both_max env first Hmono) as Hnot.
    unfold cycles in H3, H4. cbv beta in H3, H4.
    assert (3%nat ∈ measured_trials) as Hin3
      by (apply elem_of_seq; unfold NUM_WARMUPS, NUM_TRIALS; lia).
    assert (4%nat ∈ measured_trials) as Hin4
      by (apply elem_of_seq; unfold NUM_WARMUPS, NUM_TRIALS; lia).
    specialize (H3 Hin3). specialize (H4 Hin4). lia.
  - exists j. split.
    { rewrite Hsplit. apply elem_of_app. right. by left. }
    split; [exact Hj|]. split.
    { intros i Hi. specialize (Hmin i Hi). unfold cycles in *. cbv beta in *. lia. }
    split; [|exact Hmiss].
    intros i Hi Hlt. apply Hfirst.
    by apply (seq_split_before _ _ _ _ _ _ Hsplit).
Qed.

(** Without a trial that is faster than the initial [UINT64_MAX] the
    result stays the initial one, with its miss counts of 0; readings that
    never decrease rule this out ([retained_measured]). *)
Lemma retained_without_faster_trial (env : environment) (first : nat)
    (buffer_size_in_bytes padded_bytes_per_element page_size : Z) :
  (∀ i, i ∈ measured_trials →
        elapsed_cycles env (trial_start first i) = UINT64_MAX) →
  retained env first measured_trials
    (initial_result buffer_size_in_bytes padded_bytes_per_element page_size)
  = initial_result buffer_size_in_bytes padded_bytes_per_element page_size.
Proof.
  intros Hmax.
  destruct (retained_selects env first measured_trials
              (initial_result buffer_size_in_bytes padded_bytes_per_element
                 page_size))
    as (_ & _ & _ & _ & _ & _ & Hsel).
  { intros i Hi. apply elem_of_seq in Hi. unfold NUM_WARMUPS in *. lia. }
  destruct Hsel as [Hkept|(earlier & j & later & Hsplit & _ & Hlt & _)];
    [exact Hkept|].
  rewrite Hmax in Hlt.
  - cbn [cycle_count initial_result] in Hlt. lia.
  - rewrite Hsplit. apply elem_of_app. right. by left.
Qed.

(** C1: with a cycle counter whose readings never decrease, the row that
    [run_benchmark] prints after the 3 + 10 trials has the fewest elapsed
    cycles ([end_cycles - start_cycles]) of the 10 measured trials as its
    cycle count, and its four miss counts are the end-minus-start deltas of
    that same trial (the first one with that cycle count), not of another
    one; the readings of the warmup trials do not matter: the trial loop
    retains the same result in every environment that gives the same
    readings in the measured trials. *)
Theorem minimum_cycle_trial_is_retained `{StdShuffle} (env : environment)
    (buffer_size_in_bytes padded_bytes_per_element : Z) (use_hugepage : bool)
    (w : world) (result : BenchmarkResult) :
  monotonic_readings env cycle_counter →
  ECsvRow result
  ∈ new_events w (run_benchmark env buffer_size_in_bytes
                    padded_bytes_per_element use_hugepage w).2 →
  let cycles := λ i, elapsed_cycles env (trial_start (reads w) i) in
  (∃ j, j ∈ measured_trials
        ∧ cycle_count result = cycles j
        ∧ (∀ i, i ∈ measured_trials → cycles j ≤ cycles i)
        ∧ (∀ i, i ∈ measured_trials → (i < j)%nat → cycles j < cycles i)
        ∧ misses_of_trial env (trial_start (reads w) j) result)
  ∧ (∀ env' start_ptr w0,
       reads w0 = reads w →
       (∀ i k c, i ∈ measured_trials → (k < 10)%nat →
                 reading env' (trial_start (reads w) i) k c
                 = reading env (trial_start (reads w) i) k c) →
       ∃ page_size,
         (trials env' (Z.to_nat (NUM_WARMUPS + NUM_TRIALS)) start_ptr 0
            (initial_result buffer_size_in_bytes padded_bytes_per_element
               page_size) w0).1
         = Ret result).
Proof.
  intros Hmono Hrow cycles.
  destruct (run_benchmark_shape env buffer_size_in_bytes
              padded_bytes_per_element use_hugepage w)
    as (out & w' & events & Hrun & Htrace & Hshape).
  rewrite Hrun in Hrow. cbn [snd] in Hrow.
  rewrite (new_events_app _ _ _ Htrace) in Hrow.
  destruct (run_shape_row _ _ _ _ _ _ _ Hshape Hrow)
    as (_ & _ & page_size & ->).
  split.
  - by apply retained_measured.
  - intros env' start_ptr w0 Hreads Hsame. exists page_size.
    destruct (trials_run env' start_ptr (reads w)
                (Z.to_nat (NUM_WARMUPS + NUM_TRIALS)) 0
                (initial_result buffer_size_in_bytes padded_bytes_per_element
                   page_size) w0) as (trial_events & Htrials & _).
    { rewrite Hreads. reflexivity. }
    change (Z.of_nat 0) with 0 in Htrials. rewrite Htrials. cbn [fst].
    f_equal. rewrite retained_warmups. by apply retained_ext.
Qed.

Lemma example_cycles_bounds (k : nat) :
  Z.of_nat k * 1000 ≤ example_cycles k ≤ Z.of_nat k * 1000 + 90.
Proof.
  unfold example_cycles. destruct (5 <=? k mod 10)%nat; [|lia].
  generalize (k `div` 10)%nat. intros i.
  do 14 (destruct i as [|i]; [simpl; lia|]). simpl. lia.
Qed.

Lemma example_environment_monotonic :
  monotonic_readings example_environment cycle_counter.
Proof.
  intros k k' Hle. unfold reading, example_environment.
  cbn [perf_counter_read_value]. rewrite !Nat.add_0_r.
  pose proof (example_cycles_bounds k) as Hk.
  pose proof (example_cycles_bounds k') as Hk'.
  unfold wrap64, UINT64_MAX. rewrite !Z.mod_small by lia.
  destruct (decide (k = k')) as [->|Hne]; [lia|].
  assert (Z.of_nat k + 1 ≤ Z.of_nat k') by lia. lia.
Qed.

(** The example run: the fifth measured trial (index 6) is the fastest. *)
Example example_run :
  let run := run_benchmark example_environment 1024 64 false empty_world in
  run.1 = Ret ()
  ∧ take 2 (trace run.2)
    = [EAlloc 4096 4096 65536; EMadvise 65536 1024 false 0]
  ∧ take 6 (drop 18 (trace run.2))
    = [EOpen cycle_counter "CYCLES" (-1) (PerfCounter 3 true);
       EOpen l1d_miss_counter "L1-DCACHE-LOAD-MISSES" 3 (PerfCounter 4 true);
       EOpen l2_miss_counter "LLC-LOAD-MISSES" 3 (PerfCounter 5 true);
       EOpen l3_miss_counter "LLC-LOAD-MISSES" 3 (PerfCounter 6 true);
       EOpen tlb_miss_counter "DTLB-LOAD-MISSES" 3 (PerfCounter 7 true);
       EEnable cycle_counter]
  ∧ drop 167 (trace run.2)
    = [EDisable cycle_counter; EClose tlb_miss_counter;
       EClose l3_miss_counter; EClose l2_miss_counter;
       EClose l1d_miss_counter; EClose cycle_counter;
       ECsvRow example_result; EFree 65536]
  ∧ (λ i, elapsed_cycles example_environment (trial_start 0 i)) <$> seq 0 13
    = [1090; 1080; 1070; 1050; 1030; 1045; 1028; 1060; 1055; 1040; 1035;
       1061; 1052].
Proof. vm_compute. repeat split; reflexivity. Qed.

Lemma minimum_cycle_trial_is_retained_witness :
  monotonic_readings example_environment cycle_counter
  ∧ ECsvRow example_result
    ∈ new_events empty_world
        (run_benchmark example_environment 1024 64 false empty_world).2
  ∧ ∃ j, j ∈ measured_trials
         ∧ cycle_count example_result
           = elapsed_cycles example_environment (trial_start 0 j)
         ∧ misses_of_trial example_environment (trial_start 0 j)
                           example_result.
Proof.
  assert (ECsvRow example_result
          ∈ new_events empty_world
              (run_benchmark example_environment 1024 64 false empty_world).2)
    as Hrow.
  { vm_compute.
    repeat first [apply list_elem_of_here | apply list_elem_of_further]. }
  split; [exact example_environment_monotonic|]. split; [exact Hrow|].
  destruct (minimum_cycle_trial_is_retained example_environment 1024 64 false
              empty_world example_result example_environment_monotonic Hrow)
    as ((j & Hj & Hcycles & _ & _ & Hmisses) & _).
  exists j. split; [exact Hj|]. split; [exact Hcycles|exact Hmisses].
Defined.

(** ** The harness: skipped configurations *)

(** C8: when [buffer_size_in_bytes] is not an exact multiple of the
    (nonzero) [padded_bytes_per_element], [run_benchmark] writes an error
    message to the diagnostic stream and does nothing else: no row, no
    allocation, memory untouched; it returns normally, so whatever the
    caller does next (the rest of the sweep) runs, from that world. *)
Theorem non_multiple_size_is_skipped `{StdShuffle} (env : environment)
    (buffer_size_in_bytes padded_bytes_per_element : Z) (use_hugepage : bool)
    (w : world) :
  0 < padded_bytes_per_element →
  ¬ (padded_bytes_per_element | buffer_size_in_bytes) →
  let run := run_benchmark env buffer_size_in_bytes padded_bytes_per_element
                           use_hugepage w in
  run.1 = Ret ()
  ∧ (∃ message, new_events w run.2 = [EStderr message])
  ∧ (∀ result, ECsvRow result ∉ new_events w run.2)
  ∧ (∀ alignment size address,
       EAlloc alignment size address ∉ new_events w run.2)
  ∧ mem run.2 = mem w
  ∧ (∀ (A : Type) (rest : M A),
       (run_benchmark env buffer_size_in_bytes padded_bytes_per_element
                      use_hugepage ≫= λ _, rest) w
       = rest run.2).
Proof.
  intros Hpos Hnot run.
  assert (run = (Ret (), record [EStderr ("Error: `buffer_size_in_bytes` must be a multiple of `padded_bytes_per_element`" ++ newline)] w))
    as Hrun.
  { unfold run, run_benchmark.
    replace (padded_bytes_per_element =? 0) with false
      by (symmetry; apply Z.eqb_neq; lia).
    replace (buffer_size_in_bytes mod padded_bytes_per_element =? 0) with false.
    - reflexivity.
    - symmetry. apply Z.eqb_neq. intros Hmod. apply Hnot.
      apply Z.mod_divide; [lia|exact Hmod]. }
  assert (new_events w run.2 = [EStderr ("Error: `buffer_size_in_bytes` must be a multiple of `padded_bytes_per_element`" ++ newline)])
    as Hevents.
  { rewrite Hrun. by apply new_events_app. }
  split; [by rewrite Hrun|].
  split; [by eexists|].
  split.
  { intros result Hin. rewrite Hevents in Hin.
    apply list_elem_of_singleton in Hin. discriminate Hin. }
  split.
  { intros alignment size address Hin. rewrite Hevents in Hin.
    apply list_elem_of_singleton in Hin. discriminate Hin. }
  split; [by rewrite Hrun|].
  intros A rest. unfold mbind, M_bind. fold run. by rewrite Hrun.
Qed.

Lemma non_multiple_size_is_skipped_witness :
  0 < 64
  ∧ ¬ (64 | 1000)
  ∧ (run_benchmark example_environment 1000 64 true empty_world).1 = Ret ().
Proof.
  assert (0 < 64) as Hpos by lia.
  assert (¬ (64 | 1000)) as Hnot.
  { intros [q Hq]. lia. }
  split; [exact Hpos|]. split; [exact Hnot|].
  exact (proj1 (non_multiple_size_is_skipped example_environment 1000 64 true
                  empty_world Hpos Hnot)).
Defined.

Lemma opened_handle_valid (env : environment) (c : counter) :
  is_valid (cycle_handle env) = true →
  followers_valid env = true →
  is_valid (opened_handle env c) = true.
Proof.
  intros Hcycle Hfollowers. unfold followers_valid in Hfollowers.
  repeat apply andb_prop in Hfollowers as [Hfollowers ?].
  by destruct c.
Qed.

Lemma opened_handle_closed (env : environment) (c : counter) :
  is_valid (opened_handle env c) = true →
  EClose c ∈ failure_close_events env.
Proof.
  intros Hvalid. unfold failure_close_events. rewrite !elem_of_app.
  destruct c; cbn [opened_handle] in Hvalid.
  - do 4 right. unfold close_events. rewrite Hvalid. by left.
  - left. unfold close_events. rewrite Hvalid. by left.
  - right. left. unfold close_events. rewrite Hvalid. by left.
  - do 2 right. left. unfold close_events. rewrite Hvalid. by left.
  - do 3 right. left. unfold close_events. rewrite Hvalid. by left.
Qed.

(** An [EOpen] among the events of the five calls of [open_counter]
    carries the handle of its counter. *)
Lemma opened_handle_open (env : environment) (c : counter) (name : string)
    (group_fd : Z) (handle : perf_counter) :
  EOpen c name group_fd handle
  ∈ open_events env cycle_counter CYCLES_EVENT (-1) ++ follower_open_events env →
  handle = opened_handle env c.
Proof.
  unfold follower_open_events. rewrite !elem_of_app.
  intros [Hin|[Hin|[Hin|[Hin|Hin]]]];
    apply open_events_open in Hin as [-> ->]; reflexivity.
Qed.

Lemma not_open_of_close_events (env : environment) (c : counter)
    (name : string) (group_fd : Z) (handle : perf_counter) :
  EOpen c name group_fd handle ∉ failure_close_events env.
Proof.
  unfold failure_close_events, close_events. rewrite !elem_of_app.
  intros [Hin|[Hin|[Hin|[Hin|Hin]]]];
    destruct (is_valid _);
    first [by apply elem_of_nil in Hin
          |apply list_elem_of_singleton in Hin; discriminate Hin].
Qed.

(** A handle that is not valid among the events of a call tells that the
    leader or a follower did not open. *)
Lemma run_shape_failed (env : environment) (first : nat)
    (buffer_size_in_bytes padded_bytes_per_element : Z) (out : outcome unit)
    (events : list event) (c : counter) (name : string) (group_fd : Z)
    (handle : perf_counter) :
  run_shape env first buffer_size_in_bytes padded_bytes_per_element out events →
  EOpen c name group_fd handle ∈ events →
  is_valid handle = false →
  is_valid (cycle_handle env) = false ∨ followers_valid env = false.
Proof.
  intros Hshape Hin Hinvalid.
  destruct Hshape as [out events Hall
                     |setup buffer Hsetup Hcycle
                     |setup buffer Hsetup Hcycle Hfollowers
                     |setup buffer page_size trial_events Hsetup Hcycle
                        Hfollowers Htrials]; [|by left|by right|].
  - by apply not_open_of_buffer_events in Hin.
  - exfalso. rewrite !elem_of_app in Hin.
    destruct Hin as [Hin|[Hin|[Hin|[Hin|[Hin|Hin]]]]].
    + by apply not_open_of_buffer_events in Hin.
    + assert (handle = opened_handle env c) as ->
        by (eapply opened_handle_open, elem_of_app; by left).
      by rewrite opened_handle_valid in Hinvalid.
    + assert (handle = opened_handle env c) as ->
        by (eapply opened_handle_open, elem_of_app; by right).
      by rewrite opened_handle_valid in Hinvalid.
    + apply list_elem_of_singleton in Hin. discriminate Hin.
    + by apply not_open_of_trial_events in Hin.
    + rewrite !elem_of_cons in Hin.
      destruct Hin as [Hin|[Hin|[Hin|[Hin|[Hin|[Hin|[Hin|[Hin|Hin]]]]]]]];
        try discriminate Hin.
      by apply elem_of_nil in Hin.
Qed.

(** C9: if one of the five counters does not open validly in a call of
    [run_benchmark], the call returns normally, prints no row, and every
    counter that it opened validly is closed afterwards. *)
Theorem failed_counter_open_is_skipped `{StdShuffle} (env : environment)
    (buffer_size_in_bytes padded_bytes_per_element : Z) (use_hugepage : bool)
    (w : world) :
  let run := run_benchmark env buffer_size_in_bytes padded_bytes_per_element
                           use_hugepage w in
  (∃ c name group_fd handle,
     EOpen c name group_fd handle ∈ new_events w run.2
     ∧ is_valid handle = false) →
  run.1 = Ret ()
  ∧ (∀ result, ECsvRow result ∉ new_events w run.2)
  ∧ (∀ c name group_fd handle,
       EOpen c name group_fd handle ∈ new_events w run.2 →
       is_valid handle = true →
       ∃ before after,
         new_events w run.2 = before ++ EOpen c name group_fd handle :: after
         ∧ EClose c ∈ after).
Proof.
  intros run (c0 & name0 & group_fd0 & handle0 & Hfailed & Hinvalid).
  destruct (run_benchmark_shape env buffer_size_in_bytes
              padded_bytes_per_element use_hugepage w)
    as (out & w' & events & Hrun & Htrace & Hshape).
  unfold run in *. rewrite Hrun in *. cbn [fst snd] in *.
  rewrite (new_events_app _ _ _ Htrace) in *.
  assert (∀ result, ECsvRow result ∉ events) as Hnorow.
  { intros result Hrow.
    destruct (run_shape_row _ _ _ _ _ _ _ Hshape Hrow)
      as (Hcycle & Hfollowers & _).
    destruct (run_shape_failed _ _ _ _ _ _ _ _ _ _ Hshape Hfailed Hinvalid);
      congruence. }
  destruct Hshape as [out events Hall
                     |setup buffer Hsetup Hcycle
                     |setup buffer Hsetup Hcycle Hfollowers
                     |setup buffer page_size trial_events Hsetup Hcycle
                        Hfollowers Htrials].
  - by apply not_open_of_buffer_events in Hfailed.
  - split; [reflexivity|]. split; [exact Hnorow|].
    intros c name group_fd handle Hin Hvalid. exfalso.
    rewrite !elem_of_app in Hin. destruct Hin as [Hin|[Hin|Hin]].
    + by apply not_open_of_buffer_events in Hin.
    + apply open_events_open in Hin as [-> ->].
      fold (cycle_handle env) in Hvalid. congruence.
    + apply list_elem_of_singleton in Hin. discriminate Hin.
  - split; [reflexivity|]. split; [exact Hnorow|].
    intros c name group_fd handle Hin Hvalid.
    rewrite (app_assoc (open_events _ _ _ _)) in Hin |- *.
    apply elem_of_app in Hin as [Hin|Hin];
      [|apply elem_of_app in Hin as [Hin|Hin];
        [|apply elem_of_app in Hin as [Hin|Hin]]].
    + by apply not_open_of_buffer_events in Hin.
    + pose proof (opened_handle_open _ _ _ _ _ Hin) as ->.
      apply list_elem_of_split in Hin as (opens1 & opens2 & ->).
      exists (setup ++ opens1),
             (opens2 ++ failure_close_events env ++ [EFree buffer]).
      split.
      * rewrite <- !app_assoc. reflexivity.
      * apply elem_of_app. right. apply elem_of_app. left.
        apply opened_handle_closed. exact Hvalid.
    + exfalso. by apply not_open_of_close_events in Hin.
    + apply list_elem_of_singleton in Hin. discriminate Hin.
  - exfalso. exact (Hnorow _ ltac:(
      rewrite !elem_of_app; do 5 right; do 6 apply list_elem_of_further;
      apply list_elem_of_here)).
Qed.

(** When the event of the L2 misses does not open, the counters that did
    open are closed, the buffer is freed, and no row is printed. *)
Example example_run_without_l2 :
  let run :=
    run_benchmark example_environment_without_l2 1024 64 false empty_world in
  run.1 = Ret ()
  ∧ drop 18 (trace run.2)
    = [EOpen cycle_counter "CYCLES" (-1) (PerfCounter 3 true);
       EOpen l1d_miss_counter "L1-DCACHE-LOAD-MISSES" 3 (PerfCounter 3 true);
       EOpen l2_miss_counter "LLC-LOAD-MISSES" 3 (PerfCounter 3 false);
       EStderr ("Error: Failed to open performance counter for event 'LLC-LOAD-MISSES'."
                ++ newline);
       EOpen l3_miss_counter "LLC-LOAD-MISSES" 3 (PerfCounter 3 true);
       EOpen tlb_miss_counter "DTLB-LOAD-MISSES" 3 (PerfCounter 3 true);
       EClose l1d_miss_counter; EClose l3_miss_counter;
       EClose tlb_miss_counter; EClose cycle_counter;
       EFree 65536].
Proof. vm_compute. split; reflexivity. Qed.

Lemma failed_counter_open_is_skipped_witness :
  (∃ c name group_fd handle,
     EOpen c name group_fd handle
     ∈ new_events empty_world
         (run_benchmark example_environment_without_l2 1024 64 false
                        empty_world).2
     ∧ is_valid handle = false)
  ∧ (run_benchmark example_environment_without_l2 1024 64 false
                   empty_world).1 = Ret ().
Proof.
  assert (∃ c name group_fd handle,
            EOpen c name group_fd handle
            ∈ new_events empty_world
                (run_benchmark example_environment_without_l2 1024 64 false
                               empty_world).2
            ∧ is_valid handle = false) as Hfailed.
  { exists l2_miss_counter, "LLC-LOAD-MISSES"%string, 3, (PerfCounter 3 false).
    split; [|reflexivity]. vm_compute.
    repeat first [apply list_elem_of_here | apply list_elem_of_further]. }
  split; [exact Hfailed|].
  exact (proj1 (failed_counter_open_is_skipped example_environment_without_l2
                  1024 64 false empty_world Hfailed)).
Defined.

(** * Further properties of the chain builder *)

Lemma apply_stores_other (stores : list (Z * Z)) (m : Z → Z) (a : Z) :
  Forall (λ s, a < s.1 ∨ s.1 + sizeof_MemoryAddress ≤ a) stores →
  apply_stores stores m a = m a.
Proof.
  revert m. induction stores as [|[p v] stores IH]; intros m Hall.
  - reflexivity.
  - inversion Hall as [|? ? Hp Hrest]; subst.
    rewrite apply_stores_cons, IH by assumption.
    apply store_bytes_other. cbn [fst] in Hp.
    unfold sizeof_MemoryAddress in *.
    change (Z.of_nat (Z.to_nat 8)) with 8. lia.
Qed.

(** X1: with valid arguments and fewer than [2^31] elements
    [generate_random_pointer_chasing] changes nothing but the pointer
    fields (the first [sizeof(MemoryAddress)] bytes) of the
    [num_elements] slots: a byte that is in none of them keeps its value,
    so the padding of the slots and all memory outside the buffer are
    untouched (also when the call throws for want of memory). *)
Theorem builder_writes_only_pointer_fields `{StdShuffle} (env : environment)
    (buffer num_elements padded seed : Z) (w : world) :
  valid_chain_arguments buffer num_elements padded →
  num_elements < 2 ^ 31 →
  let w' :=
    (generate_random_pointer_chasing env buffer num_elements padded seed w).2
  in
  (∀ a, (∀ index, 0 ≤ index < num_elements →
                  a < slot buffer padded index
                  ∨ slot buffer padded index + sizeof_MemoryAddress ≤ a) →
        mem w' a = mem w a)
  ∧ (∀ a, a < buffer ∨ buffer + num_elements * padded ≤ a →
          mem w' a = mem w a).
Proof.
  intros valid Hsmall w'.
  assert (∀ a, (∀ index, 0 ≤ index < num_elements →
                         a < slot buffer padded index
                         ∨ slot buffer padded index + sizeof_MemoryAddress ≤ a) →
               mem w' a = mem w a) as Hframe.
  { intros a Hout. unfold w'.
    rewrite (valid_generate_random_pointer_chasing_cases _ _ _ _ valid).
    destruct (decide (vector_max_size < num_elements)); [reflexivity|].
    destruct (decide (operator_new env (num_elements * sizeof_size_t) = false));
      [reflexivity|].
    rewrite decide_False by (unfold INT_MAX; lia).
    cbn [snd mem after_stores]. apply apply_stores_other.
    apply list.Forall_forall. intros s Hs.
    apply list_elem_of_lookup_1 in Hs as [k Hk].
    apply chain_links_lookup_inv in Hk as [Hlt Hk].
    rewrite (valid_length_slots buffer num_elements padded seed) in Hlt.
    destruct (valid_slot_lookup buffer num_elements padded seed valid k Hlt)
      as (Hs & Hs' & _ & Hrange).
    rewrite Hs in Hk. injection Hk as <-. rewrite Hs'. by apply Hout. }
  split; [exact Hframe|].
  intros a Ha. apply Hframe. intros index Hindex.
  destruct valid as (_ & _ & _ & _ & Hs & _).
  unfold slot, sizeof_MemoryAddress in *. nia.
Qed.

Lemma builder_writes_only_pointer_fields_witness :
  valid_chain_arguments 4096 8 64
  ∧ 8 < 2 ^ 31
  ∧ mem (generate_random_pointer_chasing example_environment 4096 8 64 42
           empty_world).2 4104
    = mem empty_world 4104.
Proof.
  assert (8 < 2 ^ 31) as Hsmall by lia.
  split; [exact valid_chain_arguments_4096_8_64|]. split; [exact Hsmall|].
  apply (proj1 (builder_writes_only_pointer_fields example_environment
                  4096 8 64 42 empty_world valid_chain_arguments_4096_8_64
                  Hsmall)).
  intros index Hindex. unfold slot, sizeof_MemoryAddress. lia.
Defined.

(** X2: a call of [generate_random_pointer_chasing] that throws has changed
    nothing (the checks and the making of the index vector come before
    the first store), and what it throws is one of the three contract
    errors or one of the two exceptions of the index vector,
    [std::length_error] and [std::bad_alloc]. *)
Theorem builder_failure_writes_nothing `{StdShuffle} (env : environment)
    (buffer num_elements padded seed : Z) (w : world) (e : exn) :
  (generate_random_pointer_chasing env buffer num_elements padded seed w).1
  = Throw e →
  (generate_random_pointer_chasing env buffer num_elements padded seed w).2 = w
  ∧ (e = AlignmentError ∨ e = StrideAlignmentError ∨ e = StrideTooSmallError
     ∨ e = VectorLengthError ∨ e = bad_alloc).
Proof.
  destruct (decide (buffer = nullptr ∨ num_elements = 0)) as [Hnull|Hchecked].
  - rewrite generate_random_pointer_chasing_null by exact Hnull.
    intros Hthrow. discriminate Hthrow.
  - rewrite generate_random_pointer_chasing_checked by tauto.
    repeat case_decide; cbn [fst snd]; intros Hthrow;
      first [discriminate Hthrow | apply Throw_inj in Hthrow as <-];
      (split; [reflexivity|tauto]).
Qed.

Lemma builder_failure_writes_nothing_witness :
  (generate_random_pointer_chasing example_environment_without_heap
     4096 8 64 42 empty_world).1
  = Throw bad_alloc
  ∧ (generate_random_pointer_chasing example_environment_without_heap
       4096 8 64 42 empty_world).2
    = empty_world.
Proof.
  assert ((generate_random_pointer_chasing example_environment_without_heap
             4096 8 64 42 empty_world).1
          = Throw bad_alloc) as Hthrow by reflexivity.
  split; [exact Hthrow|].
  exact (proj1 (builder_failure_writes_nothing
                  example_environment_without_heap 4096 8 64 42 empty_world _
                  Hthrow)).
Defined.

(** X3: with valid arguments, fewer than [2^31] elements and an index
    vector whose storage is allocated, the walk from the entry address
    never leaves the buffer, however long it goes on: after any number of
    steps it is at the pointer field of a slot, which is not null, pointer
    aligned and inside the buffer; and it is periodic, [num_elements]
    further steps lead to the same slot. *)
Theorem walk_stays_in_the_buffer `{StdShuffle} (env : environment)
    (buffer num_elements padded seed : Z) (w : world) (steps : nat) :
  valid_chain_arguments buffer num_elements padded →
  num_elements < 2 ^ 31 →
  operator_new env (num_elements * sizeof_size_t) = true →
  ∃ entry w',
    generate_random_pointer_chasing env buffer num_elements padded seed w
    = (Ret entry, w')
    ∧ (∃ index, 0 ≤ index < num_elements
                ∧ follow (mem w') entry steps = slot buffer padded index)
    ∧ follow (mem w') entry steps ≠ nullptr
    ∧ follow (mem w') entry steps mod alignof_MemoryAddress = 0
    ∧ buffer ≤ follow (mem w') entry steps
    ∧ follow (mem w') entry steps + sizeof_MemoryAddress
      ≤ buffer + num_elements * padded
    ∧ follow (mem w') entry (steps + Z.to_nat num_elements)
      = follow (mem w') entry steps.
Proof.
  intros valid Hsmall Hnew.
  assert (0 < Z.to_nat num_elements)%nat as Hn
    by (destruct valid as (_ & _ & ? & _); lia).
  pose proof (valid_length_slots buffer num_elements padded seed) as Hlen.
  eexists _, _. split.
  { by apply valid_generate_random_pointer_chasing. }
  cbn [mem after_stores].
  rewrite !chain_links_follow;
    eauto using valid_slots_apart, valid_slots_in_range; try lia.
  rewrite Hlen, !Nat.add_0_l.
  destruct (valid_slot_lookup buffer num_elements padded seed valid
              (steps mod Z.to_nat num_elements))
    as (_ & Hslot & _ & Hrange).
  { apply Nat.mod_upper_bound. lia. }
  rewrite Hslot.
  pose proof valid as (Hb & Ha & _ & Hs & Hw & Hfit).
  unfold alignof_MemoryAddress, sizeof_MemoryAddress, nullptr in *.
  split; [eauto|]. split; [unfold slot; nia|]. split.
  { unfold slot. rewrite Z.add_mod, Ha, Z.mul_mod, Hs by lia.
    rewrite Z.mul_0_r. reflexivity. }
  split; [unfold slot; nia|]. split; [unfold slot; nia|].
  rewrite <- Hslot. f_equal.
  rewrite <- Nat.Div0.add_mod_idemp_r, Nat.Div0.mod_same, Nat.add_0_r.
  reflexivity.
Qed.

Lemma walk_stays_in_the_buffer_witness :
  valid_chain_arguments 4096 8 64
  ∧ 8 < 2 ^ 31
  ∧ operator_new example_environment (8 * sizeof_size_t) = true
  ∧ ∃ entry w',
      generate_random_pointer_chasing example_environment 4096 8 64 42
        empty_world
      = (Ret entry, w')
      ∧ 4096 ≤ follow (mem w') entry 1000.
Proof.
  assert (8 < 2 ^ 31) as Hsmall by lia.
  assert (operator_new example_environment (8 * sizeof_size_t) = true)
    as Hnew by reflexivity.
  split; [exact valid_chain_arguments_4096_8_64|].
  split; [exact Hsmall|]. split; [exact Hnew|].
  destruct (walk_stays_in_the_buffer example_environment 4096 8 64 42
              empty_world 1000 valid_chain_arguments_4096_8_64 Hsmall Hnew)
    as (entry & w' & Hrun & _ & _ & _ & Hlow & _).
  exists entry, w'. split; [exact Hrun|exact Hlow].
Defined.

(** X4: the chain has no distinguished start: with valid arguments,
    fewer than [2^31] elements and an index vector whose storage is
    allocated, from the pointer field of any slot of the buffer,
    [num_elements] steps lead back to that slot and no smaller positive
    number of steps does. *)
Theorem cycle_from_any_slot `{StdShuffle} (env : environment)
    (buffer num_elements padded seed : Z) (w : world) (index : Z) :
  valid_chain_arguments buffer num_elements padded →
  num_elements < 2 ^ 31 →
  operator_new env (num_elements * sizeof_size_t) = true →
  0 ≤ index < num_elements →
  let m :=
    mem (generate_random_pointer_chasing env buffer num_elements padded seed w).2
  in
  follow m (slot buffer padded index) (Z.to_nat num_elements)
  = slot buffer padded index
  ∧ ∀ steps, (0 < steps < Z.to_nat num_elements)%nat →
             follow m (slot buffer padded index) steps
             ≠ slot buffer padded index.
Proof.
  intros valid Hsmall Hnew Hindex m.
  pose proof (valid_length_slots buffer num_elements padded seed) as Hlen.
  apply (shuffled_indices_elem_of num_elements seed) in Hindex.
  apply list_elem_of_lookup_1 in Hindex as [k Hk].
  assert (k < Z.to_nat num_elements)%nat as Hlt.
  { rewrite <- (shuffled_indices_length num_elements seed).
    by eapply lookup_lt_Some. }
  destruct (valid_slot_lookup buffer num_elements padded seed valid k Hlt)
    as (Hs & Hslot & _).
  rewrite (list_lookup_total_correct _ _ _ Hk) in Hslot.
  unfold m.
  rewrite (valid_generate_random_pointer_chasing _ _ _ _ valid)
    by assumption.
  cbn [snd mem after_stores]. rewrite <- Hslot.
  split.
  - rewrite chain_links_follow;
      eauto using valid_slots_apart, valid_slots_in_range; [|lia].
    rewrite Hlen. f_equal.
    rewrite <- Nat.Div0.add_mod_idemp_r, Nat.Div0.mod_same, Nat.add_0_r.
    by apply Nat.mod_small.
  - intros steps Hsteps.
    rewrite chain_links_follow;
      eauto using valid_slots_apart, valid_slots_in_range; [|lia].
    rewrite Hlen. intros Heq.
    assert ((k + steps) mod Z.to_nat num_elements < Z.to_nat num_elements)%nat
      as Hlt' by (apply Nat.mod_upper_bound; lia).
    destruct (valid_slot_lookup buffer num_elements padded seed valid _ Hlt')
      as (Hs' & _).
    rewrite Heq in Hs'.
    assert ((k + steps) mod Z.to_nat num_elements ≠ k)%nat as Hne.
    { destruct (decide (k + steps < Z.to_nat num_elements)%nat).
      - rewrite Nat.mod_small by lia. lia.
      - replace (k + steps)%nat
          with (k + steps - Z.to_nat num_elements
                + 1 * Z.to_nat num_elements)%nat by lia.
        rewrite Nat.Div0.mod_add, Nat.mod_small by lia. lia. }
    pose proof (valid_slots_apart buffer num_elements padded seed valid
                  _ _ _ _ Hne Hs' Hs) as Hap.
    unfold apart, sizeof_MemoryAddress in Hap. lia.
Qed.

Lemma cycle_from_any_slot_witness :
  valid_chain_arguments 4096 8 64
  ∧ 8 < 2 ^ 31
  ∧ operator_new example_environment (8 * sizeof_size_t) = true
  ∧ 0 ≤ 3 < 8
  ∧ follow (mem (generate_random_pointer_chasing example_environment
                   4096 8 64 42 empty_world).2)
           (slot 4096 64 3) 8
    = slot 4096 64 3.
Proof.
  assert (8 < 2 ^ 31) as Hsmall by lia.
  assert (operator_new example_environment (8 * sizeof_size_t) = true)
    as Hnew by reflexivity.
  assert (0 ≤ 3 < 8) as Hindex by lia.
  split; [exact valid_chain_arguments_4096_8_64|].
  split; [exact Hsmall|]. split; [exact Hnew|]. split; [exact Hindex|].
  exact (proj1 (cycle_from_any_slot example_environment 4096 8 64 42
                  empty_world 3 valid_chain_arguments_4096_8_64 Hsmall Hnew
                  Hindex)).
Defined.



(** X6: for a buffer that meets the contract, [get_element_location] maps
    the indices below [num_elements] to pointer-aligned addresses whose
    whole slots lie inside the buffer, and the slots of different indices
    do not overlap. *)
Theorem element_locations_are_disjoint_slots
    (buffer num_elements padded i j : Z) :
  valid_chain_arguments buffer num_elements padded →
  0 ≤ i < num_elements →
  0 ≤ j < num_elements →
  let location := λ index, detail.get_element_location buffer index padded in
  location i mod alignof_MemoryAddress = 0
  ∧ buffer ≤ location i
  ∧ location i + padded ≤ buffer + num_elements * padded
  ∧ (i ≠ j →
     location i + padded ≤ location j ∨ location j + padded ≤ location i).
Proof.
  intros valid Hi Hj location. unfold location.
  pose proof valid as (Hb & Ha & Hn & Hs & Hw & Hfit).
  assert (∀ index, 0 ≤ index < num_elements →
                   detail.get_element_location buffer index padded
                   = slot buffer padded index) as Hloc.
  { intros index Hindex.
    unfold sizeof_MemoryAddress in Hw.
    unfold detail.get_element_location, slot, wrap64.
    rewrite (Z.mod_small (index * padded)) by nia.
    apply Z.mod_small. nia. }
  rewrite !Hloc by assumption.
  unfold alignof_MemoryAddress, sizeof_MemoryAddress, slot in *.
  split.
  { rewrite Z.add_mod, Ha, Z.mul_mod, Hs by lia.
    rewrite Z.mul_0_r. reflexivity. }
  split; [nia|]. split; [nia|]. intros Hne. nia.
Qed.

Lemma element_locations_are_disjoint_slots_witness :
  valid_chain_arguments 4096 8 64
  ∧ 0 ≤ 2 < 8 ∧ 0 ≤ 5 < 8
  ∧ detail.get_element_location 4096 2 64 mod alignof_MemoryAddress = 0.
Proof.
  assert (valid_chain_arguments 4096 8 64) as Hvalid.
  { unfold valid_chain_arguments, alignof_MemoryAddress, sizeof_MemoryAddress.
    repeat split; try reflexivity; lia. }
  assert (0 ≤ 2 < 8) as Hi by lia.
  assert (0 ≤ 5 < 8) as Hj by lia.
  split; [exact Hvalid|]. split; [exact Hi|]. split; [exact Hj|].
  exact (proj1 (element_locations_are_disjoint_slots 4096 8 64 2 5
                  Hvalid Hi Hj)).
Defined.



(** * Further properties of the allocator *)

Lemma land_even_odd (x y : Z) : Z.land (2 * x) (2 * y + 1) = 2 * Z.land x y.
Proof.
  apply Z.bits_inj'. intros n Hn.
  rewrite Z.land_spec.
  destruct (decide (n = 0)) as [->|Hpos].
  - rewrite Z.testbit_even_0, (Z.testbit_even_0 (Z.land x y)). reflexivity.
  - replace n with (Z.succ (n - 1)) by lia.
    rewrite !Z.testbit_even_succ, Z.testbit_odd_succ, Z.land_spec by lia.
    reflexivity.
Qed.

Lemma land_odd_even (x y : Z) : Z.land (2 * x + 1) (2 * y) = 2 * Z.land x y.
Proof. rewrite Z.land_comm, land_even_odd, Z.land_comm. reflexivity. Qed.

(** The test [(a & (a - 1)) == 0] of the allocator on a positive [a]. *)
Lemma power_of_two_test (a : Z) :
  0 < a → Z.land a (a - 1) = 0 ↔ ∃ k, 0 ≤ k ∧ a = 2 ^ k.
Proof.
  intros Ha. split.
  - destruct a as [|p|p]; try lia. clear Ha.
    induction p as [p IH|p IH|]; intros Hland.
    + exfalso. change (Z.pos p~1) with (2 * Z.pos p + 1) in Hland.
      replace (2 * Z.pos p + 1 - 1) with (2 * Z.pos p) in Hland by lia.
      rewrite land_odd_even, Z.land_diag in Hland. lia.
    + change (Z.pos p~0) with (2 * Z.pos p) in *.
      replace (2 * Z.pos p - 1) with (2 * (Z.pos p - 1) + 1) in Hland by lia.
      rewrite land_even_odd in Hland.
      destruct IH as (k & Hk & Hp); [lia|].
      exists (k + 1). split; [lia|].
      rewrite Z.pow_add_r, Hp by lia. lia.
    + exists 0. split; [lia|reflexivity].
  - intros (k & Hk & ->).
    replace (2 ^ k - 1) with (Z.ones k) by (rewrite Z.ones_equiv; lia).
    rewrite Z.land_ones by lia. apply Z.mod_same. lia.
Qed.

Lemma power_of_two_multiple_of_8 (k : Z) :
  0 ≤ k → 2 ^ k mod 8 = 0 ↔ 3 ≤ k.
Proof.
  intros Hk. split.
  - intros Hmod.
    destruct (decide (k = 0)) as [->|?]; [discriminate Hmod|].
    destruct (decide (k = 1)) as [->|?]; [discriminate Hmod|].
    destruct (decide (k = 2)) as [->|?]; [discriminate Hmod|]. lia.
  - intros Hge. replace k with (3 + (k - 3)) by lia.
    rewrite Z.pow_add_r by lia. change (2 ^ 3) with 8.
    rewrite Z.mul_comm. apply Z.mod_mul. lia.
Qed.



(** The mask [~(alignment - 1)] clears the low bits: rounding down to a
    multiple of the alignment. *)
Lemma land_alignment_mask (x k : Z) :
  0 ≤ k < 64 → 0 ≤ x < 2 ^ 64 →
  Z.land x (wrap64 (Z.lnot (2 ^ k - 1))) = 2 ^ k * (x / 2 ^ k).
Proof.
  intros Hk Hx.
  replace (2 ^ k - 1) with (Z.ones k) by (rewrite Z.ones_equiv; lia).
  unfold wrap64. rewrite <- (Z.land_ones _ 64) by lia.
  rewrite (Z.land_comm (Z.lnot _)), Z.land_assoc.
  rewrite (Z.land_ones x 64), (Z.mod_small x) by lia.
  rewrite <- Z.ldiff_land, Z.ldiff_ones_r by lia.
  rewrite Z.shiftr_div_pow2, Z.shiftl_mul_pow2 by lia. lia.
Qed.

(** X8: for an accepted alignment [2^k] and a size that can be rounded up
    inside 64 bits, [allocate_aligned_buffer] asks [aligned_alloc] for the
    least multiple of the alignment that is at least [size_bytes]; it
    throws [std::bad_alloc], having changed nothing, when that returns
    null, and returns the (non-null) address otherwise. *)
Theorem allocator_rounds_the_size_up (env : environment)
    (size_bytes alignment_bytes k : Z) (w : world) :
  3 ≤ k < 64 →
  alignment_bytes = 2 ^ k →
  0 ≤ size_bytes →
  size_bytes + alignment_bytes ≤ 2 ^ 64 →
  let size :=
    alignment_bytes * ((size_bytes + alignment_bytes - 1) / alignment_bytes) in
  let ptr := wrap64 (aligned_alloc env alignment_bytes size) in
  size_bytes ≤ size < size_bytes + alignment_bytes
  ∧ size mod alignment_bytes = 0
  ∧ common.allocate_aligned_buffer env size_bytes alignment_bytes w
    = if ptr =? nullptr then (Throw bad_alloc, w)
      else (Ret ptr, record [EAlloc alignment_bytes size ptr] w).
Proof.
  intros Hk -> Hsize Hfit size ptr.
  assert (0 < 2 ^ k) as Hpos by (apply Z.pow_pos_nonneg; lia).
  assert (2 ^ k < 2 ^ 64) as Hlt by (apply Z.pow_lt_mono_r; lia).
  pose proof (Z.div_mod (size_bytes + 2 ^ k - 1) (2 ^ k)) as Hdiv.
  pose proof (Z.mod_pos_bound (size_bytes + 2 ^ k - 1) (2 ^ k)) as Hmod.
  split; [unfold size; lia|]. split.
  { unfold size. rewrite Z.mul_comm. apply Z.mod_mul. lia. }
  unfold common.allocate_aligned_buffer.
  replace (2 ^ k =? 0) with false by (symmetry; apply Z.eqb_neq; lia).
  cbn [orb].
  assert (wrap64 (2 ^ k - 1) = 2 ^ k - 1) as ->
    by (apply Z.mod_small; lia).
  replace (Z.land (2 ^ k) (2 ^ k - 1) =? 0) with true
    by (symmetry; apply Z.eqb_eq, power_of_two_test; [lia|exists k; lia]).
  unfold sizeof_MemoryAddress.
  replace (2 ^ k mod 8 =? 0) with true
    by (symmetry; apply Z.eqb_eq, power_of_two_multiple_of_8; lia).
  cbn [negb].
  assert (wrap64 (size_bytes + (2 ^ k - 1)) = size_bytes + 2 ^ k - 1) as ->
    by (unfold wrap64; rewrite Z.mod_small; lia).
  rewrite land_alignment_mask by lia.
  fold size. fold ptr.
  destruct (ptr =? nullptr); reflexivity.
Qed.

Lemma allocator_rounds_the_size_up_witness :
  3 ≤ 12 < 64 ∧ 4096 = 2 ^ 12 ∧ 0 ≤ 5000 ∧ 5000 + 4096 ≤ 2 ^ 64
  ∧ common.allocate_aligned_buffer example_environment 5000 4096 empty_world
    = (Ret 65536, record [EAlloc 4096 8192 65536] empty_world).
Proof.
  assert (3 ≤ 12 < 64) as Hk by lia.
  assert (4096 = 2 ^ 12) as Ha by reflexivity.
  assert (0 ≤ 5000) as Hsize by lia.
  assert (5000 + 4096 ≤ 2 ^ 64) as Hfit by lia.
  split; [exact Hk|]. split; [exact Ha|]. split; [exact Hsize|].
  split; [exact Hfit|].
  exact (proj2 (proj2 (allocator_rounds_the_size_up example_environment
                         5000 4096 12 empty_world Hk Ha Hsize Hfit))).
Defined.

(** * Further properties of the harness *)

Lemma advise_hugepage_run_events (env : environment) (buffer size : Z)
    (use_hugepage : bool) (w : world) :
  advise_hugepage env buffer size use_hugepage w
  = (Ret (), record (advise_events env buffer size use_hugepage) w).
Proof.
  unfold advise_hugepage, advise_events, mbind, M_bind. rewrite emit_run.
  destruct (madvise env buffer size use_hugepage =? 0); cbn [negb].
  - reflexivity.
  - unfold emit, record. cbn [mem reads trace]. by rewrite <- app_assoc.
Qed.

(** The outcome and the stores of the chain builder do not depend on the
    world that it starts in. *)
Lemma generate_random_pointer_chasing_cases `{StdShuffle} (env : environment)
    (buffer num_elements padded seed : Z) :
  (∃ start_ptr stores, ∀ w,
     generate_random_pointer_chasing env buffer num_elements padded seed w
     = (Ret start_ptr, after_stores stores w))
  ∨ (∃ e, ∀ w,
       generate_random_pointer_chasing env buffer num_elements padded seed w
       = (Throw e, w))
  ∨ (2 ^ 31 ≤ num_elements
     ∧ ∀ w,
         generate_random_pointer_chasing env buffer num_elements padded seed w
         = (Undefined, w)).
Proof.
  destruct (decide (buffer = nullptr ∨ num_elements = 0)) as [Hnull|Hchecked].
  { left. exists nullptr, []. intros w.
    rewrite after_stores_nil. by apply generate_random_pointer_chasing_null. }
  destruct (decide (buffer mod alignof_MemoryAddress ≠ 0)) as [Ha|Ha].
  { right. left. eexists. intros w.
    rewrite generate_random_pointer_chasing_checked by tauto.
    rewrite decide_True by done. reflexivity. }
  destruct (decide (padded mod alignof_MemoryAddress ≠ 0)) as [Hs|Hs].
  { right. left. eexists. intros w.
    rewrite generate_random_pointer_chasing_checked by tauto.
    rewrite decide_False, decide_True by done. reflexivity. }
  destruct (decide (padded < sizeof_MemoryAddress)) as [Hw|Hw].
  { right. left. eexists. intros w.
    rewrite generate_random_pointer_chasing_checked by tauto.
    rewrite decide_False, decide_False, decide_True by done. reflexivity. }
  destruct (decide (vector_max_size < num_elements)) as [Hmax|Hmax].
  { right. left. eexists. intros w.
    rewrite generate_random_pointer_chasing_checked by tauto.
    do 3 rewrite decide_False by done.
    rewrite decide_True by done. reflexivity. }
  destruct (decide (operator_new env (num_elements * sizeof_size_t) = false))
    as [Hnew|Hnew].
  { right. left. eexists. intros w.
    rewrite generate_random_pointer_chasing_checked by tauto.
    do 4 rewrite decide_False by done.
    rewrite decide_True by done. reflexivity. }
  destruct (decide (INT_MAX < num_elements)) as [Hover|Hover].
  { right. right. split; [unfold INT_MAX in Hover; lia|]. intros w.
    rewrite generate_random_pointer_chasing_checked by tauto.
    do 5 rewrite decide_False by done.
    rewrite decide_True by done. reflexivity. }
  left. eexists _, _. intros w.
  rewrite generate_random_pointer_chasing_checked by tauto.
  do 6 rewrite decide_False by done. reflexivity.
Qed.

Lemma trials_run_events (env : environment) (start_ptr : Z) (first : nat)
    (remaining i : nat) (result : BenchmarkResult) (w : world) :
  reads w = trial_start first i →
  trials env remaining start_ptr (Z.of_nat i) result w
  = (Ret (retained env first (seq i remaining) result),
     World (mem w) (trial_start first (i + remaining))
           (trace w ++ trials_events env first start_ptr (seq i remaining))).
Proof.
  revert i result w.
  induction remaining as [|remaining IH]; intros i result w Hreads.
  - cbn [trials seq]. unfold trials_events. cbn [fmap list_fmap concat].
    rewrite Nat.add_0_r, app_nil_r, <- Hreads. by destruct w.
  - cbn [trials]. unfold mbind, M_bind. rewrite trial_run.
    replace (Z.of_nat i + 1) with (Z.of_nat (S i)) by lia.
    rewrite (IH (S i)) by (cbn [reads]; rewrite Hreads; unfold trial_start; lia).
    cbn [mem trace seq retained fold_left]. unfold retained, trials_events.
    cbn [fmap list_fmap concat].
    rewrite Hreads, app_assoc. do 3 f_equal. lia.
Qed.

Lemma run_benchmark_detail `{StdShuffle} (env : environment)
    (buffer_size_in_bytes padded_bytes_per_element : Z) (use_hugepage : bool)
    (w : world) :
  ∃ out w' events,
    run_benchmark env buffer_size_in_bytes padded_bytes_per_element
                  use_hugepage w = (out, w')
    ∧ trace w' = trace w ++ events
    ∧ run_detail env w buffer_size_in_bytes padded_bytes_per_element
                 use_hugepage out events.
Proof.
  unfold run_benchmark.
  destruct (padded_bytes_per_element =? 0) eqn:Hzero.
  { apply Z.eqb_eq in Hzero.
    exists Undefined, w, []. split; [reflexivity|]. rewrite app_nil_r.
    split; [reflexivity|]. by constructor. }
  apply Z.eqb_neq in Hzero.
  destruct (buffer_size_in_bytes mod padded_bytes_per_element =? 0) eqn:Hmod;
    cbn [negb].
  2:{ apply Z.eqb_neq in Hmod.
      eexists _, _, [_]. split; [apply emit_run|]. split; [reflexivity|].
      by constructor. }
  apply Z.eqb_eq in Hmod.
  unfold mbind at 1, M_bind at 1.
  fold (resolve_page_size env use_hugepage).
  destruct (page_size_run env use_hugepage w) as [[page_size Hq]|[e Hq]];
    fold (resolve_page_size env use_hugepage) in Hq; rewrite Hq.
  2:{ exists (Throw e), w, []. split; [reflexivity|]. rewrite app_nil_r.
      split; [reflexivity|]. by constructor. }
  unfold mbind at 1, M_bind at 1.
  destruct (allocate_aligned_buffer_run env buffer_size_in_bytes page_size w)
    as [(buffer & alignment & size & Ha)|[e Ha]]; rewrite Ha.
  2:{ exists (Throw e), w, []. split; [reflexivity|]. rewrite app_nil_r.
      split; [reflexivity|]. by econstructor. }
  unfold with_buffer.
  unfold mbind at 1, M_bind at 1. rewrite advise_hugepage_run_events.
  unfold mbind at 1, M_bind at 1.
  destruct (generate_random_pointer_chasing_cases env buffer
              (buffer_size_in_bytes `div` padded_bytes_per_element)
              padded_bytes_per_element RAND_SEED)
    as [(start_ptr & stores & Hg)|[[e Hg]|[Hover Hg]]]; rewrite Hg.
  2:{ eexists _, _, _. split; [reflexivity|].
      cbn [trace record]. rewrite <- !app_assoc. split; [reflexivity|].
      by econstructor. }
  2:{ eexists _, _, _. split; [reflexivity|].
      cbn [trace record]. rewrite <- !app_assoc. split; [reflexivity|].
      by econstructor. }
  unfold mbind at 1, M_bind at 1. rewrite open_counter_run.
  fold (cycle_handle env).
  destruct (is_valid (cycle_handle env)) eqn:Hcycle; cbn [negb].
  2:{ eexists _, _, _. split; [reflexivity|].
      cbn [trace record after_stores mem reads]. rewrite <- !app_assoc.
      split; [reflexivity|]. by econstructor. }
  do 4 (unfold mbind at 1, M_bind at 1; rewrite open_counter_run).
  change (perf_counter_open_by_name env l1d_miss_counter (L1D_MISS_EVENT env)
            (fd (cycle_handle env)))
    with (follower_handle env l1d_miss_counter).
  change (perf_counter_open_by_name env l2_miss_counter (L2_MISS_EVENT env)
            (fd (cycle_handle env)))
    with (follower_handle env l2_miss_counter).
  change (perf_counter_open_by_name env l3_miss_counter (L3_MISS_EVENT env)
            (fd (cycle_handle env)))
    with (follower_handle env l3_miss_counter).
  change (perf_counter_open_by_name env tlb_miss_counter TLB_MISS_EVENT
            (fd (cycle_handle env)))
    with (follower_handle env tlb_miss_counter).
  replace (negb (is_valid (follower_handle env l1d_miss_counter))
           || negb (is_valid (follower_handle env l2_miss_counter))
           || negb (is_valid (follower_handle env l3_miss_counter))
           || negb (is_valid (follower_handle env tlb_miss_counter)))
    with (negb (followers_valid env))
    by (unfold followers_valid;
        destruct (is_valid (follower_handle env l1d_miss_counter)),
          (is_valid (follower_handle env l2_miss_counter)),
          (is_valid (follower_handle env l3_miss_counter)),
          (is_valid (follower_handle env tlb_miss_counter)); reflexivity).
  destruct (followers_valid env) eqn:Hfollowers; cbn [negb].
  - unfold mbind at 1, M_bind at 1. rewrite emit_run.
    unfold mbind at 1, M_bind at 1.
    change (mkBenchmarkResult buffer_size_in_bytes padded_bytes_per_element
              page_size NUM_LOGICAL_LOADS UINT64_MAX 0 0 0 0)
      with (initial_result buffer_size_in_bytes padded_bytes_per_element
              page_size).
    match goal with
    | |- context [trials env ?n start_ptr 0 ?r ?w0] =>
        pose proof (trials_run_events env start_ptr (reads w) n 0 r w0 eq_refl)
          as Htrials
    end.
    change (Z.of_nat 0) with 0 in Htrials. rewrite Htrials.
    do 6 (unfold mbind at 1, M_bind at 1; rewrite emit_run).
    unfold print_csv_row. rewrite emit_run. rewrite retained_warmups.
    eexists _, _, _. split; [reflexivity|].
    cbn [trace record after_stores mem reads]. rewrite <- !app_assoc.
    split; [reflexivity|].
    match goal with
    | |- run_detail _ _ _ _ _ _ ?events =>
        replace events
          with ([EAlloc alignment size buffer]
                ++ advise_events env buffer buffer_size_in_bytes use_hugepage
                ++ ((λ s, EWrite s.1 s.2) <$> stores)
                ++ all_open_events env ++ [EEnable cycle_counter]
                ++ trials_events env (reads w) start_ptr
                     (seq 0 (Z.to_nat (NUM_WARMUPS + NUM_TRIALS)))
                ++ closing_events
                     (retained env (reads w) measured_trials
                        (initial_result buffer_size_in_bytes
                           padded_bytes_per_element page_size))
                     buffer)
          by (unfold all_open_events, follower_open_events, closing_events;
              repeat rewrite <- app_assoc; reflexivity)
    end.
    by econstructor.
  - do 4 (unfold mbind at 1, M_bind at 1; rewrite close_counter_run).
    rewrite close_counter_run.
    eexists _, _, _. split; [reflexivity|].
    cbn [trace record after_stores mem reads]. rewrite <- !app_assoc.
    split; [reflexivity|].
    match goal with
    | |- run_detail _ _ _ _ _ _ ?events =>
        replace events
          with ([EAlloc alignment size buffer]
                ++ advise_events env buffer buffer_size_in_bytes use_hugepage
                ++ ((λ s, EWrite s.1 s.2) <$> stores)
                ++ all_open_events env ++ failure_close_events env
                ++ [EFree buffer])
          by (unfold all_open_events, follower_open_events,
                failure_close_events;
              repeat rewrite <- app_assoc; reflexivity)
    end.
    by econstructor.
Qed.

(** The parts of which the events of a run are made, by kind. *)
Lemma advise_events_kinds (env : environment) (buffer size : Z)
    (use_hugepage : bool) :
  Forall (λ e, is_inner_event e ∧ is_untimed_event e ∧ is_no_row e
               ∧ is_no_open e)
         (advise_events env buffer size use_hugepage).
Proof.
  unfold advise_events. destruct (negb _); by repeat constructor.
Qed.

Lemma store_events_kinds (stores : list (Z * Z)) :
  Forall (λ e, is_inner_event e ∧ is_untimed_event e ∧ is_no_row e
               ∧ is_no_open e)
         ((λ s, EWrite s.1 s.2) <$> stores).
Proof. apply Forall_fmap, Forall_true. intros s. by repeat split. Qed.

Lemma open_events_kinds (env : environment) (c : counter) (name : string)
    (group_fd : Z) :
  Forall (λ e, is_inner_event e ∧ is_untimed_event e ∧ is_no_row e)
         (open_events env c name group_fd).
Proof. unfold open_events. destruct (is_valid _); by repeat constructor. Qed.

Lemma all_open_events_kinds (env : environment) :
  Forall (λ e, is_inner_event e ∧ is_untimed_event e ∧ is_no_row e)
         (all_open_events env).
Proof.
  unfold all_open_events, follower_open_events. rewrite !Forall_app.
  repeat split; apply open_events_kinds.
Qed.

Lemma failure_close_events_kinds (env : environment) :
  Forall (λ e, is_inner_event e ∧ is_untimed_event e ∧ is_no_row e
               ∧ is_no_open e)
         (failure_close_events env).
Proof.
  unfold failure_close_events, close_events. rewrite !Forall_app.
  repeat split; destruct (is_valid _); by repeat constructor.
Qed.

Lemma trials_events_kinds (env : environment) (first : nat) (start_ptr : Z)
    (trial_indices : list nat) :
  Forall (λ e, is_inner_event e ∧ is_trial_event e ∧ is_no_row e
               ∧ is_no_open e)
         (trials_events env first start_ptr trial_indices).
Proof.
  unfold trials_events. apply Forall_concat, Forall_fmap, Forall_true.
  intros i. unfold trial_events. by repeat constructor.
Qed.

Lemma Forall_and_1 {A : Type} (P Q : A → Prop) (l : list A) :
  Forall (λ x, P x ∧ Q x) l → Forall P l.
Proof. apply Forall_impl. tauto. Qed.

Lemma Forall_and_2 {A : Type} (P Q : A → Prop) (l : list A) :
  Forall (λ x, P x ∧ Q x) l → Forall Q l.
Proof. apply Forall_impl. tauto. Qed.

Lemma allocate_aligned_buffer_not_null (env : environment)
    (size_bytes alignment_bytes buffer : Z) (w w' : world) :
  common.allocate_aligned_buffer env size_bytes alignment_bytes w
  = (Ret buffer, w') →
  buffer ≠ nullptr ∧ 0 ≤ buffer < 2 ^ 64
  ∧ alignment_bytes mod sizeof_MemoryAddress = 0.
Proof.
  unfold common.allocate_aligned_buffer.
  destruct ((alignment_bytes =? 0) || _); [discriminate|].
  destruct (alignment_bytes mod sizeof_MemoryAddress =? 0) eqn:Hmod;
    cbn [negb]; [|discriminate].
  destruct (_ =? nullptr) eqn:Hnull; [discriminate|].
  intros Heq. injection Heq as <- _.
  apply Z.eqb_neq in Hnull. apply Z.eqb_eq in Hmod.
  split; [exact Hnull|]. split; [|exact Hmod].
  unfold wrap64. apply Z.mod_pos_bound. lia.
Qed.

(** Proves that the events of one part of a run are of the first kind that
    its lemma lists. *)
Ltac first_kind :=
  first [ eapply Forall_and_1, advise_events_kinds
        | eapply Forall_and_1, store_events_kinds
        | eapply Forall_and_1, all_open_events_kinds
        | eapply Forall_and_1, open_events_kinds
        | eapply Forall_and_1, failure_close_events_kinds
        | eapply Forall_and_1, trials_events_kinds
        | by repeat constructor ].

(** X9: on every path of [run_benchmark] the buffer is released exactly
    once: either the call neither allocates nor frees, or its first event
    is the allocation of a non-null buffer, its last event frees that
    buffer, and nothing is allocated or freed in between; this holds on
    the early returns and when the chain builder throws, too.  The one
    exception is a call with [2^31] or more elements, whose behaviour is
    undefined from [std::iota] on. *)
Theorem buffer_is_freed_exactly_once `{StdShuffle} (env : environment)
    (buffer_size_in_bytes padded_bytes_per_element : Z) (use_hugepage : bool)
    (w : world) :
  let run := run_benchmark env buffer_size_in_bytes padded_bytes_per_element
                           use_hugepage w in
  let events := new_events w run.2 in
  Forall is_inner_event events
  ∨ (∃ alignment size buffer inner,
       events = EAlloc alignment size buffer :: inner ++ [EFree buffer]
       ∧ buffer ≠ nullptr
       ∧ Forall is_inner_event inner)
  ∨ (run.1 = Undefined
     ∧ 2 ^ 31 ≤ buffer_size_in_bytes / padded_bytes_per_element).
Proof.
  intros run events.
  destruct (run_benchmark_detail env buffer_size_in_bytes
              padded_bytes_per_element use_hugepage w)
    as (out & w' & evs & Hrun & Htrace & Hdetail).
  unfold events, run. rewrite Hrun. cbn [fst snd].
  rewrite (new_events_app _ _ _ Htrace).
  destruct Hdetail
    as [?|? ?|e ? ? ?|page_size e ? ? ? ?
        |page_size buffer alignment size e ? ? ? Ha ?
        |page_size buffer alignment size ? ? ? Ha Hover ?
        |page_size buffer alignment size start_ptr stores ? ? ? Ha ? ?
        |page_size buffer alignment size start_ptr stores ? ? ? Ha ? ? ?
        |page_size buffer alignment size start_ptr stores ? ? ? Ha ? ? ?];
    try (left; by repeat constructor);
    try (right; right; by split);
    right; left; exists alignment, size, buffer;
    apply allocate_aligned_buffer_not_null in Ha as (Hnull & _).
  - eexists. split; [reflexivity|]. split; [exact Hnull|].
    first_kind.
  - exists (advise_events env buffer buffer_size_in_bytes use_hugepage
            ++ ((λ s, EWrite s.1 s.2) <$> stores)
            ++ open_events env cycle_counter CYCLES_EVENT (-1)).
    split; [by rewrite <- !app_assoc|].
    split; [exact Hnull|]. rewrite !Forall_app.
    repeat split; first_kind.
  - exists (advise_events env buffer buffer_size_in_bytes use_hugepage
            ++ ((λ s, EWrite s.1 s.2) <$> stores)
            ++ all_open_events env ++ failure_close_events env).
    split; [by rewrite <- !app_assoc|].
    split; [exact Hnull|]. rewrite !Forall_app.
    repeat split; first_kind.
  - exists (advise_events env buffer buffer_size_in_bytes use_hugepage
            ++ ((λ s, EWrite s.1 s.2) <$> stores)
            ++ all_open_events env ++ [EEnable cycle_counter]
            ++ trials_events env (reads w) start_ptr
                 (seq 0 (Z.to_nat (NUM_WARMUPS + NUM_TRIALS)))
            ++ [EDisable cycle_counter; EClose tlb_miss_counter;
                EClose l3_miss_counter; EClose l2_miss_counter;
                EClose l1d_miss_counter; EClose cycle_counter;
                ECsvRow (retained env (reads w) measured_trials
                           (initial_result buffer_size_in_bytes
                              padded_bytes_per_element page_size))]).
    split; [unfold closing_events; by rewrite <- !app_assoc|].
    split; [exact Hnull|]. rewrite !Forall_app.
    repeat split; first_kind.
Qed.

(** The exception is real: a buffer of [2^34] bytes in slots of 8 bytes
    has [2^31] elements; the call allocates the buffer, advises the
    kernel, and its behaviour is undefined from there on. *)
Example large_run_is_undefined :
  let run := run_benchmark example_environment (2 ^ 34) 8 false empty_world in
  run.1 = Undefined
  ∧ new_events empty_world run.2
    = [EAlloc 4096 (2 ^ 34) 65536; EMadvise 65536 (2 ^ 34) false 0].
Proof.
  assert (valid_chain_arguments 65536 (2 ^ 31) 8) as Hvalid.
  { unfold valid_chain_arguments, alignof_MemoryAddress, sizeof_MemoryAddress.
    repeat split; try reflexivity; lia. }
  assert (∀ w1, generate_random_pointer_chasing example_environment 65536
                  (2 ^ 34 / 8) 8 RAND_SEED w1 = (Undefined, w1)) as Hbuilder.
  { intros w1. change (2 ^ 34 / 8) with (2 ^ 31).
    rewrite (valid_generate_random_pointer_chasing_cases _ _ _ _ Hvalid).
    rewrite decide_False by (rewrite vector_max_size_value; lia).
    rewrite decide_False by discriminate.
    rewrite decide_True by (unfold INT_MAX; lia). reflexivity. }
  assert (resolve_page_size example_environment false empty_world
          = (Ret 4096, empty_world)) as Hpage by (vm_compute; reflexivity).
  assert (common.allocate_aligned_buffer example_environment (2 ^ 34) 4096
            empty_world
          = (Ret 65536, record [EAlloc 4096 (2 ^ 34) 65536] empty_world))
    as Halloc by (vm_compute; reflexivity).
  assert (2 ^ 34 mod 8 = 0) as Hmultiple by reflexivity.
  destruct (run_benchmark_detail example_environment (2 ^ 34) 8 false
              empty_world)
    as (out & w' & evs & Hrun & Htrace & Hdetail).
  cbv zeta. rewrite Hrun. cbn [fst snd].
  rewrite (new_events_app _ _ _ Htrace).
  destruct Hdetail
    as [Hzero|? Hmod|e ? ? Hq|page_size e ? ? Hq Ha
        |page_size buffer alignment size e ? ? Hq Ha Hg
        |page_size buffer alignment size ? ? Hq Ha ? Hg
        |page_size buffer alignment size start_ptr stores ? ? Hq Ha Hg ?
        |page_size buffer alignment size start_ptr stores ? ? Hq Ha Hg ? ?
        |page_size buffer alignment size start_ptr stores ? ? Hq Ha Hg ? ?].
  - lia.
  - by destruct Hmod.
  - rewrite Hpage in Hq. discriminate Hq.
  - rewrite Hpage in Hq. injection Hq as <-.
    rewrite Halloc in Ha. discriminate Ha.
  - rewrite Hpage in Hq. injection Hq as <-.
    rewrite Halloc in Ha. injection Ha as <- <- <-.
    specialize (Hg empty_world). rewrite Hbuilder in Hg. discriminate Hg.
  - rewrite Hpage in Hq. injection Hq as <-.
    rewrite Halloc in Ha. injection Ha as <- <- <-.
    split; reflexivity.
  - rewrite Hpage in Hq. injection Hq as <-.
    rewrite Halloc in Ha. injection Ha as <- <- <-.
    specialize (Hg empty_world). rewrite Hbuilder in Hg. discriminate Hg.
  - rewrite Hpage in Hq. injection Hq as <-.
    rewrite Halloc in Ha. injection Ha as <- <- <-.
    specialize (Hg empty_world). rewrite Hbuilder in Hg. discriminate Hg.
  - rewrite Hpage in Hq. injection Hq as <-.
    rewrite Halloc in Ha. injection Ha as <- <- <-.
    specialize (Hg empty_world). rewrite Hbuilder in Hg. discriminate Hg.
Qed.

(** Proves that the events of one part of a run are of a kind that its
    lemma lists. *)
Ltac event_kind :=
  first [ by repeat constructor
        | eapply List.Forall_impl; cycle 1;
          [ first [ apply advise_events_kinds
                  | apply store_events_kinds
                  | apply all_open_events_kinds
                  | apply open_events_kinds
                  | apply failure_close_events_kinds
                  | apply trials_events_kinds ]
          | cbv beta; tauto ] ].

Lemma not_open_of_no_open (events : list event) (c : counter) (name : string)
    (group_fd : Z) (handle : perf_counter) :
  Forall is_no_open events → EOpen c name group_fd handle ∉ events.
Proof. intros Hall Hin. by apply (proj1 (list.Forall_forall _ _) Hall) in Hin. Qed.

Lemma opened_then_closed (setup opens rest : list event) (c : counter)
    (name : string) (group_fd : Z) (handle : perf_counter) :
  Forall is_no_open setup →
  Forall is_no_open rest →
  EOpen c name group_fd handle ∈ setup ++ opens ++ rest →
  EClose c ∈ rest →
  ∃ before after,
    setup ++ opens ++ rest = before ++ EOpen c name group_fd handle :: after
    ∧ EClose c ∈ after.
Proof.
  intros Hsetup Hrest Hin Hclose.
  apply elem_of_app in Hin as [Hin|Hin];
    [by apply not_open_of_no_open in Hin|].
  apply elem_of_app in Hin as [Hin|Hin];
    [|by apply not_open_of_no_open in Hin].
  apply list_elem_of_split in Hin as (opens1 & opens2 & ->).
  exists (setup ++ opens1), (opens2 ++ rest). split.
  - by rewrite <- !app_assoc.
  - apply elem_of_app. by right.
Qed.

(** X10: on every path of [run_benchmark], every counter that was opened
    validly is closed later in the same call; and when the call throws,
    no counter has been opened at all (exceptions come only from the page
    size query, the allocator and the chain builder, which run before the
    first [open_counter]). *)
Theorem every_opened_counter_is_closed `{StdShuffle} (env : environment)
    (buffer_size_in_bytes padded_bytes_per_element : Z) (use_hugepage : bool)
    (w : world) :
  let run := run_benchmark env buffer_size_in_bytes padded_bytes_per_element
                           use_hugepage w in
  (∀ c name group_fd handle,
     EOpen c name group_fd handle ∈ new_events w run.2 →
     is_valid handle = true →
     ∃ before after,
       new_events w run.2 = before ++ EOpen c name group_fd handle :: after
       ∧ EClose c ∈ after)
  ∧ (∀ e, run.1 = Throw e → Forall is_no_open (new_events w run.2)).
Proof.
  intros run.
  destruct (run_benchmark_detail env buffer_size_in_bytes
              padded_bytes_per_element use_hugepage w)
    as (out & w' & evs & Hrun & Htrace & Hdetail).
  unfold run. rewrite Hrun. cbn [fst snd].
  rewrite (new_events_app _ _ _ Htrace).
  destruct Hdetail
    as [?|? ?|e ? ? ?|page_size e ? ? ? ?
        |page_size buffer alignment size e ? ? ? Ha ?
        |page_size buffer alignment size ? ? ? Ha ? ?
        |page_size buffer alignment size start_ptr stores ? ? ? Ha ? Hcycle
        |page_size buffer alignment size start_ptr stores ? ? ? Ha ? Hcycle
           Hfollowers
        |page_size buffer alignment size start_ptr stores ? ? ? Ha ? Hcycle
           Hfollowers].
  - split; [|intros; constructor].
    intros c name group_fd handle Hin. by apply elem_of_nil in Hin.
  - split; [|intros e He; discriminate He].
    intros c name group_fd handle Hin.
    apply list_elem_of_singleton in Hin. discriminate Hin.
  - split; [|intros; constructor].
    intros c name group_fd handle Hin. by apply elem_of_nil in Hin.
  - split; [|intros; constructor].
    intros c name group_fd handle Hin. by apply elem_of_nil in Hin.
  - assert (Forall is_no_open
              ([EAlloc alignment size buffer]
               ++ advise_events env buffer buffer_size_in_bytes use_hugepage
               ++ [EFree buffer])) as Hnone
      by (rewrite !Forall_app; repeat split; event_kind).
    split; [|intros; exact Hnone].
    intros c name group_fd handle Hin. by apply not_open_of_no_open in Hin.
  - assert (Forall is_no_open
              ([EAlloc alignment size buffer]
               ++ advise_events env buffer buffer_size_in_bytes use_hugepage))
      as Hnone by (rewrite !Forall_app; repeat split; event_kind).
    split; [|intros e He; discriminate He].
    intros c name group_fd handle Hin. by apply not_open_of_no_open in Hin.
  - split; [|intros e He; discriminate He].
    intros c name group_fd handle Hin Hvalid. exfalso.
    rewrite !elem_of_app in Hin. destruct Hin as [Hin|[Hin|[Hin|[Hin|Hin]]]].
    + apply list_elem_of_singleton in Hin. discriminate Hin.
    + eapply not_open_of_no_open; [|exact Hin]. event_kind.
    + eapply not_open_of_no_open; [|exact Hin]. event_kind.
    + apply open_events_open in Hin as [-> ->].
      fold (cycle_handle env) in Hvalid. congruence.
    + apply list_elem_of_singleton in Hin. discriminate Hin.
  - split; [|intros e He; discriminate He].
    intros c name group_fd handle Hin Hvalid.
    rewrite !(app_assoc _ _ (all_open_events env ++ _)) in Hin |- *.
    apply opened_then_closed.
    + rewrite !Forall_app. repeat split; event_kind.
    + rewrite !Forall_app. repeat split; event_kind.
    + exact Hin.
    + apply elem_of_app. left.
      assert (handle = opened_handle env c) as ->.
      { apply elem_of_app in Hin as [Hin|Hin];
          [exfalso; eapply not_open_of_no_open; [|exact Hin];
           rewrite !Forall_app; repeat split; event_kind|].
        apply elem_of_app in Hin as [Hin|Hin];
          [by eapply opened_handle_open|].
        exfalso. eapply not_open_of_no_open; [|exact Hin].
        rewrite !Forall_app. repeat split; event_kind. }
      by apply opened_handle_closed.
  - split; [|intros e He; discriminate He].
    intros c name group_fd handle Hin Hvalid.
    rewrite !(app_assoc _ _ (all_open_events env ++ _)) in Hin |- *.
    apply opened_then_closed.
    + rewrite !Forall_app. repeat split; event_kind.
    + rewrite !Forall_app. repeat split; event_kind.
    + exact Hin.
    + apply elem_of_app. right. apply elem_of_app. right.
      unfold closing_events. destruct c.
      * do 5 apply list_elem_of_further. apply list_elem_of_here.
      * do 4 apply list_elem_of_further. apply list_elem_of_here.
      * do 3 apply list_elem_of_further. apply list_elem_of_here.
      * do 2 apply list_elem_of_further. apply list_elem_of_here.
      * do 1 apply list_elem_of_further. apply list_elem_of_here.
Qed.

Lemma not_row_of_no_row (events : list event) (result : BenchmarkResult) :
  Forall is_no_row events → ECsvRow result ∉ events.
Proof. intros Hall Hin. by apply (proj1 (list.Forall_forall _ _) Hall) in Hin. Qed.

(** X11: a row that [run_benchmark] prints reports the configuration of
    the call: the buffer size and the stride that were passed, the page
    size that the query for the chosen policy returned, and 1,000,000
    logical loads; its cycle count is an unsigned 64-bit value; it is the
    only row of the call and is printed last, just before the buffer is
    freed. *)
Theorem row_reports_the_configuration `{StdShuffle} (env : environment)
    (buffer_size_in_bytes padded_bytes_per_element : Z) (use_hugepage : bool)
    (w : world) (result : BenchmarkResult) :
  let events :=
    new_events w (run_benchmark env buffer_size_in_bytes
                    padded_bytes_per_element use_hugepage w).2 in
  ECsvRow result ∈ events →
  buffer_size result = buffer_size_in_bytes
  ∧ padded_element_size result = padded_bytes_per_element
  ∧ num_logical_loads result = 1000000
  ∧ resolve_page_size env use_hugepage w = (Ret (page_size result), w)
  ∧ 0 ≤ cycle_count result ≤ UINT64_MAX
  ∧ ∃ before buffer,
      events = before ++ [ECsvRow result; EFree buffer]
      ∧ Forall is_no_row before.
Proof.
  intros events. unfold events. clear events.
  destruct (run_benchmark_detail env buffer_size_in_bytes
              padded_bytes_per_element use_hugepage w)
    as (out & w' & evs & Hrun & Htrace & Hdetail).
  rewrite Hrun. cbn [snd]. rewrite (new_events_app _ _ _ Htrace).
  intros Hrow.
  destruct Hdetail
    as [?|? ?|e ? ? ?|page_size e ? ? ? ?
        |page_size buffer alignment size e ? ? ? Ha ?
        |page_size buffer alignment size ? ? ? Ha ? ?
        |page_size buffer alignment size start_ptr stores ? ? ? Ha ? Hcycle
        |page_size buffer alignment size start_ptr stores ? ? ? Ha ? Hcycle
           Hfollowers
        |page_size buffer alignment size start_ptr stores ? ? Hquery Ha ?
           Hcycle Hfollowers].
  1-8: exfalso; eapply not_row_of_no_row; [|exact Hrow];
       rewrite ?Forall_app; repeat split; event_kind.
  assert (Forall is_no_row
            ([EAlloc alignment size buffer]
             ++ advise_events env buffer buffer_size_in_bytes use_hugepage
             ++ ((λ s, EWrite s.1 s.2) <$> stores)
             ++ all_open_events env ++ [EEnable cycle_counter]
             ++ trials_events env (reads w) start_ptr
                  (seq 0 (Z.to_nat (NUM_WARMUPS + NUM_TRIALS)))
             ++ [EDisable cycle_counter; EClose tlb_miss_counter;
                 EClose l3_miss_counter; EClose l2_miss_counter;
                 EClose l1d_miss_counter; EClose cycle_counter])) as Hbefore
    by (rewrite !Forall_app; repeat split; event_kind).
  assert (result
          = retained env (reads w) measured_trials
              (initial_result buffer_size_in_bytes padded_bytes_per_element
                 page_size)) as ->.
  { unfold closing_events in Hrow.
    replace ([EAlloc alignment size buffer]
             ++ advise_events env buffer buffer_size_in_bytes use_hugepage
             ++ ((λ s, EWrite s.1 s.2) <$> stores)
             ++ all_open_events env ++ [EEnable cycle_counter]
             ++ trials_events env (reads w) start_ptr
                  (seq 0 (Z.to_nat (NUM_WARMUPS + NUM_TRIALS)))
             ++ [EDisable cycle_counter; EClose tlb_miss_counter;
                 EClose l3_miss_counter; EClose l2_miss_counter;
                 EClose l1d_miss_counter; EClose cycle_counter;
                 ECsvRow (retained env (reads w) measured_trials
                            (initial_result buffer_size_in_bytes
                               padded_bytes_per_element page_size));
                 EFree buffer])
      with (([EAlloc alignment size buffer]
             ++ advise_events env buffer buffer_size_in_bytes use_hugepage
             ++ ((λ s, EWrite s.1 s.2) <$> stores)
             ++ all_open_events env ++ [EEnable cycle_counter]
             ++ trials_events env (reads w) start_ptr
                  (seq 0 (Z.to_nat (NUM_WARMUPS + NUM_TRIALS)))
             ++ [EDisable cycle_counter; EClose tlb_miss_counter;
                 EClose l3_miss_counter; EClose l2_miss_counter;
                 EClose l1d_miss_counter; EClose cycle_counter])
            ++ [ECsvRow (retained env (reads w) measured_trials
                           (initial_result buffer_size_in_bytes
                              padded_bytes_per_element page_size));
                EFree buffer]) in Hrow
      by (repeat rewrite <- app_assoc; reflexivity).
    apply elem_of_app in Hrow as [Hrow|Hrow];
      [by apply not_row_of_no_row in Hrow|].
    apply elem_of_cons in Hrow as [Hrow|Hrow]; [by injection Hrow|].
    apply list_elem_of_singleton in Hrow. discriminate Hrow. }
  destruct (retained_selects env (reads w) measured_trials
              (initial_result buffer_size_in_bytes padded_bytes_per_element
                 page_size))
    as (Hbs & Hpes & Hps & Hnl & Hle & _ & Hsel).
  { intros i Hi. apply elem_of_seq in Hi. unfold NUM_WARMUPS in *. lia. }
  split; [exact Hbs|]. split; [exact Hpes|]. split; [exact Hnl|].
  split; [by rewrite Hps|]. split.
  { split; [|exact Hle].
    destruct Hsel as [->|(earlier & j & later & _ & -> & _)].
    - cbn. unfold UINT64_MAX. lia.
    - apply wrap64_range. }
  eexists _, buffer. split; [|exact Hbefore].
  unfold closing_events. repeat rewrite <- app_assoc. reflexivity.
Qed.

Lemma row_reports_the_configuration_witness :
  ECsvRow example_result
  ∈ new_events empty_world
      (run_benchmark example_environment 1024 64 false empty_world).2
  ∧ buffer_size example_result = 1024
  ∧ resolve_page_size example_environment false empty_world
    = (Ret (page_size example_result), empty_world).
Proof.
  assert (ECsvRow example_result
          ∈ new_events empty_world
              (run_benchmark example_environment 1024 64 false empty_world).2)
    as Hrow.
  { vm_compute.
    repeat first [apply list_elem_of_here | apply list_elem_of_further]. }
  split; [exact Hrow|].
  destruct (row_reports_the_configuration example_environment 1024 64 false
              empty_world example_result Hrow)
    as (Hbs & _ & _ & Hps & _).
  split; [exact Hbs|exact Hps].
Defined.

(** X12: [run_benchmark] reads the counters and runs the traversal only
    between enabling and disabling the counter group: either the call
    does neither, or its events are some untimed events, [EEnable], the
    events of the thirteen trials (each five reads, the traversal from
    the entry address that the chain builder returned for the allocated
    buffer, five reads), [EDisable], and untimed events again. *)
Theorem counters_are_read_only_while_enabled `{StdShuffle}
    (env : environment) (buffer_size_in_bytes padded_bytes_per_element : Z)
    (use_hugepage : bool) (w : world) :
  let events :=
    new_events w (run_benchmark env buffer_size_in_bytes
                    padded_bytes_per_element use_hugepage w).2 in
  Forall is_untimed_event events
  ∨ ∃ before after alignment size buffer start_ptr stores,
      events
      = (EAlloc alignment size buffer :: before)
        ++ EEnable cycle_counter
           :: trials_events env (reads w) start_ptr
                (seq 0 (Z.to_nat (NUM_WARMUPS + NUM_TRIALS)))
        ++ EDisable cycle_counter :: after
      ∧ Forall is_untimed_event before
      ∧ Forall is_untimed_event after
      ∧ ∀ w1, generate_random_pointer_chasing env buffer
                (buffer_size_in_bytes / padded_bytes_per_element)
                padded_bytes_per_element RAND_SEED w1
              = (Ret start_ptr, after_stores stores w1).
Proof.
  intros events. unfold events. clear events.
  destruct (run_benchmark_detail env buffer_size_in_bytes
              padded_bytes_per_element use_hugepage w)
    as (out & w' & evs & Hrun & Htrace & Hdetail).
  rewrite Hrun. cbn [snd]. rewrite (new_events_app _ _ _ Htrace).
  destruct Hdetail
    as [?|? ?|e ? ? ?|page_size e ? ? ? ?
        |page_size buffer alignment size e ? ? ? Ha ?
        |page_size buffer alignment size ? ? ? Ha ? ?
        |page_size buffer alignment size start_ptr stores ? ? ? Ha ? Hcycle
        |page_size buffer alignment size start_ptr stores ? ? ? Ha ? Hcycle
           Hfollowers
        |page_size buffer alignment size start_ptr stores ? ? Hquery Ha Hg
           Hcycle Hfollowers].
  1-8: left; rewrite ?Forall_app; repeat split; event_kind.
  right.
  exists (advise_events env buffer buffer_size_in_bytes use_hugepage
          ++ ((λ s, EWrite s.1 s.2) <$> stores) ++ all_open_events env),
         [EClose tlb_miss_counter; EClose l3_miss_counter;
          EClose l2_miss_counter; EClose l1d_miss_counter;
          EClose cycle_counter;
          ECsvRow (retained env (reads w) measured_trials
                     (initial_result buffer_size_in_bytes
                        padded_bytes_per_element page_size));
          EFree buffer],
         alignment, size, buffer, start_ptr, stores.
  split.
  { unfold closing_events. cbn [app]. repeat rewrite <- app_assoc.
    reflexivity. }
  split; [rewrite !Forall_app; repeat split; event_kind|].
  split; [by repeat constructor|exact Hg].
Qed.

(** X13: sufficient conditions for a measurement.  With a nonzero stride
    that is a multiple of the pointer alignment and divides the buffer
    size, fewer than [2^31] elements, a page size query and allocations
    of the buffer and of the index vector that succeed, an allocated
    buffer address that is pointer aligned, and five counters that open
    validly, [run_benchmark] returns normally and prints one row, as its
    last event before it frees the buffer, whatever [madvise] returns. *)
Theorem working_environment_prints_a_row `{StdShuffle} (env : environment)
    (buffer_size_in_bytes padded_bytes_per_element : Z) (use_hugepage : bool)
    (w w1 : world) (page_size buffer : Z) :
  0 < padded_bytes_per_element →
  (padded_bytes_per_element | buffer_size_in_bytes) →
  padded_bytes_per_element mod alignof_MemoryAddress = 0 →
  resolve_page_size env use_hugepage w = (Ret page_size, w) →
  common.allocate_aligned_buffer env buffer_size_in_bytes page_size w
  = (Ret buffer, w1) →
  buffer mod alignof_MemoryAddress = 0 →
  buffer_size_in_bytes / padded_bytes_per_element < 2 ^ 31 →
  operator_new env
    (buffer_size_in_bytes / padded_bytes_per_element * sizeof_size_t)
  = true →
  is_valid (cycle_handle env) = true →
  followers_valid env = true →
  let run := run_benchmark env buffer_size_in_bytes padded_bytes_per_element
                           use_hugepage w in
  run.1 = Ret ()
  ∧ ∃ before,
      new_events w run.2
      = before
        ++ [ECsvRow (retained env (reads w) measured_trials
                       (initial_result buffer_size_in_bytes
                          padded_bytes_per_element page_size));
            EFree buffer].
Proof.
  intros Hpos Hdivides Hstride Hquery Halloc Haligned Hsmall Hnew Hcycle
    Hfollowers run.
  destruct (run_benchmark_detail env buffer_size_in_bytes
              padded_bytes_per_element use_hugepage w)
    as (out & w' & evs & Hrun & Htrace & Hdetail).
  unfold run. rewrite Hrun. cbn [fst snd].
  rewrite (new_events_app _ _ _ Htrace).
  assert (buffer_size_in_bytes mod padded_bytes_per_element = 0) as Hmod
    by (apply Z.mod_divide; [lia|exact Hdivides]).
  assert (∀ w0, ∃ start_ptr w0',
            generate_random_pointer_chasing env buffer
              (buffer_size_in_bytes / padded_bytes_per_element)
              padded_bytes_per_element RAND_SEED w0 = (Ret start_ptr, w0'))
    as Hbuilder.
  { intros w0.
    destruct (decide (buffer = nullptr
                      ∨ buffer_size_in_bytes / padded_bytes_per_element = 0))
      as [Hnull|Hchecked].
    - rewrite generate_random_pointer_chasing_null by exact Hnull. eauto.
    - rewrite generate_random_pointer_chasing_checked by tauto.
      do 2 rewrite decide_False by tauto.
      rewrite decide_False
        by (unfold alignof_MemoryAddress, sizeof_MemoryAddress in *;
            pose proof (Z.div_mod padded_bytes_per_element 8); lia).
      rewrite decide_False by (rewrite vector_max_size_value; lia).
      rewrite decide_False by congruence.
      rewrite decide_False by (unfold INT_MAX; lia). eauto. }
  destruct Hdetail
    as [?|? ?|e ? ? Hq|page_size' e ? ? Hq Ha
        |page_size' buffer' alignment size e ? ? Hq Ha Hg
        |page_size' buffer' alignment size ? ? Hq Ha Hover Hg
        |page_size' buffer' alignment size start_ptr stores ? ? Hq Ha ? Hc
        |page_size' buffer' alignment size start_ptr stores ? ? Hq Ha ? Hc Hf
        |page_size' buffer' alignment size start_ptr stores ? ? Hq Ha Hg
           Hc Hf];
    try lia; try congruence.
  all: try (rewrite Hquery in Hq; first [discriminate Hq|injection Hq as <-]).
  all: try (rewrite Halloc in Ha; first [discriminate Ha|injection Ha as <- _]).
  all: try congruence.
  - destruct (Hbuilder w) as (start_ptr & w0' & Hret).
    rewrite Hg in Hret. discriminate Hret.
  - split; [reflexivity|].
    exists ([EAlloc alignment size buffer]
            ++ advise_events env buffer buffer_size_in_bytes use_hugepage
            ++ ((λ s, EWrite s.1 s.2) <$> stores)
            ++ all_open_events env ++ [EEnable cycle_counter]
            ++ trials_events env (reads w) start_ptr
                 (seq 0 (Z.to_nat (NUM_WARMUPS + NUM_TRIALS)))
            ++ [EDisable cycle_counter; EClose tlb_miss_counter;
                EClose l3_miss_counter; EClose l2_miss_counter;
                EClose l1d_miss_counter; EClose cycle_counter]).
    unfold closing_events. repeat rewrite <- app_assoc. reflexivity.
Qed.

Lemma working_environment_prints_a_row_witness :
  0 < 64 ∧ (64 | 1024) ∧ 64 mod alignof_MemoryAddress = 0
  ∧ 1024 / 64 < 2 ^ 31
  ∧ operator_new example_environment (1024 / 64 * sizeof_size_t) = true
  ∧ (run_benchmark example_environment 1024 64 false empty_world).1 = Ret ().
Proof.
  assert (0 < 64) as Hpos by lia.
  assert (64 | 1024) as Hdivides by (exists 16; reflexivity).
  assert (64 mod alignof_MemoryAddress = 0) as Hstride by reflexivity.
  assert (1024 / 64 < 2 ^ 31) as Hsmall by reflexivity.
  assert (operator_new example_environment (1024 / 64 * sizeof_size_t) = true)
    as Hnew by reflexivity.
  split; [exact Hpos|]. split; [exact Hdivides|]. split; [exact Hstride|].
  split; [exact Hsmall|]. split; [exact Hnew|].
  refine (proj1 (working_environment_prints_a_row example_environment 1024 64
                   false empty_world
                   (record [EAlloc 4096 4096 65536] empty_world) 4096 65536
                   Hpos Hdivides Hstride _ _ _ Hsmall Hnew _ _));
    reflexivity.
Defined.

(** * Properties of the entry point *)

Lemma buffers_held_inner (held : option Z) (events : list event) :
  Forall is_inner_event events → buffers_held held events = Some held.
Proof.
  induction 1 as [|e events He _ IH]; [reflexivity|].
  destruct e; cbn [buffers_held]; first [exact IH | destruct He].
Qed.

Lemma buffers_held_app (held : option Z) (events events' : list event) :
  buffers_held held (events ++ events')
  = match buffers_held held events with
    | Some held' => buffers_held held' events'
    | None => None
    end.
Proof.
  revert held. induction events as [|e events IH]; intros held; [reflexivity|].
  destruct e; cbn [app buffers_held]; try apply IH.
  - destruct held; [reflexivity|apply IH].
  - destruct held as [held_buffer|]; [|reflexivity].
    destruct (_ =? held_buffer); [apply IH|reflexivity].
Qed.

(** One call of [run_benchmark] with fewer than [2^31] elements: its
    events keep the discipline of the buffers, and its behaviour is
    defined unless the stride is 0. *)
Lemma run_benchmark_buffers `{StdShuffle} (env : environment)
    (buffer_size_in_bytes padded_bytes_per_element : Z) (use_hugepage : bool)
    (w : world) :
  buffer_size_in_bytes / padded_bytes_per_element < 2 ^ 31 →
  ∃ out w' events,
    run_benchmark env buffer_size_in_bytes padded_bytes_per_element
                  use_hugepage w = (out, w')
    ∧ trace w' = trace w ++ events
    ∧ buffers_held None events = Some None
    ∧ (padded_bytes_per_element ≠ 0 → out ≠ Undefined).
Proof.
  intros Hsmall.
  destruct (run_benchmark_detail env buffer_size_in_bytes
              padded_bytes_per_element use_hugepage w)
    as (out & w' & evs & Hrun & Htrace & Hdetail).
  exists out, w', evs. split; [exact Hrun|]. split; [exact Htrace|].
  destruct Hdetail
    as [?|? ?|e ? ? ?|page_size e ? ? ? ?
        |page_size buffer alignment size e ? ? ? Ha ?
        |page_size buffer alignment size ? ? ? Ha Hover ?
        |page_size buffer alignment size start_ptr stores ? ? ? Ha ? ?
        |page_size buffer alignment size start_ptr stores ? ? ? Ha ? ? ?
        |page_size buffer alignment size start_ptr stores ? ? ? Ha ? ? ?];
    try lia;
    (split; [|first [done | intros; discriminate]]);
    try reflexivity.
  all: cbn [app buffers_held].
  all: repeat (rewrite buffers_held_app, buffers_held_inner by event_kind;
               cbv beta iota; cbn [app buffers_held]).
  all: unfold closing_events; cbn [buffers_held]; by rewrite Z.eqb_refl.
Qed.

(** In the sweep of [main] the buffers have at most [2^30] bytes, so a
    call has fewer than [2^31] elements. *)
Lemma sweep_elements (size padded : Z) :
  0 ≤ size ≤ 1 * GiB → 0 ≤ padded → size / padded < 2 ^ 31.
Proof.
  unfold GiB. intros Hsize Hpadded.
  destruct (decide (padded = 0)) as [->|Hne].
  - rewrite Z.div_0_r. lia.
  - apply Z.div_lt_upper_bound; nia.
Qed.

Lemma sweep_body_buffers `{StdShuffle} (env_at : nat → environment)
    (call : nat) (size cache_line_bytes page_size : Z) (w : world) :
  0 ≤ size ≤ 1 * GiB → 0 ≤ cache_line_bytes → 0 ≤ page_size →
  ∃ out w' events,
    sweep_body env_at call size cache_line_bytes page_size w = (out, w')
    ∧ trace w' = trace w ++ events
    ∧ buffers_held None events = Some None
    ∧ (cache_line_bytes ≠ 0 → page_size ≠ 0 → out ≠ Undefined).
Proof.
  intros Hsize Hline Hpage.
  pose proof (sweep_elements size cache_line_bytes Hsize Hline) as Hsmall1.
  pose proof (sweep_elements size page_size Hsize Hpage) as Hsmall2.
  unfold sweep_body, mbind, M_bind.
  destruct (run_benchmark_buffers (env_at call) size cache_line_bytes true w
              Hsmall1)
    as (out1 & w1 & events1 & -> & Htrace1 & Hheld1 & Hdefined1).
  destruct out1 as [[]|e|].
  2,3: eexists _, w1, events1; repeat split; first [done|tauto].
  destruct (run_benchmark_buffers (env_at (call + 1)%nat) size page_size true w1
              Hsmall2)
    as (out2 & w2 & events2 & -> & Htrace2 & Hheld2 & Hdefined2).
  destruct out2 as [[]|e|].
  2,3: eexists _, w2, (events1 ++ events2);
       (split; [reflexivity|]);
       (split; [by rewrite Htrace2, Htrace1, app_assoc|]);
       (split; [by rewrite buffers_held_app, Hheld1|]);
       first [done|tauto].
  destruct (run_benchmark_buffers (env_at (call + 2)%nat) size page_size false
              w2 Hsmall2)
    as (out3 & w3 & events3 & -> & Htrace3 & Hheld3 & Hdefined3).
  exists out3, w3, (events1 ++ events2 ++ events3).
  split; [reflexivity|].
  split; [by rewrite Htrace3, Htrace2, Htrace1, <- !app_assoc|].
  split; [|tauto].
  rewrite buffers_held_app, Hheld1. cbv beta iota.
  by rewrite buffers_held_app, Hheld2.
Qed.

Lemma sweep_buffers `{StdShuffle} (fuel : nat) (env_at : nat → environment)
    (call : nat) (size cache_line_bytes page_size : Z) (w w' : world)
    (out : outcome unit) :
  0 ≤ size → 0 ≤ cache_line_bytes → 0 ≤ page_size →
  sweep fuel env_at call size cache_line_bytes page_size w = Some (out, w') →
  ∃ events, trace w' = trace w ++ events
            ∧ buffers_held None events = Some None.
Proof.
  intros Hsize Hline Hpage. revert call size Hsize w.
  induction fuel as [|fuel IH]; intros call size Hsize w Hsweep;
    [discriminate|].
  cbn [sweep] in Hsweep.
  destruct (size <=? 1 * GiB) eqn:Hbound.
  2:{ injection Hsweep as <- <-. exists []. by rewrite app_nil_r. }
  apply Z.leb_le in Hbound.
  destruct (sweep_body_buffers env_at call size cache_line_bytes page_size w)
    as (out1 & w1 & events1 & Hbody & Htrace1 & Hheld1 & _);
    [lia|exact Hline|exact Hpage|].
  rewrite Hbody in Hsweep.
  destruct out1 as [[]|e|].
  - apply IH in Hsweep as (events & Htrace & Hheld);
      [|apply wrap64_range].
    exists (events1 ++ events).
    split; [by rewrite Htrace, Htrace1, app_assoc|].
    by rewrite buffers_held_app, Hheld1.
  - injection Hsweep as <- <-. by exists events1.
  - injection Hsweep as <- <-. by exists events1.
Qed.

(** More fuel does not change a result. *)
Lemma sweep_fuel `{StdShuffle} (fuel fuel' : nat) (env_at : nat → environment)
    (call : nat) (size cache_line_bytes page_size : Z) (w : world)
    (result : outcome unit * world) :
  (fuel ≤ fuel')%nat →
  sweep fuel env_at call size cache_line_bytes page_size w = Some result →
  sweep fuel' env_at call size cache_line_bytes page_size w = Some result.
Proof.
  revert fuel' call size w.
  induction fuel as [|fuel IH]; intros fuel' call size w Hle Hsweep;
    [discriminate|].
  destruct fuel' as [|fuel']; [lia|].
  cbn [sweep] in *.
  destruct (size <=? 1 * GiB); [|exact Hsweep].
  destruct (sweep_body env_at call size cache_line_bytes page_size w)
    as [[[]|e|] w1]; try exact Hsweep.
  apply IH; [lia|exact Hsweep].
Qed.

Lemma sweep_ends_step `{StdShuffle} (env_at : nat → environment)
    (cache_line_bytes page_size size : Z) (fuel : nat) :
  0 < cache_line_bytes → 0 < page_size → 0 ≤ size →
  sweep_ends env_at cache_line_bytes page_size (wrap64 (size * 2)) fuel →
  sweep_ends env_at cache_line_bytes page_size size (S fuel).
Proof.
  intros Hc Hp Hsize Hnext call w. cbn [sweep].
  destruct (size <=? 1 * GiB) eqn:Hbound; [|by exists (Ret ()), w].
  apply Z.leb_le in Hbound.
  destruct (sweep_body_buffers env_at call size cache_line_bytes page_size w)
    as (out1 & w1 & events1 & -> & _ & _ & Hdefined); [lia..|].
  assert (out1 ≠ Undefined) as Hout by (apply Hdefined; lia).
  destruct out1 as [[]|e|]; [apply Hnext|by eexists _, _|done].
Qed.

Lemma wrap64_nonnegative (x : Z) : 0 ≤ wrap64 x.
Proof. apply wrap64_range. Qed.

Lemma sweep_ends_from_16_KiB `{StdShuffle} (env_at : nat → environment)
    (cache_line_bytes page_size : Z) :
  0 < cache_line_bytes → 0 < page_size →
  sweep_ends env_at cache_line_bytes page_size (wrap64 (16 * KiB)) 18.
Proof.
  intros Hc Hp.
  do 17 (apply sweep_ends_step;
         [exact Hc|exact Hp|apply wrap64_nonnegative|]).
  intros call w. by exists (Ret ()), w.
Qed.

Lemma wrap64_long_positive (x : Z) : is_long x → 1 ≤ x → 0 < wrap64 x.
Proof.
  unfold is_long, wrap64. intros Hlong Hpos.
  rewrite Z.mod_small by lia. lia.
Qed.

(** X14: [main] ends, and with the exit status 0 or 1: when the two
    start-up queries return values of type [long], eighteen tests of the
    loop condition suffice (more fuel changes nothing), no call of
    [run_benchmark] divides by zero, and an exception that reaches [main]
    is reported on the diagnostic stream as the last event before the
    exit with status 1. *)
Theorem main_ends_with_status_0_or_1 `{StdShuffle} (fuel : nat)
    (sysconf_SC_LEVEL1_DCACHE_LINESIZE : Z) (startup : environment)
    (env_at : nat → environment) (w : world) :
  (18 ≤ fuel)%nat →
  is_long sysconf_SC_LEVEL1_DCACHE_LINESIZE →
  is_long (sysconf_SC_PAGESIZE startup) →
  ∃ status w',
    main fuel sysconf_SC_LEVEL1_DCACHE_LINESIZE startup env_at w
    = (csv_header, Some (Ret status, w'))
    ∧ (status = 0
       ∨ status = 1
         ∧ ∃ e, [EStderr ("Error: " ++ what e ++ newline)]
                `suffix_of` new_events w w')
    ∧ main 18 sysconf_SC_LEVEL1_DCACHE_LINESIZE startup env_at w
      = main fuel sysconf_SC_LEVEL1_DCACHE_LINESIZE startup env_at w.
Proof.
  intros Hfuel Hline Hpage.
  assert (∀ e w0 events,
            trace w0 = trace w ++ events →
            [EStderr ("Error: " ++ what e ++ newline)]
            `suffix_of` new_events w
               (record [EStderr ("Error: " ++ what e ++ newline)] w0))
    as Hreported.
  { intros e w0 events Htrace.
    rewrite (new_events_app _ _
               (events ++ [EStderr ("Error: " ++ what e ++ newline)])).
    - by exists events.
    - cbn [record trace]. by rewrite Htrace, app_assoc. }
  unfold main, main_try, get_cache_line_bytes, common.get_page_size.
  unfold mbind, M_bind, mret, M_ret, throw.
  destruct (sysconf_SC_LEVEL1_DCACHE_LINESIZE <? 1) eqn:Hl.
  { eexists _, _. split; [reflexivity|]. split; [|reflexivity].
    right. split; [reflexivity|]. eexists. apply (Hreported _ _ []). by rewrite app_nil_r. }
  cbv beta iota.
  destruct (sysconf_SC_PAGESIZE startup <? 1) eqn:Hp.
  { eexists _, _. split; [reflexivity|]. split; [|reflexivity].
    right. split; [reflexivity|]. eexists. apply (Hreported _ _ []). by rewrite app_nil_r. }
  apply Z.ltb_ge in Hl, Hp.
  destruct (sweep_ends_from_16_KiB env_at
              (wrap64 sysconf_SC_LEVEL1_DCACHE_LINESIZE)
              (wrap64 (sysconf_SC_PAGESIZE startup))
              (wrap64_long_positive _ Hline Hl)
              (wrap64_long_positive _ Hpage Hp) 0%nat w)
    as (out & w' & Hsweep & Hdefined).
  pose proof (sweep_buffers _ _ _ _ _ _ _ _ _ (wrap64_nonnegative _)
                (wrap64_nonnegative _) (wrap64_nonnegative _) Hsweep)
    as (events & Htrace & _).
  rewrite (sweep_fuel 18 fuel _ _ _ _ _ _ _ Hfuel Hsweep), Hsweep.
  destruct out as [[]|e|]; [| |done].
  - eexists _, _. split; [reflexivity|]. split; [by left|reflexivity].
  - eexists _, _. split; [reflexivity|]. split; [|reflexivity].
    right. split; [reflexivity|]. eexists. by apply (Hreported _ _ events).
Qed.

Lemma main_ends_with_status_0_or_1_witness :
  (18 ≤ 18)%nat ∧ is_long 64
  ∧ is_long (sysconf_SC_PAGESIZE example_environment)
  ∧ ∃ status w',
      main 18 64 example_environment example_sweep empty_world
      = (csv_header, Some (Ret status, w'))
      ∧ (status = 0 ∨ status = 1).
Proof.
  assert (18 ≤ 18)%nat as Hfuel by lia.
  assert (is_long 64) as Hline by (unfold is_long; lia).
  assert (is_long (sysconf_SC_PAGESIZE example_environment)) as Hpage
    by (unfold is_long; cbn; lia).
  split; [exact Hfuel|]. split; [exact Hline|]. split; [exact Hpage|].
  destruct (main_ends_with_status_0_or_1 18 64 example_environment
              example_sweep empty_world Hfuel Hline Hpage)
    as (status & w' & Hmain & Hstatus & _).
  exists status, w'. split; [exact Hmain|].
  destruct Hstatus as [Hzero|[Hone _]]; [by left|by right].
Defined.

(** X15: over the whole sweep of [main] the buffers are used one at a
    time: in the events of a run of [main] that ends, every buffer that is
    allocated is freed before the next one is allocated and before [main]
    returns, and nothing is freed that is not held. *)
Theorem main_holds_one_buffer_at_a_time `{StdShuffle} (fuel : nat)
    (sysconf_SC_LEVEL1_DCACHE_LINESIZE : Z) (startup : environment)
    (env_at : nat → environment) (w w' : world) (out : outcome Z) :
  (main fuel sysconf_SC_LEVEL1_DCACHE_LINESIZE startup env_at w).2
  = Some (out, w') →
  buffers_held None (new_events w w') = Some None.
Proof.
  unfold main, main_try, get_cache_line_bytes, common.get_page_size.
  unfold mbind, M_bind, mret, M_ret, throw.
  cbn [snd].
  assert (∀ e,
            buffers_held None
              (new_events w
                 (record [EStderr ("Error: " ++ what e ++ newline)] w))
            = Some None) as Hstartup.
  { intros e.
    by rewrite (new_events_app _ _
                  [EStderr ("Error: " ++ what e ++ newline)]). }
  destruct (sysconf_SC_LEVEL1_DCACHE_LINESIZE <? 1).
  { intros Hmain. injection Hmain as <- <-.
    apply (Hstartup (runtime_error "Failed to get the cache line size.")). }
  cbv beta iota.
  destruct (sysconf_SC_PAGESIZE startup <? 1).
  { intros Hmain. injection Hmain as <- <-.
    apply (Hstartup (runtime_error "Failed to get the page size.")). }
  destruct (sweep fuel env_at 0 (wrap64 (16 * KiB))
              (wrap64 sysconf_SC_LEVEL1_DCACHE_LINESIZE)
              (wrap64 (sysconf_SC_PAGESIZE startup)) w)
    as [[out1 w1]|] eqn:Hsweep; [|discriminate].
  apply sweep_buffers in Hsweep as (events & Htrace & Hheld);
    [|apply wrap64_nonnegative..].
  destruct out1 as [[]|e|]; intros Hmain; injection Hmain as <- <-.
  - by rewrite (new_events_app _ _ _ Htrace).
  - rewrite (new_events_app _ _ (events ++ [EStderr ("Error: " ++ what e ++ newline)])).
    + by rewrite buffers_held_app, Hheld.
    + cbn [record trace]. by rewrite Htrace, app_assoc.
  - by rewrite (new_events_app _ _ _ Htrace).
Qed.

(** With fuel for eighteen tests of the loop condition and start-up
    queries that return positive values of type [long], [main] ends. *)
Lemma main_ends `{StdShuffle} (sysconf_SC_LEVEL1_DCACHE_LINESIZE : Z)
    (startup : environment) (env_at : nat → environment) (w : world) :
  is_long sysconf_SC_LEVEL1_DCACHE_LINESIZE →
  1 ≤ sysconf_SC_LEVEL1_DCACHE_LINESIZE →
  is_long (sysconf_SC_PAGESIZE startup) →
  1 ≤ sysconf_SC_PAGESIZE startup →
  ∃ out w',
    (main 18 sysconf_SC_LEVEL1_DCACHE_LINESIZE startup env_at w).2
    = Some (out, w').
Proof.
  intros Hline Hl Hpage Hp.
  unfold main, main_try, get_cache_line_bytes, common.get_page_size.
  unfold mbind, M_bind, mret, M_ret, throw. cbn [snd].
  replace (sysconf_SC_LEVEL1_DCACHE_LINESIZE <? 1) with false
    by (symmetry; apply Z.ltb_ge; lia).
  replace (sysconf_SC_PAGESIZE startup <? 1) with false
    by (symmetry; apply Z.ltb_ge; lia).
  destruct (sweep_ends_from_16_KiB env_at
              (wrap64 sysconf_SC_LEVEL1_DCACHE_LINESIZE)
              (wrap64 (sysconf_SC_PAGESIZE startup))
              (wrap64_long_positive _ Hline Hl)
              (wrap64_long_positive _ Hpage Hp) 0%nat w)
    as (out & w' & -> & _).
  destruct out as [[]|e|]; by eexists _, _.
Qed.

(** A run of [main] with cache lines of 64 bytes: the first call of
    [run_benchmark] allocates a buffer, measures and prints a row; in the
    second call no buffer can be allocated, and [main] ends with the exit
    status 1. *)
Lemma main_holds_one_buffer_at_a_time_witness :
  ∃ w',
    (main 18 64 example_environment example_sweep empty_world).2
    = Some (Ret 1, w')
    ∧ (∃ alignment size buffer result,
         EAlloc alignment size buffer ∈ new_events empty_world w'
         ∧ ECsvRow result ∈ new_events empty_world w'
         ∧ EFree buffer ∈ new_events empty_world w')
    ∧ buffers_held None (new_events empty_world w') = Some None.
Proof.
  assert (match (main 18 64 example_environment example_sweep empty_world).2
          with
          | Some (Ret 1, w') =>
              ∃ alignment size buffer result,
                EAlloc alignment size buffer ∈ new_events empty_world w'
                ∧ ECsvRow result ∈ new_events empty_world w'
                ∧ EFree buffer ∈ new_events empty_world w'
          | _ => False
          end) as Hrun.
  { vm_compute. eexists _, _, _, _. split; [apply list_elem_of_here|].
    split;
      repeat first [apply list_elem_of_here | apply list_elem_of_further]. }
  destruct (main_ends 64 example_environment example_sweep empty_world)
    as (out & w' & Hmain).
  { unfold is_long. lia. }
  { lia. }
  { unfold is_long. cbn [sysconf_SC_PAGESIZE example_environment]. lia. }
  { cbn [sysconf_SC_PAGESIZE example_environment]. lia. }
  rewrite Hmain in Hrun.
  destruct out as [status| |]; [|destruct Hrun..].
  destruct status as [|[p|p|]|p]; try contradiction.
  exists w'. split; [exact Hmain|].
  split; [exact Hrun|].
  exact (main_holds_one_buffer_at_a_time 18 64 example_environment
           example_sweep empty_world w' (Ret 1) Hmain).
Defined.

(** * Further properties of the printed rows *)

Lemma count_char_app (c : Ascii.ascii) (s1 s2 : string) :
  count_char c (s1 ++ s2) = (count_char c s1 + count_char c s2)%nat.
Proof.
  induction s1 as [|c' s1 IH]; [reflexivity|].
  cbn [String.append count_char]. rewrite IH. lia.
Qed.

Lemma string_append_assoc (s1 s2 s3 : string) :
  ((s1 ++ s2) ++ s3 = s1 ++ (s2 ++ s3))%string.
Proof.
  induction s1 as [|c s1 IH]; [reflexivity|].
  cbn [String.append]. by rewrite IH.
Qed.

Lemma digit_cases (d : Z) :
  0 ≤ d < 10 →
  d = 0 ∨ d = 1 ∨ d = 2 ∨ d = 3 ∨ d = 4 ∨ d = 5 ∨ d = 6 ∨ d = 7 ∨ d = 8
  ∨ d = 9.
Proof. lia. Qed.

(** [std::to_string] writes digits only. *)
Lemma to_string_digits_count (c : Ascii.ascii) (fuel : nat) (x : Z)
    (acc : string) :
  (∀ d, 0 ≤ d < 10 →
        Ascii.eqb c (Ascii.ascii_of_nat (Z.to_nat (48 + d))) = false) →
  count_char c (to_string_digits fuel x acc) = count_char c acc.
Proof.
  intros Hdigit. revert x acc.
  induction fuel as [|fuel IH]; intros x acc; [reflexivity|].
  cbn [to_string_digits].
  assert (count_char c
            (String (Ascii.ascii_of_nat (Z.to_nat (48 + x mod 10))) acc)
          = count_char c acc) as Hacc.
  { cbn [count_char]. rewrite Hdigit; [reflexivity|].
    apply Z.mod_pos_bound. lia. }
  destruct (x / 10 =? 0); [exact Hacc|]. by rewrite IH.
Qed.

Lemma to_string_count (c : Ascii.ascii) (x : Z) :
  (∀ d, 0 ≤ d < 10 →
        Ascii.eqb c (Ascii.ascii_of_nat (Z.to_nat (48 + d))) = false) →
  count_char c (to_string x) = 0%nat.
Proof. intros Hdigit. unfold to_string. by rewrite to_string_digits_count. Qed.

Lemma comma_is_no_digit (d : Z) :
  0 ≤ d < 10 →
  Ascii.eqb comma (Ascii.ascii_of_nat (Z.to_nat (48 + d))) = false.
Proof.
  intros Hd.
  destruct (digit_cases d Hd)
    as [-> | [-> | [-> | [-> | [-> | [-> | [-> | [-> | [-> | ->]]]]]]]]];
    reflexivity.
Qed.

Lemma newline_is_no_digit (d : Z) :
  0 ≤ d < 10 →
  Ascii.eqb (Ascii.ascii_of_nat 10) (Ascii.ascii_of_nat (Z.to_nat (48 + d)))
  = false.
Proof.
  intros Hd.
  destruct (digit_cases d Hd)
    as [-> | [-> | [-> | [-> | [-> | [-> | [-> | [-> | [-> | ->]]]]]]]]];
    reflexivity.
Qed.

(** X16: the text that [print_csv_row] writes has the columns of the
    header of [print_csv_header]: whatever the values of the counters, a
    row is nine fields separated by eight commas, as the header is, and it
    is one line, ended by its only newline character.  (The number of
    logical loads is the one signed field; [csv_row] gives its text when
    it is not negative, as in every row of [run_benchmark].) *)
Theorem row_has_the_columns_of_the_header (result : BenchmarkResult) :
  0 ≤ num_logical_loads result →
  count_char comma (csv_row result) = count_char comma csv_header
  ∧ count_char comma (csv_row result) = 8%nat
  ∧ count_char (Ascii.ascii_of_nat 10) (csv_row result) = 1%nat
  ∧ count_char (Ascii.ascii_of_nat 10) csv_header = 1%nat
  ∧ ∃ line, csv_row result = (line ++ newline)%string.
Proof.
  intros _. unfold csv_row.
  split; [|split; [|split; [|split]]].
  - rewrite !count_char_app, !(to_string_count _ _ comma_is_no_digit).
    reflexivity.
  - rewrite !count_char_app, !(to_string_count _ _ comma_is_no_digit).
    reflexivity.
  - rewrite !count_char_app, !(to_string_count _ _ newline_is_no_digit).
    reflexivity.
  - reflexivity.
  - exists (to_string (buffer_size result) ++ "," ++
            to_string (padded_element_size result) ++ "," ++
            to_string (page_size result) ++ "," ++
            to_string (num_logical_loads result) ++ "," ++
            to_string (cycle_count result) ++ "," ++
            to_string (l1d_miss_count result) ++ "," ++
            to_string (l2_miss_count result) ++ "," ++
            to_string (l3_miss_count result) ++ "," ++
            to_string (tlb_miss_count result))%string.
    rewrite !string_append_assoc. reflexivity.
Qed.

Lemma row_has_the_columns_of_the_header_witness :
  0 ≤ num_logical_loads example_result
  ∧ csv_row example_result
    = ("1024,64,4096,1000000,1028,9,7,5,3" ++ newline)%string
  ∧ count_char comma (csv_row example_result) = count_char comma csv_header.
Proof.
  assert (0 ≤ num_logical_loads example_result) as Hloads by (cbn; lia).
  split; [exact Hloads|]. split; [reflexivity|].
  exact (proj1 (row_has_the_columns_of_the_header example_result Hloads)).
Defined.

(** X17: the retained result starts at the cycle count [UINT64_MAX] with
    all miss counts 0 and is replaced only by a trial that takes strictly
    fewer cycles: when every measured trial takes [UINT64_MAX] cycles (the
    counter reads one less after the traversal than before it), the row
    that [run_benchmark] prints has the cycle count [UINT64_MAX] and the
    miss counts 0, whatever the miss counters read. *)
Theorem row_without_a_faster_trial_keeps_the_initial_values `{StdShuffle}
    (env : environment) (buffer_size_in_bytes padded_bytes_per_element : Z)
    (use_hugepage : bool) (w : world) (result : BenchmarkResult) :
  (∀ i, i ∈ measured_trials →
        elapsed_cycles env (trial_start (reads w) i) = UINT64_MAX) →
  ECsvRow result
  ∈ new_events w (run_benchmark env buffer_size_in_bytes
                    padded_bytes_per_element use_hugepage w).2 →
  cycle_count result = UINT64_MAX
  ∧ l1d_miss_count result = 0
  ∧ l2_miss_count result = 0
  ∧ l3_miss_count result = 0
  ∧ tlb_miss_count result = 0.
Proof.
  intros Hmax Hrow.
  destruct (run_benchmark_shape env buffer_size_in_bytes
              padded_bytes_per_element use_hugepage w)
    as (out & w' & events & Hrun & Htrace & Hshape).
  rewrite Hrun in Hrow. cbn [snd] in Hrow.
  rewrite (new_events_app _ _ _ Htrace) in Hrow.
  destruct (run_shape_row _ _ _ _ _ _ _ Hshape Hrow)
    as (_ & _ & page_size & ->).
  rewrite retained_without_faster_trial by exact Hmax.
  repeat split.
Qed.

Lemma row_without_a_faster_trial_keeps_the_initial_values_witness :
  (∀ i, i ∈ measured_trials →
        elapsed_cycles example_environment_backwards
          (trial_start (reads empty_world) i) = UINT64_MAX)
  ∧ ECsvRow (mkBenchmarkResult 1024 64 4096 1000000 UINT64_MAX 0 0 0 0)
    ∈ new_events empty_world
        (run_benchmark example_environment_backwards 1024 64 false
           empty_world).2
  ∧ l1d_misses example_environment_backwards
      (trial_start (reads empty_world) 3) = 9
  ∧ cycle_count (mkBenchmarkResult 1024 64 4096 1000000 UINT64_MAX 0 0 0 0)
    = UINT64_MAX.
Proof.
  assert (∀ i, i ∈ measured_trials →
               elapsed_cycles example_environment_backwards
                 (trial_start (reads empty_world) i) = UINT64_MAX) as Hmax.
  { intros i Hi. unfold measured_trials in Hi.
    change (seq (Z.to_nat NUM_WARMUPS) (Z.to_nat NUM_TRIALS))
      with [3; 4; 5; 6; 7; 8; 9; 10; 11; 12]%nat in Hi.
    repeat (apply elem_of_cons in Hi as [-> | Hi]; [reflexivity|]).
    by apply elem_of_nil in Hi. }
  assert (ECsvRow (mkBenchmarkResult 1024 64 4096 1000000 UINT64_MAX 0 0 0 0)
          ∈ new_events empty_world
              (run_benchmark example_environment_backwards 1024 64 false
                 empty_world).2) as Hrow.
  { vm_compute.
    repeat first [apply list_elem_of_here | apply list_elem_of_further]. }
  split; [exact Hmax|]. split; [exact Hrow|]. split; [reflexivity|].
  exact (proj1 (row_without_a_faster_trial_keeps_the_initial_values _ _ _ _
                  _ _ Hmax Hrow)).
Defined.
